(** * KomoCap: region selection and recording pipeline

    A shallow embedding of the core of [komocap.py]: the Qt rectangle
    arithmetic the program relies on, the fallback selection overlay
    ([_AreaOverlay]), the native selection path ([_select_area_native],
    [_SlopThread], [AreaSelector._on_native_done]), the audio source probe
    ([detect_audio_source]) and the recorder thread ([RecorderThread.run]
    and [RecorderThread.stop]).

    Python integers are unbounded and are modelled by [Z].  Qt stores
    rectangle coordinates in C [int]s; the model is exact for coordinates
    that stay inside that range, which pixel coordinates do.  Python [str]
    values are modelled by [string], one [ascii] per character. *)

From Stdlib Require Import ZArith List Bool String Ascii Lia.
From Stdlib Require Import DecimalString.
From Stdlib Require DecimalPos.
Import ListNotations.

Local Open Scope string_scope.
Local Open Scope list_scope.
Local Open Scope Z_scope.

(** Python's [+] on strings. *)
Infix "+++" := String.append (right associativity, at level 60).

(* ================================================================== *)
(** * Qt geometry: [QPoint] and [QRect] *)
(* ================================================================== *)

(** [QRect] keeps its two corners, both included: [x2 = x1 + width - 1].
    The default-constructed rectangle [QRect()] is the null rectangle
    [(0, 0, -1, -1)]. *)

Module Qt.

Record QPoint := mkPoint { px : Z; py : Z }.

Record QRect := mkRect { x1 : Z; y1 : Z; x2 : Z; y2 : Z }.

(** [QPoint()] *)
Definition QPoint_null : QPoint := mkPoint 0 0.

(** [QRect()] *)
Definition QRect_null : QRect := mkRect 0 0 (-1) (-1).

(** [QRect(x, y, w, h)] *)
Definition QRect_xywh (x y w h : Z) : QRect :=
  mkRect x y (x + w - 1) (y + h - 1).

(** [QRect(topLeft, bottomRight)]: both corner points belong to the
    rectangle. *)
Definition QRect_pts (p q : QPoint) : QRect :=
  mkRect (px p) (py p) (px q) (py q).

Definition x (r : QRect) : Z := x1 r.
Definition y (r : QRect) : Z := y1 r.
Definition width (r : QRect) : Z := x2 r - x1 r + 1.
Definition height (r : QRect) : Z := y2 r - y1 r + 1.

Definition isNull (r : QRect) : bool :=
  (x2 r =? x1 r - 1) && (y2 r =? y1 r - 1).

Definition isValid (r : QRect) : bool :=
  (x1 r <=? x2 r) && (y1 r <=? y2 r).

(** [QRect::normalized()] of Qt 5: corners are swapped on an axis whose
    extent is negative. *)
Definition normalized (r : QRect) : QRect :=
  let '(a1, a2) := if x2 r <? x1 r - 1 then (x2 r, x1 r) else (x1 r, x2 r) in
  let '(b1, b2) := if y2 r <? y1 r - 1 then (y2 r, y1 r) else (y1 r, y2 r) in
  mkRect a1 b1 a2 b2.

(** Truth value of a [QRect] in Python: PyQt5 maps [__bool__] to
    [isValid()]. *)
Definition QRect_bool (r : QRect) : bool := isValid r.

Definition QRect_eqb (r s : QRect) : bool :=
  (x1 r =? x1 s) && (y1 r =? y1 s) && (x2 r =? x2 s) && (y2 r =? y2 s).

(** The coordinates of a [QRect] are C [int]s of 32 bits. *)
Definition INT_MIN : Z := -2147483648.
Definition INT_MAX : Z := 2147483647.

Definition is_int (n : Z) : bool := (INT_MIN <=? n) && (n <=? INT_MAX).

(** The value of [n] as a C [int]: arithmetic on them wraps around. *)
Definition wrap (n : Z) : Z := (n + 2147483648) mod 4294967296 - 2147483648.

(** [QRect(x, y, w, h)] called with Python integers.  An argument that
    does not fit a C [int] makes the call raise [OverflowError] ([None]);
    otherwise the far corner is computed on C [int]s. *)
Definition QRect_ints (x y w h : Z) : option QRect :=
  if is_int x && is_int y && is_int w && is_int h
  then Some (mkRect x y (wrap (x + w - 1)) (wrap (y + h - 1)))
  else None.

(** [width()] and [height()] as C computes them. *)
Definition width_int (r : QRect) : Z := wrap (x2 r - x1 r + 1).
Definition height_int (r : QRect) : Z := wrap (y2 r - y1 r + 1).

End Qt.

Import Qt.

(* ================================================================== *)
(** * The fallback overlay: [_AreaOverlay] *)
(* ================================================================== *)

Module Overlay.

(** The two signals of the overlay (and of [AreaSelector]). *)
Inductive selection_signal :=
| area_selected (r : QRect)
| cancelled.

Inductive MouseButton := LeftButton | RightButton | MidButton | OtherButton.

Inductive Key := Key_Escape | Key_Return | Key_Enter | Key_Other (code : Z).

(** The fields of [_AreaOverlay] that the event handlers read and write. *)
Record _AreaOverlay := mkOverlay {
  _origin : QPoint;
  _sel    : QRect;
  _drag   : bool;
  _done   : bool
}.

(** [__init__] *)
Definition init : _AreaOverlay :=
  mkOverlay QPoint_null QRect_null false false.

(** Every handler returns the new widget state and the signals it
    emitted. *)
Definition result := (_AreaOverlay * list selection_signal)%type.

Definition _finish (ok : bool) (s : _AreaOverlay) : result :=
  if _done s then (s, [])
  else
    let s' := mkOverlay (_origin s) (_sel s) (_drag s) true in
    if ok then (s', [area_selected (normalized (_sel s))])
    else (s', [cancelled]).

Definition is_left (b : MouseButton) : bool :=
  match b with LeftButton => true | _ => false end.

Definition mousePressEvent (b : MouseButton) (pos : QPoint)
    (s : _AreaOverlay) : result :=
  if is_left b then (mkOverlay pos QRect_null true (_done s), [])
  else (s, []).

Definition mouseMoveEvent (pos : QPoint) (s : _AreaOverlay) : result :=
  if _drag s then
    (mkOverlay (_origin s) (normalized (QRect_pts (_origin s) pos))
               (_drag s) (_done s), [])
  else (s, []).

Definition mouseReleaseEvent (b : MouseButton) (pos : QPoint)
    (s : _AreaOverlay) : result :=
  if is_left b && _drag s then
    let sel := normalized (QRect_pts (_origin s) pos) in
    let s1 := mkOverlay (_origin s) sel false (_done s) in
    if (10 <? width sel) && (10 <? height sel) then _finish true s1
    else _finish false s1
  else (s, []).

Definition keyPressEvent (k : Key) (s : _AreaOverlay) : result :=
  match k with
  | Key_Escape => _finish false s
  | Key_Return | Key_Enter =>
      if negb (isNull (_sel s)) then _finish true s else (s, [])
  | Key_Other _ => (s, [])
  end.

(** The events Qt delivers to the overlay. *)
Inductive event :=
| Press (b : MouseButton) (pos : QPoint)
| Move (pos : QPoint)
| Release (b : MouseButton) (pos : QPoint)
| KeyPress (k : Key).

Definition handle (e : event) (s : _AreaOverlay) : result :=
  match e with
  | Press b pos => mousePressEvent b pos s
  | Move pos => mouseMoveEvent pos s
  | Release b pos => mouseReleaseEvent b pos s
  | KeyPress k => keyPressEvent k s
  end.

(** A session: the events are handled in order, the emitted signals are
    collected in order. *)
Fixpoint session (es : list event) (s : _AreaOverlay) : result :=
  match es with
  | [] => (s, [])
  | e :: es' =>
      let '(s1, out1) := handle e s in
      let '(s2, out2) := session es' s1 in
      (s2, out1 ++ out2)
  end.

(** A left-button drag: press, any number of pointer moves, release. *)
Definition drag (from : QPoint) (via : list QPoint) (to : QPoint)
  : list event :=
  Press LeftButton from :: map Move via ++ [Release LeftButton to].

(** The stored selection is a normalized rectangle (an invariant of the
    handlers). *)
Definition sel_normalized (s : _AreaOverlay) : Prop :=
  normalized (_sel s) = _sel s.

End Overlay.

(* ================================================================== *)
(** * Python built-ins used by the program *)
(* ================================================================== *)

(** The [str] methods, [int], [str] and [os.path.splitext] as they behave
    on ASCII text; a character above 127 is treated as an ordinary symbol
    (neither white space, nor a line boundary, nor a digit). *)

Module Py.

Definition code (c : ascii) : N := N_of_ascii c.

(** [str.isspace] on one character. *)
Definition isspace (c : ascii) : bool :=
  ((9 <=? code c) && (code c <=? 13) || (28 <=? code c) && (code c <=? 32))%N.

Definition is_empty (s : string) : bool :=
  match s with EmptyString => true | String _ _ => false end.

Fixpoint lstrip (s : string) : string :=
  match s with
  | EmptyString => EmptyString
  | String c s' => if isspace c then lstrip s' else s
  end.

Fixpoint rstrip (s : string) : string :=
  match s with
  | EmptyString => EmptyString
  | String c s' =>
      let r := rstrip s' in
      if isspace c && is_empty r then EmptyString else String c r
  end.

(** [s.strip()] *)
Definition strip (s : string) : string := rstrip (lstrip s).

(** [s.split()]: the maximal runs of characters that are not white space. *)
Fixpoint split (s : string) : list string :=
  match s with
  | EmptyString => []
  | String c s' =>
      let r := split s' in
      if isspace c then r
      else
        match s' with
        | EmptyString => [String c EmptyString]
        | String d _ =>
            if isspace d then String c EmptyString :: r
            else match r with
                 | w :: ws => String c w :: ws
                 | [] => [String c EmptyString]
                 end
        end
  end.

(** The line boundaries of [str.splitlines]: LF, VT, FF, CR, FS, GS, RS
    (and CR LF, which counts once). *)
Definition is_linebreak (c : ascii) : bool :=
  ((10 <=? code c) && (code c <=? 13) || (28 <=? code c) && (code c <=? 30))%N.

Definition starts_with_lf (s : string) : bool :=
  match s with
  | String c _ => (code c =? 10)%N
  | EmptyString => false
  end.

(** [s.splitlines()] *)
Fixpoint splitlines (s : string) : list string :=
  match s with
  | EmptyString => []
  | String c s' =>
      let r := splitlines s' in
      if is_linebreak c then
        if (code c =? 13)%N && starts_with_lf s' then r
        else EmptyString :: r
      else
        match r with
        | h :: t => String c h :: t
        | [] => [String c EmptyString]
        end
  end.

Definition lower_char (c : ascii) : ascii :=
  if ((65 <=? code c) && (code c <=? 90))%N
  then ascii_of_N (code c + 32) else c.

(** [s.lower()] *)
Fixpoint lower (s : string) : string :=
  match s with
  | EmptyString => EmptyString
  | String c s' => String (lower_char c) (lower s')
  end.

(** [sub in s] *)
Fixpoint contains (sub s : string) : bool :=
  String.prefix sub s
  || match s with
     | EmptyString => false
     | String _ s' => contains sub s'
     end.

Definition digit_val (c : ascii) : option Z :=
  if ((48 <=? code c) && (code c <=? 57))%N
  then Some (Z.of_N (code c) - 48) else None.

(** The digits of an integer literal; an underscore may separate two
    digits. *)
Fixpoint parse_digits (s : string) (acc : Z) (after_digit : bool)
  : option Z :=
  match s with
  | EmptyString => if after_digit then Some acc else None
  | String c s' =>
      match digit_val c with
      | Some d => parse_digits s' (10 * acc + d) true
      | None =>
          if (code c =? 95)%N && after_digit
          then parse_digits s' acc false
          else None
      end
  end.

(** [int(s)]; [None] stands for [ValueError]. *)
Definition int (s : string) : option Z :=
  match strip s with
  | String c r =>
      if (code c =? 45)%N then option_map Z.opp (parse_digits r 0 false)
      else if (code c =? 43)%N then parse_digits r 0 false
      else parse_digits (String c r) 0 false
  | EmptyString => None
  end.

(** [str(n)] for an integer. *)
Definition str (n : Z) : string := NilZero.string_of_int (Z.to_int n).

(** [s.rfind(c)] for a single character: the last index, or -1. *)
Fixpoint rfind_from (c : ascii) (s : string) (i : Z) : Z :=
  match s with
  | EmptyString => -1
  | String d s' =>
      let r := rfind_from c s' (i + 1) in
      if 0 <=? r then r else if Ascii.eqb c d then i else -1
  end.

Definition rfind (c : ascii) (s : string) : Z := rfind_from c s 0.

Fixpoint all_dots (s : string) : bool :=
  match s with
  | EmptyString => true
  | String c s' => Ascii.eqb c "." && all_dots s'
  end.

(** [p[lo:hi]] for [0 <= lo <= hi]. *)
Definition slice (p : string) (lo hi : Z) : string :=
  String.substring (Z.to_nat lo) (Z.to_nat (hi - lo)) p.

(** [os.path.splitext(p)] on POSIX: the extension starts at the last dot
    of the last path component, leading dots of that component apart. *)
Definition splitext (p : string) : string * string :=
  let sepIndex := rfind "/" p in
  let dotIndex := rfind "." p in
  if (sepIndex <? dotIndex)
     && negb (all_dots (slice p (sepIndex + 1) dotIndex))
  then (slice p 0 dotIndex, slice p dotIndex (Z.of_nat (String.length p)))
  else (p, EmptyString).

(** [s[-n:]] for [n > 0]: the last [n] characters. *)
Definition last_chars (n : nat) (s : string) : string :=
  String.substring (String.length s - n) n s.

End Py.

(* ================================================================== *)
(** * External commands *)
(* ================================================================== *)

(** What [subprocess.run] hands back ([CompletedProcess]).  Where the
    program wraps a call in [try ... except Exception], the call's result
    is an [option]: [None] when it raised (missing binary, timeout). *)
Record completed := mkCompleted { returncode : Z; stdout : string }.

(* ================================================================== *)
(** * [detect_audio_source] *)
(* ================================================================== *)

Module Audio.

(** The answers of the commands the probe may run, in program order:
    [pw-cli list-objects Node], [pactl list short sources] (inside the
    PipeWire branch), [pactl list short sources] (second attempt),
    [pulseaudio --check] and [arecord -l]. *)
Record probes := mkProbes {
  pw_cli           : option completed;
  pactl_pipewire   : option completed;
  pactl_pulse      : option completed;
  pulseaudio_check : option Z;
  arecord          : option completed
}.

(** [r.returncode == 0 and r.stdout.strip()] *)
Definition answered (r : completed) : bool :=
  (returncode r =? 0) && negb (Py.is_empty (Py.strip (stdout r))).

Definition is_monitor (line : string) : bool :=
  Py.contains "monitor" (Py.lower line).

(** [parts[1]] when [len(parts) >= 2]. *)
Definition second_field (line : string) : option string :=
  match Py.split line with
  | _ :: name :: _ => Some name
  | _ => None
  end.

(** The [for line in lines] loop: the second field of the first line that
    is not a monitor and has two fields. *)
Fixpoint first_non_monitor (lines : list string) : option string :=
  match lines with
  | [] => None
  | line :: rest =>
      if negb (is_monitor line) then
        match second_field line with
        | Some name => Some name
        | None => first_non_monitor rest
        end
      else first_non_monitor rest
  end.

Definition source := (string * string)%type.

Definition pulse_default : source := ("pulse", "default").

(** Step 1.  [None]: control leaves the [try] block without a [return]. *)
Definition try_pipewire (e : probes) : option source :=
  match pw_cli e with
  | Some r =>
      if answered r then
        match pactl_pipewire e with
        | Some r2 =>
            if answered r2 then
              let lines := Py.splitlines (Py.strip (stdout r2)) in
              match first_non_monitor lines with
              | Some name => Some ("pulse", name)
              | None =>
                  match lines with
                  | l0 :: _ =>
                      match second_field l0 with
                      | Some name => Some ("pulse", name)
                      | None => Some pulse_default
                      end
                  | [] => None
                  end
              end
            else Some pulse_default
        | None => None
        end
      else None
  | None => None
  end.

(** Step 2. *)
Definition try_pulseaudio (e : probes) : option source :=
  match pactl_pulse e with
  | Some r =>
      if answered r then
        let lines := Py.splitlines (Py.strip (stdout r)) in
        match first_non_monitor lines with
        | Some name => Some ("pulse", name)
        | None =>
            match lines with
            | l0 :: _ =>
                match second_field l0 with
                | Some name => Some ("pulse", name)
                | None => Some pulse_default
                end
            | [] => None
            end
        end
      else None
  | None => None
  end.

(** Step 3. *)
Definition try_check (e : probes) : option source :=
  match pulseaudio_check e with
  | Some rc => if rc =? 0 then Some pulse_default else None
  | None => None
  end.

(** Step 4. *)
Definition try_alsa (e : probes) : option source :=
  match arecord e with
  | Some r =>
      if (returncode r =? 0) && Py.contains "card" (stdout r)
      then Some ("alsa", "hw:0,0") else None
  | None => None
  end.

Definition or_else {A} (o : option A) (k : A) : A :=
  match o with Some a => a | None => k end.

Definition detect_audio_source (e : probes) : source :=
  or_else (try_pipewire e)
  (or_else (try_pulseaudio e)
  (or_else (try_check e)
  (or_else (try_alsa e) pulse_default))).

(** PipeWire answered the first probe. *)
Definition pipewire_up (e : probes) : bool :=
  match pw_cli e with Some r => answered r | None => false end.

(** [r] is the answer of the [pactl] call whose listing the function
    reads: the one made in the PipeWire branch, or the second one when
    PipeWire is absent or the first call raised. *)
Definition listing (e : probes) (r : completed) : Prop :=
  (pipewire_up e = true /\ pactl_pipewire e = Some r)
  \/ ((pipewire_up e = false \/ pactl_pipewire e = None)
      /\ pactl_pulse e = Some r).

Definition TAB : string := String (ascii_of_nat 9) EmptyString.
Definition LF : string := String (ascii_of_nat 10) EmptyString.

(** A [pactl] listing with a monitor source and a USB input, in that
    order, and a host where PipeWire runs and [pactl] prints it. *)
Definition usb_listing : completed :=
  mkCompleted 0
    ("0" +++ TAB +++ "alsa_output.monitor" +++ TAB +++ "module-alsa-card.c"
         +++ TAB +++ "s16le 2ch 44100Hz" +++ TAB +++ "SUSPENDED" +++ LF
     +++ "1" +++ TAB +++ "alsa_input.usb" +++ TAB +++ "module-alsa-card.c"
         +++ TAB +++ "s16le 2ch 44100Hz" +++ TAB +++ "SUSPENDED" +++ LF).

Definition usb_host : probes :=
  mkProbes
    (Some (mkCompleted 0 ("id 31, type PipeWire:Interface:Node/3" +++ LF)))
    (Some usb_listing) None None None.

(** ** The specification's test, in its own words

    A line names a monitor when it contains the word "monitor", each
    letter in either case. *)
Definition either (lo up c : ascii) : bool :=
  Ascii.eqb c lo || Ascii.eqb c up.

(** The line starts with the word. *)
Definition monitor_here (s : string) : bool :=
  match s with
  | String c1 (String c2 (String c3 (String c4 (String c5 (String c6
      (String c7 _)))))) =>
      either "m" "M" c1 && either "o" "O" c2 && either "n" "N" c3
      && either "i" "I" c4 && either "t" "T" c5 && either "o" "O" c6
      && either "r" "R" c7
  | _ => false
  end.

Fixpoint mentions_monitor (s : string) : bool :=
  monitor_here s
  || match s with
     | EmptyString => false
     | String _ s' => mentions_monitor s'
     end.

(** The same two sources as [usb_listing], as PulseAudio describes a
    monitor ("Monitor of ..." in its names is common), in mixed case. *)
Definition mixed_case_listing : completed :=
  mkCompleted 0
    ("7" +++ TAB +++ "alsa_output.pci-0000_00_1f.3.Analog-MONITOR" +++ TAB
         +++ "module-alsa-card.c" +++ TAB +++ "s16le 2ch 48000Hz" +++ TAB
         +++ "IDLE" +++ LF
     +++ "8" +++ TAB +++ "Monitor.Of.Headset" +++ TAB
         +++ "module-alsa-card.c" +++ TAB +++ "s16le 2ch 48000Hz" +++ TAB
         +++ "IDLE" +++ LF
     +++ "9" +++ TAB +++ "alsa_input.usb" +++ TAB +++ "module-alsa-card.c"
         +++ TAB +++ "s16le 1ch 48000Hz" +++ TAB +++ "SUSPENDED" +++ LF).

(** PipeWire is absent; PulseAudio prints [mixed_case_listing]. *)
Definition mixed_case_host : probes :=
  mkProbes None None (Some mixed_case_listing) None None.

End Audio.

(* ================================================================== *)
(** * Native selection: [_select_area_native] and [AreaSelector] *)
(* ================================================================== *)

Module Native.

Import Overlay.

(** What the host answers during one call of [_select_area_native]. *)
Record host := mkHost {
  slop_installed  : bool;               (* shutil.which("slop") *)
  slop_run        : option completed;   (* None: subprocess.run raised *)
  scrot_installed : bool;               (* shutil.which("scrot") *)
  scrot_run       : option Z;           (* return code; None: raised *)
  tmp_exists      : bool;               (* os.path.exists(tmp) *)
  image_size      : option (Z * Z)      (* None: reading the image raised *)
}.

(** The scrot branch. *)
Definition select_scrot (e : host) : option QRect :=
  if scrot_installed e then
    match scrot_run e with
    | Some rc =>
        if (rc =? 0) && tmp_exists e then
          match image_size e with
          | Some (w, h) =>
              (* an OverflowError of QRect is swallowed as well *)
              if (4 <? w) && (4 <? h) then QRect_ints 0 0 w h
              else None
          | None => None
          end
        else None
    | None => None
    end
  else None.

Definition _select_area_native (e : host) : option QRect :=
  if slop_installed e then
    match slop_run e with
    | Some r =>
        if returncode r =? 0 then
          match Py.split (Py.strip (stdout r)) with
          | [a; b; c; d] =>
              match Py.int a, Py.int b, Py.int c, Py.int d with
              | Some x, Some y, Some w, Some h =>
                  if (4 <? w) && (4 <? h) then
                    match QRect_ints x y w h with
                    | Some rect => Some rect
                    | None => select_scrot e      (* OverflowError *)
                    end
                  else None
              | _, _, _, _ => select_scrot e      (* ValueError *)
              end
          | _ => None
          end
        else None
    | None => select_scrot e
    end
  else select_scrot e.

(** [_SlopThread.run]: the rectangle carried by the [done] signal. *)
Definition _SlopThread_run (e : host) : QRect :=
  match _select_area_native e with
  | Some rect => if QRect_bool rect then rect else QRect_null
  | None => QRect_null
  end.

Definition _on_native_done (rect : QRect) : list selection_signal :=
  if isNull rect || (width rect <? 4) || (height rect <? 4)
  then [cancelled] else [area_selected rect].

(** [AreaSelector._run_native]: the thread runs, its [done] signal is
    delivered to [_on_native_done]. *)
Definition _run_native (e : host) : list selection_signal :=
  _on_native_done (_SlopThread_run e).

(** [AreaSelector.start]: the signals of the native path, or the freshly
    shown overlay. *)
Definition start (e : host) : list selection_signal + _AreaOverlay :=
  if slop_installed e || scrot_installed e then inl (_run_native e)
  else inr Overlay.init.

End Native.

(* ================================================================== *)
(** * [RecorderThread] *)
(* ================================================================== *)

Module Recorder.

Definition NL : string := String (ascii_of_nat 10) EmptyString.

(** The configuration dictionary; a field is [None] when the key is
    missing ([area] is also [None] when the key holds [None]). *)
Record Cfg := mkCfg {
  area        : option QRect;
  fps         : option Z;
  quality     : option Z;
  audio       : option bool;
  webcam      : option bool;
  webcam_pos  : option string;
  webcam_size : option string;
  output      : option string
}.

(** [cfg.get(key, default)] *)
Definition get {A} (o : option A) (default : A) : A :=
  match o with Some a => a | None => default end.

(** The class attribute [QUALITY]: quality index -> (crf, preset). *)
Definition QUALITY (qi : Z) : option (Z * string) :=
  match qi with
  | 0 => Some (45, "ultrafast")
  | 1 => Some (28, "fast")
  | 2 => Some (18, "medium")
  | 3 => Some (12, "slow")
  | 4 => Some (0, "veryslow")
  | _ => None
  end.

(** [n & ~1] *)
Definition clear_bit0 (n : Z) : Z := Z.land n (Z.lnot 1).

(** What the host answers while [run] prepares the command. *)
Record host := mkHost {
  screen       : QRect;            (* QDesktopWidget().screenGeometry() *)
  DISPLAY      : option string;    (* os.environ.get("DISPLAY") *)
  audio_probes : Audio.probes;     (* read by detect_audio_source() *)
  video0       : bool              (* os.path.exists("/dev/video0") *)
}.

(** The capture geometry [(x, y, w, h)] chosen at the top of [run]. *)
Definition geometry (a : option QRect) (scr : QRect) : Z * Z * Z * Z :=
  match a with
  | Some r =>
      if QRect_bool r && negb (isNull r)
      then (x r, y r, clear_bit0 (width r), clear_bit0 (height r))
      else (0, 0, clear_bit0 (width scr), clear_bit0 (height scr))
  | None => (0, 0, clear_bit0 (width scr), clear_bit0 (height scr))
  end.

(** [".mkv" if qi == 4 else ".mp4"] *)
Definition ext (qi : Z) : string := if qi =? 4 then ".mkv" else ".mp4".

Definition final_path (c : Cfg) : string :=
  fst (Py.splitext (get (output c) "/tmp/komocap_rec.mp4"))
  +++ ext (get (quality c) 2).

Definition sz_map (k : string) : option string :=
  if String.eqb k "small" then Some "240:180"
  else if String.eqb k "medium" then Some "320:240"
  else if String.eqb k "large" then Some "480:360"
  else None.

Definition pos_map (k : string) : option string :=
  if String.eqb k "bottom-right" then Some "W-w-12:H-h-12"
  else if String.eqb k "bottom-left" then Some "12:H-h-12"
  else if String.eqb k "top-right" then Some "W-w-12:12"
  else if String.eqb k "top-left" then Some "12:12"
  else None.

(** The size argument [f"{w}x{h}"]. *)
Definition resolution (w h : Z) : string := Py.str w +++ "x" +++ Py.str h.

(** The first block of the command: the screen grab input. *)
Definition grab_args (c : Cfg) (e : host) (gx gy w h : Z) : list string :=
  [ "ffmpeg"; "-y";
    "-f"; "x11grab";
    "-r"; Py.str (get (fps c) 30);
    "-s"; resolution w h;
    "-i"; get (DISPLAY e) ":0" +++ "+" +++ Py.str gx +++ "," +++ Py.str gy ].

Definition audio_idx (c : Cfg) : option Z :=
  if get (audio c) false then Some 1 else None.

Definition audio_args (c : Cfg) (e : host) : list string :=
  if get (audio c) false then
    let '(driver, src) := Audio.detect_audio_source (audio_probes e) in
    if String.eqb driver "pulse" then ["-f"; "pulse"; "-i"; src]
    else ["-f"; "alsa"; "-i"; src]
  else [].

Definition webcam_idx (c : Cfg) (e : host) : option Z :=
  if get (webcam c) false && video0 e then
    Some (match audio_idx c with Some i => i + 1 | None => 1 end)
  else None.

Definition webcam_args (c : Cfg) (e : host) : list string :=
  match webcam_idx c e with
  | Some _ => ["-f"; "v4l2"; "-i"; "/dev/video0"]
  | None => []
  end.

Definition filter_args (c : Cfg) (e : host) (w h : Z) : list string :=
  match webcam_idx c e with
  | Some wi =>
      let sz := get (sz_map (get (webcam_size c) "small")) "240:180" in
      let overlay :=
        get (pos_map (get (webcam_pos c) "bottom-right")) "W-w-12:H-h-12" in
      let fc := "[" +++ Py.str wi +++ ":v]scale=" +++ sz
                +++ ",format=yuv420p[cam];"
                +++ "[0:v][cam]overlay=" +++ overlay +++ "[out]" in
      ["-filter_complex"; fc; "-map"; "[out]"]
      ++ match audio_idx c with
         | Some ai => ["-map"; Py.str ai +++ ":a"]
         | None => []
         end
  | None => ["-vf"; "scale=" +++ Py.str w +++ ":" +++ Py.str h]
  end.

Definition codec_args (c : Cfg) : list string :=
  let '(crf, preset) := get (QUALITY (get (quality c) 2)) (18, "medium") in
  [ "-c:v"; "libx264";
    "-crf"; Py.str crf;
    "-preset"; preset;
    "-pix_fmt"; "yuv420p";
    "-movflags"; "+faststart" ]
  ++ match audio_idx c with
     | Some _ => ["-c:a"; "aac"; "-b:a"; "192k"; "-ac"; "2"; "-ar"; "44100"]
     | None => []
     end.

(** The argument vector [cmd] as it stands when [Popen] is called. *)
Definition command (c : Cfg) (e : host) : list string :=
  let '(gx, gy, w, h) := geometry (area c) (screen e) in
  grab_args c e gx gy w h
  ++ audio_args c e
  ++ webcam_args c e
  ++ filter_args c e w h
  ++ codec_args c
  ++ [final_path c].

(** [w < 2 or h < 2] *)
Definition too_small (c : Cfg) (e : host) : bool :=
  let '(_, _, w, h) := geometry (area c) (screen e) in
  (w <? 2) || (h <? 2).

(** ** The thread object and what it does to the outside *)

Inductive rec_signal :=
| sig_status (s : string)
| sig_done (path : string)
| sig_error (msg : string).

(** The effects of the thread, in the order they happen. *)
Inductive action :=
| Emit (s : rec_signal)
| DetectAudio                   (* detect_audio_source() runs its probes *)
| PopenCall (cmd : list string) (* subprocess.Popen(cmd, ...) is called *)
| StdinWrite (data : string)    (* _proc.stdin.write(data); flush() *)
| Terminate.                    (* _proc.terminate() *)

(** The child process object; [exit_status] is what [poll()] returns. *)
Record Popen := mkPopen {
  args        : list string;
  exit_status : option Z
}.

(** Where the worker running [run] stands. *)
Inductive position :=
| NotStarted
| Waiting (final : string)      (* blocked in self._proc.wait() *)
| Returned.

Record RecorderThread := mkThread {
  cfg   : Cfg;
  _proc : option Popen;
  _stop : bool;                 (* the threading.Event *)
  at_   : position;
  log   : list action
}.

(** [__init__] *)
Definition init (c : Cfg) : RecorderThread :=
  mkThread c None false NotStarted [].

(** The outcome of the [Popen] call. *)
Inductive popen_result :=
| Started
| FileNotFound                  (* FileNotFoundError *)
| OtherError (e : string).      (* any other exception, with str(e) *)

(** [run] from its first line to the point where it blocks in
    [self._proc.wait()], or returns. *)
Definition run_start (e : host) (sp : popen_result) (t : RecorderThread)
  : RecorderThread :=
  match at_ t with
  | NotStarted =>
      let c := cfg t in
      if too_small c e then
        mkThread c (_proc t) (_stop t) Returned
          (log t ++ [Emit (sig_error "Selected area is too small.")])
      else
        let cmd := command c e in
        let probe := if get (audio c) false then [DetectAudio] else [] in
        match sp with
        | Started =>
            mkThread c (Some (mkPopen cmd None)) (_stop t)
              (Waiting (final_path c))
              (log t ++ probe
                     ++ [PopenCall cmd; Emit (sig_status "RECORDING")])
        | FileNotFound =>
            mkThread c (_proc t) (_stop t) Returned
              (log t ++ probe
                 ++ [PopenCall cmd;
                     Emit (sig_error ("ffmpeg not found." +++ NL
                                      +++ "  sudo apt install ffmpeg"))])
        | OtherError msg =>
            mkThread c (_proc t) (_stop t) Returned
              (log t ++ probe
                 ++ [PopenCall cmd; Emit (sig_error ("Error: " +++ msg))])
        end
  | _ => t
  end.

(** The child process ends with return code [rc]. *)
Definition child_exit (rc : Z) (t : RecorderThread) : RecorderThread :=
  match _proc t with
  | Some p =>
      match exit_status p with
      | None =>
          mkThread (cfg t) (Some (mkPopen (args p) (Some rc))) (_stop t)
                   (at_ t) (log t)
      | Some _ => t
      end
  | None => t
  end.

(** What the worker observes once [wait()] has returned. *)
Record exit_obs := mkExitObs {
  stderr_pipe  : option string;  (* bytes in the pipe; None: read raised *)
  final_exists : bool            (* os.path.exists(final) *)
}.

(** What [stop] observes. *)
Record stop_obs := mkStopObs {
  write_ok       : bool;         (* the write and flush did not raise *)
  exited_in_time : option Z      (* wait(timeout=5): return code, or
                                    None for TimeoutExpired *)
}.

(** [stop] *)
Definition stop (o : stop_obs) (t : RecorderThread) : RecorderThread :=
  match _proc t with
  | Some p =>
      match exit_status p with
      | None =>
          let quit := if write_ok o then [StdinWrite ("q" +++ NL)] else [] in
          match exited_in_time o with
          | Some rc =>
              mkThread (cfg t) (Some (mkPopen (args p) (Some rc))) true
                       (at_ t) (log t ++ quit)
          | None =>
              mkThread (cfg t) (_proc t) true (at_ t)
                       (log t ++ quit ++ [Terminate])
          end
      | Some _ => mkThread (cfg t) (_proc t) true (at_ t) (log t)
      end
  | None => mkThread (cfg t) (_proc t) true (at_ t) (log t)
  end.

Section Decode.

(** [bytes.decode(errors="replace")] *)
Variable decode : string -> string.

(** [stderr_bytes.decode(errors="replace")[-600:]], where [stderr_bytes]
    is [self._proc.stderr.read(3000)], or empty when the read raised. *)
Definition stderr_tail (o : exit_obs) : string :=
  let stderr_bytes :=
    match stderr_pipe o with
    | Some b => String.substring 0 3000 b
    | None => EmptyString
    end in
  Py.last_chars 600 (decode stderr_bytes).

Definition failure_message (rc : Z) (o : exit_obs) : string :=
  "Recording failed (exit " +++ Py.str rc +++ ")." +++ NL +++ stderr_tail o.

(** The rest of [run], from the return of [self._proc.wait()]. *)
Definition run_finish (o : exit_obs) (t : RecorderThread) : RecorderThread :=
  match at_ t, _proc t with
  | Waiting final, Some p =>
      match exit_status p with
      | Some rc =>
          let s := if _stop t || final_exists o then sig_done final
                   else sig_error (failure_message rc o) in
          mkThread (cfg t) (_proc t) (_stop t) Returned (log t ++ [Emit s])
      | None => t
      end
  | _, _ => t
  end.

(** What can happen to a thread object: the worker advances, the child
    ends, the user interface calls [stop]. *)
Inductive event :=
| RunStart (e : host) (sp : popen_result)
| ChildExit (rc : Z)
| RunFinish (o : exit_obs)
| Stop (o : stop_obs).

Definition step (t : RecorderThread) (ev : event) : RecorderThread :=
  match ev with
  | RunStart e sp => run_start e sp t
  | ChildExit rc => child_exit rc t
  | RunFinish o => run_finish o t
  | Stop o => stop o t
  end.

Definition exec (evs : list event) (t : RecorderThread) : RecorderThread :=
  fold_left step evs t.

End Decode.

Definition is_terminal (a : action) : bool :=
  match a with
  | Emit (sig_done _) | Emit (sig_error _) => true
  | _ => false
  end.

Definition count (f : action -> bool) (l : list action) : nat :=
  List.length (filter f l).

(** The number of [sig_done] and [sig_error] emissions so far. *)
Definition terminal_count (t : RecorderThread) : nat :=
  count is_terminal (log t).

Definition is_terminate (a : action) : bool :=
  match a with Terminate => true | _ => false end.

(** The number of [terminate()] calls so far. *)
Definition terminate_count (t : RecorderThread) : nat :=
  count is_terminate (log t).

(** The worker has emitted its terminal signal exactly when it has
    returned. *)
Definition settled (t : RecorderThread) : Prop :=
  match at_ t with
  | Returned => terminal_count t = 1%nat
  | _ => terminal_count t = 0%nat
  end.

(** The child process exists and has not ended. *)
Definition child_running (t : RecorderThread) : Prop :=
  exists p, _proc t = Some p /\ exit_status p = None.

(** The codec block of the command for a given (crf, preset) pair. *)
Definition video_codec (crf : Z) (preset : string) : list string :=
  [ "-c:v"; "libx264"; "-crf"; Py.str crf; "-preset"; preset;
    "-pix_fmt"; "yuv420p"; "-movflags"; "+faststart" ].

Definition audio_codec : list string :=
  ["-c:a"; "aac"; "-b:a"; "192k"; "-ac"; "2"; "-ar"; "44100"].

(** ** Sample sessions *)

Definition full_hd : QRect := QRect_xywh 0 0 1920 1080.

Definition silent : Audio.probes := Audio.mkProbes None None None None None.

Definition plain_host : host := mkHost full_hd (Some ":0") silent false.

(** Full screen, 30 frames per second, quality 2, no audio, no webcam. *)
Definition plain_cfg : Cfg :=
  mkCfg None (Some 30) (Some 2) (Some false) (Some false)
        (Some "bottom-right") (Some "small")
        (Some "/home/kali/KomoCap/Recordings/recording.mp4").


(** A selected area of 801 x 601 pixels at (40, 60). *)
Definition region_cfg : Cfg :=
  mkCfg (Some (QRect_xywh 40 60 801 601)) (Some 30) (Some 2) (Some false)
        (Some false) (Some "bottom-right") (Some "small")
        (Some "/home/kali/KomoCap/Recordings/recording.mp4").

(** An area without width: [QRect(5, 5, 0, 10)], which is not null. *)
Definition flat_cfg : Cfg :=
  mkCfg (Some (QRect_xywh 5 5 0 10)) (Some 30) (Some 2) (Some false)
        (Some false) (Some "bottom-right") (Some "small")
        (Some "/home/kali/KomoCap/Recordings/recording.mp4").


(** A [stop] whose quit command is written and whose bounded wait
    expires. *)
Definition timed_out : stop_obs := mkStopObs true None.

(** The recording runs and [stop] has timed out once. *)
Definition stopping : RecorderThread :=
  stop timed_out (run_start plain_host Started (init plain_cfg)).

(** An event that ends the child: its own exit, or a [stop] whose bounded
    wait sees it exit. *)
Definition ends_child (ev : event) : bool :=
  match ev with
  | ChildExit _ => true
  | Stop o => match exited_in_time o with Some _ => true | None => false end
  | _ => false
  end.

End Recorder.

(* ================================================================== *)
(** * [_AreaOverlay.paintEvent]: where the decorations go *)
(* ================================================================== *)

Module Paint.

(** Rectangle accessors of Qt used by the painter. *)
Definition left (r : QRect) : Z := x1 r.
Definition top (r : QRect) : Z := y1 r.
Definition right (r : QRect) : Z := x2 r.
Definition bottom (r : QRect) : Z := y2 r.

(** [QRect::center()]: C++ integer division, which truncates. *)
Definition center (r : QRect) : QPoint :=
  mkPoint (Z.quot (x1 r + x2 r) 2) (Z.quot (y1 r + y2 r) 2).

(** A rectangle handed to the painter: [(x, y, width, height)]. *)
Definition box := (Z * Z * Z * Z)%type.

(** The selection is decorated only when this holds. *)
Definition decorated (sel : QRect) : bool :=
  negb (isNull sel) && (4 <? width sel) && (4 <? height sel).

(** The eight points that carry a handle. *)
Definition corners (sel : QRect) : list QPoint :=
  [ mkPoint (left sel) (top sel);     mkPoint (right sel) (top sel);
    mkPoint (left sel) (bottom sel);  mkPoint (right sel) (bottom sel);
    mkPoint (px (center sel)) (top sel);
    mkPoint (px (center sel)) (bottom sel);
    mkPoint (left sel) (py (center sel));
    mkPoint (right sel) (py (center sel)) ].

(** [hs = 8]; one [drawRect(pt.x() - hs//2, pt.y() - hs//2, hs, hs)] per
    point, inside the [if] that decorates the selection. *)
Definition handles (sel : QRect) : list box :=
  if decorated sel
  then map (fun pt => (px pt - 8 / 2, py pt - 8 / 2, 8, 8)) (corners sel)
  else [].

(** The y coordinate of the size badge, for a font of height [th]. *)
Definition badge_y (sel : QRect) (th : Z) : Z :=
  let by_ := y sel - th - 10 in
  if by_ <? 50 then y sel + height sel + 6 else by_.

(** The size badge: [drawRoundedRect(bx, by, tw + 6, th + 8, 4, 4)], for
    a text [tw] wide in a font of height [th]. *)
Definition badge (sel : QRect) (tw th : Z) : box :=
  (Z.max (x sel) 4, badge_y sel th, tw + 6, th + 8).

(** The instruction bar, painted last, covers the rows 0 to 43. *)
Definition bar_height : Z := 44.

End Paint.

(* ================================================================== *)
(** * [KomoCap._tick]: the recording timer *)
(* ================================================================== *)

Module Timer.

(** The format [{n:02d}]: at least two characters, padded with a zero. *)
Definition fmt_02d (n : Z) : string :=
  let s := Py.str n in
  if (String.length s <? 2)%nat then "0" +++ s else s.

(** The label [f"{m:02d}:{s:02d}"] for [rec_seconds]. *)
Definition label (rec_seconds : Z) : string :=
  fmt_02d (rec_seconds / 60) +++ ":" +++ fmt_02d (rec_seconds mod 60).

(** [_tick]: the new [rec_seconds] and the text of the timer label. *)
Definition _tick (rec_seconds : Z) : Z * string :=
  (rec_seconds + 1, label (rec_seconds + 1)).

End Timer.

(* ================================================================== *)
(** * [ScreenshotWorker] *)
(* ================================================================== *)

Module Screenshot.

Record Cfg := mkCfg {
  mode    : option string;
  area    : option QRect;
  format  : option string;
  quality : option Z;
  output  : option string
}.

Definition get {A} (o : option A) (default : A) : A :=
  match o with Some a => a | None => default end.

(** [ext_map] *)
Definition ext_map (fmt : string) : option string :=
  if String.eqb fmt "PNG" then Some ".png"
  else if String.eqb fmt "JPEG" then Some ".jpg"
  else if String.eqb fmt "WEBP" then Some ".webp"
  else if String.eqb fmt "BMP" then Some ".bmp"
  else if String.eqb fmt "TIFF" then Some ".tif"
  else None.

(** An image, by the way it was obtained. *)
Inductive image :=
| ScrotFull                     (* scrot --overwrite tmp *)
| ScrotArea (spec : string)     (* scrot --overwrite --area spec tmp *)
| PilFull                       (* ImageGrab.grab() *)
| PilBox (l t r b : Z)          (* ImageGrab.grab(bbox=(l, t, r, b)) *)
| Rgb (i : image).              (* img.convert("RGB") *)

(** One call of [scrot] and the reading of the file it wrote. *)
Record scrot_call := mkScrot {
  scrot_rc   : option Z;        (* return code; None: the call raised *)
  scrot_file : bool;            (* os.path.exists(tmp) *)
  scrot_read : bool             (* Image.open(tmp).copy() and os.unlink(tmp)
                                   went well, PIL being there *)
}.

(** What [ImageGrab.grab] does. *)
Inductive pil_result :=
| PilImage
| PilNone
| PilRaise (msg : string).

Record host := mkHost {
  scrot_installed : bool;               (* cmd_ok("scrot") *)
  scrot_full      : scrot_call;         (* the call of _grab_full *)
  scrot_area      : scrot_call;         (* the call of _grab_area *)
  PIL_OK          : bool;
  Image_bound     : bool;               (* the import bound the name Image *)
  pil_full        : pil_result;
  pil_box         : pil_result;
  xdotool_wid     : option string;      (* None: check_output raised *)
  xdotool_geo     : option string;      (* None: check_output raised *)
  convert_error   : option string;      (* img.convert raises str(e) *)
  save_error      : option string       (* img.save raises str(e) *)
}.

(** What a grab function does: it returns an image or [None], or
    raises. *)
Inductive grabbed :=
| Got (i : option image)
| Raised (msg : string).

(** The [try] block of a grab function returns the image.  Where the
    import of PIL did not bind the name [Image], [Image.open] raises
    [NameError], which the block swallows. *)
Definition scrot_succeeds (h : host) (c : scrot_call) : bool :=
  match scrot_rc c with
  | Some rc => (rc =? 0) && scrot_file c && Image_bound h && scrot_read c
  | None => false
  end.

Definition of_pil (r : pil_result) (i : image) : grabbed :=
  match r with
  | PilImage => Got (Some i)
  | PilNone => Got None
  | PilRaise msg => Raised msg
  end.

Definition _grab_full (h : host) : grabbed :=
  if scrot_installed h && scrot_succeeds h (scrot_full h) then Got (Some ScrotFull)
  else if PIL_OK h then of_pil (pil_full h) PilFull
  else Raised "No screenshot tool available. Install scrot: sudo apt install scrot".

(** [f"{x},{y},{w},{h}"], for [x, y, w, h = area.x(), area.y(),
    area.width(), area.height()]: the rectangle may come from numbers
    read in a text, so the accessors are the ones of C. *)
Definition area_spec (a : QRect) : string :=
  Py.str (x a) +++ "," +++ Py.str (y a) +++ ","
  +++ Py.str (width_int a) +++ "," +++ Py.str (height_int a).

Definition _grab_area (h : host) (a : QRect) : grabbed :=
  if scrot_installed h && scrot_succeeds h (scrot_area h)
  then Got (Some (ScrotArea (area_spec a)))
  else if PIL_OK h
  then of_pil (pil_box h)
              (PilBox (x a) (y a) (x a + width_int a) (y a + height_int a))
  else Raised "Area capture failed. Install scrot: sudo apt install scrot".

(** [line.partition("=")]: the text before and after the first "=". *)
Fixpoint partition_eq (s : string) : string * string :=
  match s with
  | EmptyString => (EmptyString, EmptyString)
  | String c s' =>
      if Ascii.eqb c "=" then (EmptyString, s')
      else let '(k, v) := partition_eq s' in (String c k, v)
  end.

(** The dictionary [info]: the latest entry of a key comes first. *)
Definition info_of (geo : string) : list (string * string) :=
  fold_left
    (fun d line =>
       let '(k, v) := partition_eq line in (Py.strip k, Py.strip v) :: d)
    (Py.splitlines (Py.strip geo)) [].

Fixpoint info_get (k : string) (d : list (string * string)) : option string :=
  match d with
  | [] => None
  | (k', v) :: d' => if String.eqb k k' then Some v else info_get k d'
  end.

(** [int(info.get(key, default))]; [None] stands for [ValueError]. *)
Definition info_int (k : string) (default : Z) (d : list (string * string))
  : option Z :=
  match info_get k d with
  | Some v => Py.int v
  | None => Some default
  end.

(** The rectangle read from the output of [xdotool getwindowgeometry];
    [None] stands for the [ValueError] of [int] and for the
    [OverflowError] of [QRect]. *)
Definition window_rect (geo : string) : option QRect :=
  let d := info_of geo in
  match info_int "X" 0 d, info_int "Y" 0 d,
        info_int "WIDTH" 1280 d, info_int "HEIGHT" 720 d with
  | Some gx, Some gy, Some w, Some h => QRect_ints gx gy w h
  | _, _, _, _ => None
  end.

Definition _grab_window (h : host) : grabbed :=
  match xdotool_wid h, xdotool_geo h with
  | Some _, Some geo =>
      match window_rect geo with
      | Some r =>
          match _grab_area h r with
          | Got i => Got i
          | Raised _ => _grab_full h
          end
      | None => _grab_full h
      end
  | _, _ => _grab_full h
  end.

(** Keyword arguments of [img.save]. *)
Inductive kwarg :=
| kw_quality (q : Z)
| kw_subsampling (n : Z)
| kw_optimize.

(** What the worker does to the outside. *)
Inductive action :=
| Save (path fmt : string) (kw : list kwarg) (i : image)
| Emit_done (path : string)
| Emit_error (msg : string).

(** The image chosen by the mode. *)
Definition grab (c : Cfg) (h : host) : grabbed :=
  let m := get (mode c) "full" in
  if String.eqb m "window" then _grab_window h
  else
    match area c with
    | Some a =>
        if String.eqb m "area" && QRect_bool a && negb (isNull a)
        then _grab_area h a else _grab_full h
    | None => _grab_full h
    end.

Definition save_path (c : Cfg) (out : string) : string :=
  fst (Py.splitext out) +++ get (ext_map (get (format c) "PNG")) ".png".

(** [run]; [None]: an exception leaves [run] (the "output" key is
    missing). *)
Definition run (c : Cfg) (h : host) : option (list action) :=
  match output c with
  | None => None
  | Some out =>
      let fmt := get (format c) "PNG" in
      let q := get (quality c) 95 in
      let path := save_path c out in
      Some
        match grab c h with
        | Raised msg => [Emit_error msg]
        | Got None =>
            [Emit_error "Screenshot capture returned no image. Check display."]
        | Got (Some img) =>
            let save kw i :=
              match save_error h with
              | Some msg => [Emit_error msg]
              | None => [Save path fmt kw i; Emit_done path]
              end in
            if String.eqb fmt "JPEG" then
              match convert_error h with
              | Some msg => [Emit_error msg]
              | None => save [kw_quality q; kw_subsampling 0] (Rgb img)
              end
            else if String.eqb fmt "WEBP" then save [kw_quality q] img
            else if String.eqb fmt "PNG" then save [kw_optimize] img
            else save [] img
        end
  end.

(** The geometry text of [xdotool getwindowgeometry --shell]. *)
Definition shell_geometry (wid : string) (gx gy w h : Z) (screen : Z)
  : string :=
  "WINDOW=" +++ wid +++ Recorder.NL
  +++ "X=" +++ Py.str gx +++ Recorder.NL
  +++ "Y=" +++ Py.str gy +++ Recorder.NL
  +++ "WIDTH=" +++ Py.str w +++ Recorder.NL
  +++ "HEIGHT=" +++ Py.str h +++ Recorder.NL
  +++ "SCREEN=" +++ Py.str screen +++ Recorder.NL.

Definition no_tool : string :=
  "No screenshot tool available. Install scrot: sudo apt install scrot".

Definition no_area_tool : string :=
  "Area capture failed. Install scrot: sudo apt install scrot".

(** A host where everything works, and the same host without Pillow. *)
Definition good_call : scrot_call := mkScrot (Some 0) true true.

Definition full_host (pil : bool) (geo : option string) : host :=
  mkHost true good_call good_call pil pil PilImage PilImage
         (Some "62914564") geo None None.

Definition png_cfg (m : string) (a : option QRect) : Cfg :=
  mkCfg (Some m) a (Some "PNG") None (Some "/home/u/Pictures/shot.png").

End Screenshot.

(* ================================================================== *)
(** * [KomoCap]: from the selection to the recorder *)
(* ================================================================== *)

Module Window.

Import Overlay.

(** The fields of the main window that the recording path reads and
    writes, and the state of the widgets it consults. *)
Record KomoCap := mkWindow {
  rec_area_rect  : option QRect;
  rec_mode_sel   : string;
  recorder       : option Recorder.RecorderThread;
  rec_dir        : string;
  rec_fps        : string;     (* rec_fps.currentText() *)
  rec_quality    : Z;          (* rec_quality.currentIndex() *)
  rec_audio      : bool;       (* rec_audio.isChecked() *)
  rec_webcam     : bool;       (* rec_webcam.isChecked() *)
  rec_wcam_pos   : string;     (* rec_wcam_pos.currentText() *)
  rec_wcam_size  : string      (* rec_wcam_size.currentText() *)
}.

Definition with_area (w : KomoCap) (a : option QRect) (m : string)
  : KomoCap :=
  mkWindow a m (recorder w) (rec_dir w) (rec_fps w) (rec_quality w)
           (rec_audio w) (rec_webcam w) (rec_wcam_pos w) (rec_wcam_size w).

Definition with_recorder (w : KomoCap) (t : option Recorder.RecorderThread)
  : KomoCap :=
  mkWindow (rec_area_rect w) (rec_mode_sel w) t (rec_dir w) (rec_fps w)
           (rec_quality w) (rec_audio w) (rec_webcam w) (rec_wcam_pos w)
           (rec_wcam_size w).

Definition _rec_set_mode (m : string) (w : KomoCap) : KomoCap :=
  if String.eqb m "full" then with_area w None m
  else with_area w (rec_area_rect w) m.

Definition _on_rec_area_done (rect : QRect) (w : KomoCap) : KomoCap :=
  with_area w (Some rect) "area".

(** [not self.rec_area_rect] *)
Definition no_area (w : KomoCap) : bool :=
  match rec_area_rect w with
  | Some r => negb (QRect_bool r)
  | None => true
  end.

Definition _on_rec_area_cancel (w : KomoCap) : KomoCap :=
  if no_area w then _rec_set_mode "full" w else w.

(** The slot that receives the signal of the area selector opened for a
    recording. *)
Definition on_selection (s : selection_signal) (w : KomoCap) : KomoCap :=
  match s with
  | area_selected rect => _on_rec_area_done rect w
  | cancelled => _on_rec_area_cancel w
  end.

(** [QThread.isRunning()]: from [start()] until [run] returns. *)
Definition isRunning (t : Recorder.RecorderThread) : bool :=
  match Recorder.at_ t with
  | Recorder.Returned => false
  | _ => true
  end.

(** [s.endswith(c)] for one character. *)
Fixpoint ends_with (c : ascii) (s : string) : bool :=
  match s with
  | EmptyString => false
  | String d EmptyString => Ascii.eqb d c
  | String _ s' => ends_with c s'
  end.

(** [self.recorder and self.recorder.isRunning()] *)
Definition busy (w : KomoCap) : bool :=
  match recorder w with
  | Some t => isRunning t
  | None => false
  end.

(** [os.path.join(a, b)] *)
Definition path_join (a b : string) : string :=
  if String.prefix "/" b then b
  else if Py.is_empty a || ends_with "/" a then a +++ b
  else a +++ "/" +++ b.

(** [s.split("(")[0]]: the text before the first "(". *)
Fixpoint before_paren (s : string) : string :=
  match s with
  | EmptyString => EmptyString
  | String c s' =>
      if Ascii.eqb c "(" then EmptyString else String c (before_paren s')
  end.

(** [int(text.split()[0])]; [None]: [IndexError] or [ValueError]. *)
Definition first_int (text : string) : option Z :=
  match Py.split text with
  | first :: _ => Py.int first
  | [] => None
  end.

(** The dictionary handed to [RecorderThread]. *)
Definition recording_cfg (w : KomoCap) (fps : Z) (now : string)
  : Recorder.Cfg :=
  Recorder.mkCfg
    (if String.eqb (rec_mode_sel w) "area" then rec_area_rect w else None)
    (Some fps)
    (Some (rec_quality w))
    (Some (rec_audio w))
    (Some (rec_webcam w))
    (Some (rec_wcam_pos w))
    (Some (Py.strip (before_paren (rec_wcam_size w))))
    (Some (path_join (rec_dir w) ("recording_" +++ now +++ ".mp4"))).

(** [start_recording], where [now] is what [ts()] returns and [dirs_ok]
    tells whether [ensure_dirs] went well; [None]: an exception leaves
    the slot. *)
Definition start_recording (dirs_ok : bool) (now : string) (w : KomoCap)
  : option KomoCap :=
  if busy w then Some w
  else if dirs_ok then
    match first_int (rec_fps w) with
    | Some fps =>
        Some (with_recorder w
                (Some (Recorder.init (recording_cfg w fps now))))
    | None => None
    end
  else None.

(** [stop_recording] *)
Definition stop_recording (o : Recorder.stop_obs) (w : KomoCap) : KomoCap :=
  match recorder w with
  | Some t => with_recorder w (Some (Recorder.stop o t))
  | None => w
  end.

(** The slots that change the recording area. *)
Inductive area_event :=
| ClickFull                              (* rec_btn_full clicked *)
| Selection (s : selection_signal).      (* the area selector answered *)

Definition area_step (w : KomoCap) (ev : area_event) : KomoCap :=
  match ev with
  | ClickFull => _rec_set_mode "full" w
  | Selection s => on_selection s w
  end.

(** The window as [__init__] leaves it, for given widget states. *)
Definition fresh (dir fps : string) (qi : Z) (au cam : bool)
    (pos size : string) : KomoCap :=
  mkWindow None "full" None dir fps qi au cam pos size.

(** Mode and stored rectangle agree. *)
Definition area_consistent (w : KomoCap) : Prop :=
  (rec_mode_sel w = "full" /\ rec_area_rect w = None)
  \/ (rec_mode_sel w = "area" /\ exists r, rec_area_rect w = Some r).

End Window.

(* ================================================================== *)
(** * Vocabulary for statements about recording sessions *)
(* ================================================================== *)

Module Session.

Import Recorder.

Definition is_write (a : action) : bool :=
  match a with StdinWrite _ => true | _ => false end.

(** The number of quit commands written to the child so far. *)
Definition write_count (t : RecorderThread) : nat :=
  count is_write (log t).

(** The configuration [c] with the webcam option switched off. *)
Definition without_webcam (c : Cfg) : Cfg :=
  mkCfg (area c) (fps c) (quality c) (audio c) (Some false)
        (webcam_pos c) (webcam_size c) (output c).

(** The encoder was spawned: [Popen] was called and the "RECORDING"
    status was emitted. *)
Definition spawned (t : RecorderThread) : Prop :=
  (exists cmd, In (PopenCall cmd) (log t))
  /\ In (Emit (sig_status "RECORDING")) (log t).

(** What holds of every state of a session started with [c]. *)
Definition sound (c : Cfg) (t : RecorderThread) : Prop :=
  cfg t = c
  /\ (forall f, at_ t = Waiting f -> f = final_path c /\ spawned t)
  /\ (forall path, In (Emit (sig_done path)) (log t) ->
        path = final_path c /\ spawned t).

(** Every [sig_error] emitted by [t'] was already emitted by [t]. *)
Definition no_new_error (t t' : RecorderThread) : Prop :=
  forall msg, In (Emit (sig_error msg)) (log t') ->
              In (Emit (sig_error msg)) (log t).

(** The [-i] argument of the screen grab. *)
Definition grab_input (e : host) (gx gy : Z) : string :=
  get (DISPLAY e) ":0" +++ "+" +++ Py.str gx +++ "," +++ Py.str gy.

(** The webcam input block. *)
Definition webcam_input : list string :=
  ["-f"; "v4l2"; "-i"; "/dev/video0"].

End Session.

(* ================================================================== *)
(** * Vocabulary for statements about text *)
(* ================================================================== *)

Module Text.

(** No character of [s] is white space. *)
Fixpoint no_space (s : string) : bool :=
  match s with
  | EmptyString => true
  | String c s' => negb (Py.isspace c) && no_space s'
  end.

(** A word: not empty, no white space. *)
Definition is_word (s : string) : bool :=
  negb (Py.is_empty s) && no_space s.

(** The number written by the digits [d], read after the number [acc]. *)
Fixpoint digits_value (d : Decimal.uint) (acc : Z) : Z :=
  match d with
  | Decimal.Nil => acc
  | Decimal.D0 d' => digits_value d' (10 * acc)
  | Decimal.D1 d' => digits_value d' (10 * acc + 1)
  | Decimal.D2 d' => digits_value d' (10 * acc + 2)
  | Decimal.D3 d' => digits_value d' (10 * acc + 3)
  | Decimal.D4 d' => digits_value d' (10 * acc + 4)
  | Decimal.D5 d' => digits_value d' (10 * acc + 5)
  | Decimal.D6 d' => digits_value d' (10 * acc + 6)
  | Decimal.D7 d' => digits_value d' (10 * acc + 7)
  | Decimal.D8 d' => digits_value d' (10 * acc + 8)
  | Decimal.D9 d' => digits_value d' (10 * acc + 9)
  end.

(** The character [c] does not occur in [s]. *)
Fixpoint lacks (c : ascii) (s : string) : bool :=
  match s with
  | EmptyString => true
  | String d s' => negb (Ascii.eqb c d) && lacks c s'
  end.

(** The lines [ls], one line feed between two of them. *)
Fixpoint join_lines (ls : list string) : string :=
  match ls with
  | [] => EmptyString
  | [l] => l
  | l :: rest => l +++ String (ascii_of_nat 10) (join_lines rest)
  end.


(** Every string of [ls] is a word. *)
Definition all_words (ls : list string) : bool := forallb is_word ls.

End Text.

(* ================================================================== *)
(** * Facts about rectangles *)
(* ================================================================== *)

Module QtFacts.

Lemma width_xywh (a b w h : Z) : width (QRect_xywh a b w h) = w.
Proof. unfold width, QRect_xywh; simpl; lia. Qed.

Lemma height_xywh (a b w h : Z) : height (QRect_xywh a b w h) = h.
Proof. unfold height, QRect_xywh; simpl; lia. Qed.

Lemma normalized_idempotent (r : QRect) :
  normalized (normalized r) = normalized r.
Proof.
  destruct r as [a1 b1 a2 b2]; unfold normalized; simpl.
  destruct (a2 <? a1 - 1) eqn:Ha; destruct (b2 <? b1 - 1) eqn:Hb; simpl;
    repeat match goal with
           | |- context [?u <? ?v] => destruct (Z.ltb_spec u v); try lia
           end; reflexivity.
Qed.

Lemma normalized_null : normalized QRect_null = QRect_null.
Proof. reflexivity. Qed.

(** A rectangle with positive extents is valid and not null. *)
Lemma positive_is_valid (r : QRect) :
  0 < width r -> 0 < height r -> QRect_bool r = true /\ isNull r = false.
Proof.
  unfold QRect_bool, isValid, isNull, width, height; intros Hw Hh; split.
  - apply andb_true_iff; split; apply Z.leb_le; lia.
  - apply andb_false_iff; left; apply Z.eqb_neq; lia.
Qed.

Lemma isNull_xywh (a b w h : Z) :
  isNull (QRect_xywh a b w h) = (w =? 0) && (h =? 0).
Proof.
  unfold isNull, QRect_xywh; simpl.
  f_equal; apply eq_true_iff_eq; rewrite !Z.eqb_eq; lia.
Qed.

Lemma is_int_bounds (n : Z) :
  is_int n = true <-> -2147483648 <= n <= 2147483647.
Proof.
  unfold is_int, INT_MIN, INT_MAX.
  rewrite andb_true_iff, !Z.leb_le. reflexivity.
Qed.

Lemma wrap_id (n : Z) : is_int n = true -> wrap n = n.
Proof.
  rewrite is_int_bounds. unfold wrap. intros H.
  Z.to_euclidean_division_equations. lia.
Qed.

(** Beyond the largest [int] by less than 2^32, the value comes back
    2^32 lower. *)
Lemma wrap_above (n : Z) :
  2147483647 < n -> n <= 6442450943 -> wrap n = n - 4294967296.
Proof.
  unfold wrap. intros H1 H2. Z.to_euclidean_division_equations. lia.
Qed.

Lemma wrap_wrap_add (a c : Z) : wrap (wrap a + c) = wrap (a + c).
Proof.
  unfold wrap. f_equal.
  replace ((a + 2147483648) mod 4294967296 - 2147483648 + c + 2147483648)
    with ((a + 2147483648) mod 4294967296 + c) by lia.
  rewrite Z.add_mod_idemp_l by lia. f_equal. lia.
Qed.

Lemma QRect_ints_some (a b w h : Z) (r : QRect) :
  QRect_ints a b w h = Some r ->
  (is_int a = true /\ is_int b = true /\ is_int w = true /\ is_int h = true)
  /\ r = mkRect a b (wrap (a + w - 1)) (wrap (b + h - 1)).
Proof.
  unfold QRect_ints.
  destruct (is_int a), (is_int b), (is_int w), (is_int h);
    try discriminate.
  intros H; injection H as <-. repeat split.
Qed.

Lemma QRect_ints_none (a b w h : Z) :
  is_int a && is_int b && is_int w && is_int h = false ->
  QRect_ints a b w h = None.
Proof. unfold QRect_ints. intros ->. reflexivity. Qed.

(** Integers in range whose far corner is in range as well: the
    rectangle is the one of unbounded arithmetic. *)
Lemma QRect_ints_fits (a b w h : Z) :
  is_int a = true -> is_int b = true -> is_int w = true -> is_int h = true ->
  is_int (a + w - 1) = true -> is_int (b + h - 1) = true ->
  QRect_ints a b w h = Some (QRect_xywh a b w h).
Proof.
  intros Ha Hb Hw Hh Hx Hy. unfold QRect_ints.
  rewrite Ha, Hb, Hw, Hh, (wrap_id _ Hx), (wrap_id _ Hy). reflexivity.
Qed.

(** With positive extents, a far corner beyond the largest [int] wraps
    to the other side of the near one: the rectangle is not valid. *)
Lemma QRect_ints_wrapped (a b w h : Z) (r : QRect) :
  QRect_ints a b w h = Some r -> 0 < w -> 0 < h ->
  INT_MAX < a + w - 1 \/ INT_MAX < b + h - 1 ->
  QRect_bool r = false.
Proof.
  intros Hr Hw Hh Hover.
  destruct (QRect_ints_some _ _ _ _ _ Hr) as [(Ha & Hb & Hw' & Hh') ->].
  apply is_int_bounds in Ha, Hb, Hw', Hh'. unfold INT_MAX in Hover.
  unfold QRect_bool, isValid; cbn [x1 x2 y1 y2].
  apply andb_false_iff.
  destruct Hover as [Ho|Ho]; [left|right]; apply Z.leb_gt;
    rewrite wrap_above by lia; lia.
Qed.

(** A valid rectangle built from positive extents did not wrap. *)
Lemma QRect_ints_valid (a b w h : Z) (r : QRect) :
  QRect_ints a b w h = Some r -> 0 < w -> 0 < h ->
  QRect_bool r = true ->
  r = QRect_xywh a b w h
  /\ a + w - 1 <= INT_MAX /\ b + h - 1 <= INT_MAX.
Proof.
  intros Hr Hw Hh Hv.
  destruct (Z.le_gt_cases (a + w - 1) INT_MAX) as [Hx|Hx];
    [destruct (Z.le_gt_cases (b + h - 1) INT_MAX) as [Hy|Hy]|].
  - split; [|split; assumption].
    destruct (QRect_ints_some _ _ _ _ _ Hr) as [(Ha & Hb & Hw' & Hh') ->].
    apply is_int_bounds in Ha, Hb, Hw', Hh'. unfold INT_MAX in *.
    unfold QRect_xywh. rewrite !wrap_id; [reflexivity| |];
      apply is_int_bounds; lia.
  - rewrite (QRect_ints_wrapped a b w h r Hr Hw Hh) in Hv
      by (right; lia). discriminate.
  - rewrite (QRect_ints_wrapped a b w h r Hr Hw Hh) in Hv
      by (left; lia). discriminate.
Qed.

(** Whatever wrapped, the accessors give back what the constructor was
    given. *)
Lemma QRect_ints_reads_back (a b w h : Z) (r : QRect) :
  QRect_ints a b w h = Some r ->
  x r = a /\ y r = b /\ width_int r = w /\ height_int r = h.
Proof.
  intros Hr.
  destruct (QRect_ints_some _ _ _ _ _ Hr) as [(Ha & Hb & Hw & Hh) ->].
  unfold x, y, width_int, height_int; cbn [x1 x2 y1 y2].
  split; [reflexivity|]. split; [reflexivity|].
  replace (wrap (a + w - 1) - a + 1) with (wrap (a + w - 1) + (1 - a)) by lia.
  replace (wrap (b + h - 1) - b + 1) with (wrap (b + h - 1) + (1 - b)) by lia.
  rewrite !wrap_wrap_add.
  replace (a + w - 1 + (1 - a)) with w by lia.
  replace (b + h - 1 + (1 - b)) with h by lia.
  split; apply wrap_id; assumption.
Qed.

End QtFacts.

(* ================================================================== *)
(** * The overlay: release threshold and Enter confirmation *)
(* ================================================================== *)

Module OverlayFacts.

Import Overlay QtFacts.

Lemma finish_state (ok : bool) (s : _AreaOverlay) :
  _sel (fst (_finish ok s)) = _sel s.
Proof. unfold _finish; destruct (_done s), ok; reflexivity. Qed.

Lemma handle_sel_normalized (e : event) (s : _AreaOverlay) :
  sel_normalized s -> sel_normalized (fst (handle e s)).
Proof.
  unfold sel_normalized; intros Hs; destruct e as [b pos|pos|b pos|k]; simpl.
  - unfold mousePressEvent; destruct (is_left b); simpl; auto.
  - unfold mouseMoveEvent; destruct (_drag s); simpl; auto.
    apply normalized_idempotent.
  - unfold mouseReleaseEvent; destruct (is_left b && _drag s); simpl; auto.
    match goal with
    | |- context [if ?c then _ else _] => destruct c
    end; rewrite finish_state; simpl; apply normalized_idempotent.
  - destruct k; simpl; auto; try (rewrite finish_state; exact Hs).
    all: destruct (negb (isNull (_sel s))); simpl; auto;
      rewrite finish_state; exact Hs.
Qed.

Lemma session_sel_normalized (es : list event) :
  forall s, sel_normalized s -> sel_normalized (fst (session es s)).
Proof.
  induction es as [|e es IH]; intros s Hs; simpl; auto.
  destruct (handle e s) as [s1 o1] eqn:He.
  specialize (IH s1).
  destruct (session es s1) as [s2 o2]; simpl in *.
  apply IH. replace s1 with (fst (handle e s)) by (rewrite He; reflexivity).
  apply handle_sel_normalized; exact Hs.
Qed.

Lemma session_app (es1 es2 : list event) (s : _AreaOverlay) :
  session (es1 ++ es2) s =
  let '(s1, o1) := session es1 s in
  let '(s2, o2) := session es2 s1 in (s2, o1 ++ o2).
Proof.
  revert s; induction es1 as [|e es1 IH]; intros s; simpl.
  - destruct (session es2 s); reflexivity.
  - destruct (handle e s) as [s1 o1]. rewrite IH.
    destruct (session es1 s1) as [s2 o2].
    destruct (session es2 s2) as [s3 o3]. rewrite app_assoc; reflexivity.
Qed.

(** Pointer moves during a drag emit nothing and keep the anchor. *)
Lemma moves_during_drag (via : list QPoint) :
  forall s, _drag s = true ->
    exists sel,
      session (map Move via) s =
      (mkOverlay (_origin s) sel true (_done s), []).
Proof.
  induction via as [|p via IH]; intros s Hd; simpl.
  - exists (_sel s). destruct s; simpl in *; subst; reflexivity.
  - unfold mouseMoveEvent; rewrite Hd.
    destruct (IH (mkOverlay (_origin s)
                    (normalized (QRect_pts (_origin s) p)) true (_done s))
                 eq_refl) as [sel Hsel].
    rewrite Hsel; simpl. exists sel; reflexivity.
Qed.

(** What a complete left-button drag emits, in terms of the rectangle
    between the press point and the release point. *)
Lemma drag_emits (s : _AreaOverlay) (from to : QPoint) (via : list QPoint) :
  _done s = false ->
  snd (session (drag from via to) s) =
  let sel := normalized (QRect_pts from to) in
  if (10 <? width sel) && (10 <? height sel)
  then [area_selected sel] else [cancelled].
Proof.
  intros Hdone. unfold drag.
  change (Press LeftButton from :: map Move via ++ [Release LeftButton to])
    with ([Press LeftButton from] ++ map Move via ++ [Release LeftButton to]).
  rewrite session_app; simpl.
  rewrite session_app.
  destruct (moves_during_drag via (mkOverlay from QRect_null true (_done s))
              eq_refl) as [sel Hsel].
  rewrite Hsel; simpl.
  unfold mouseReleaseEvent; simpl.
  destruct ((10 <? width (normalized (QRect_pts from to)))
            && (10 <? height (normalized (QRect_pts from to))));
    unfold _finish; simpl; rewrite Hdone; simpl;
    rewrite ?normalized_idempotent; reflexivity.
Qed.

(** C1, amended: in any session that is not finished yet, the drag from
    (100,100) to (105,103) is cancelled; the drag from (100,100) to
    (300,250) selects the rectangle x=100, y=100, width=201, height=151
    (both corner pixels belong to it); and every drag whose normalized
    rectangle is at most 10 pixels wide or high is cancelled, otherwise
    that rectangle is selected. *)
Theorem overlay_drag_release (s : _AreaOverlay) (via : list QPoint) :
  _done s = false ->
  snd (session (drag (mkPoint 100 100) via (mkPoint 105 103)) s)
    = [cancelled]
  /\ snd (session (drag (mkPoint 100 100) via (mkPoint 300 250)) s)
    = [area_selected (QRect_xywh 100 100 201 151)]
  /\ (forall from to,
        width (normalized (QRect_pts from to)) <= 10
        \/ height (normalized (QRect_pts from to)) <= 10 ->
        snd (session (drag from via to) s) = [cancelled])
  /\ (forall from to,
        10 < width (normalized (QRect_pts from to)) ->
        10 < height (normalized (QRect_pts from to)) ->
        snd (session (drag from via to) s)
          = [area_selected (normalized (QRect_pts from to))]).
Proof.
  intros Hdone; repeat split.
  - rewrite drag_emits by exact Hdone; reflexivity.
  - rewrite drag_emits by exact Hdone; reflexivity.
  - intros from to Hsmall. rewrite drag_emits by exact Hdone; simpl.
    destruct (Z.ltb_spec 10 (width (normalized (QRect_pts from to))));
      destruct (Z.ltb_spec 10 (height (normalized (QRect_pts from to))));
      simpl; try reflexivity; lia.
  - intros from to Hw Hh. rewrite drag_emits by exact Hdone; simpl.
    apply Z.ltb_lt in Hw, Hh. rewrite Hw, Hh; reflexivity.
Qed.

Lemma overlay_drag_release_witness :
  _done init = false
  /\ snd (session (drag (mkPoint 100 100) [] (mkPoint 300 250)) init)
     = [area_selected (QRect_xywh 100 100 201 151)]
  /\ snd (session (drag (mkPoint 0 0) [] (mkPoint 9 400)) init)
     = [cancelled].
Proof.
  split; [reflexivity|].
  destruct (overlay_drag_release init [] eq_refl) as (_ & H2 & H3 & _).
  split; [exact H2|].
  apply H3; left; vm_compute; discriminate.
Defined.

(** C1 as stated fails: the drag from (100,100) to (300,250) does not
    select a rectangle of width 200 and height 150. *)
Lemma overlay_drag_200x150_counterexample :
  snd (session (drag (mkPoint 100 100) [] (mkPoint 300 250)) init)
    <> [area_selected (QRect_xywh 100 100 200 150)].
Proof. vm_compute; discriminate. Qed.

(** C10: in a session of the overlay, pressing Return or Enter while the
    selection is not null and the session is not finished emits
    [area_selected] with that very rectangle, whatever its size; so a
    6 x 4 selection is confirmed by Enter although releasing the button
    at the same point cancels. *)
Theorem overlay_enter_confirms (es : list event) (s : _AreaOverlay) :
  fst (session es init) = s ->
  _done s = false ->
  isNull (_sel s) = false ->
  snd (keyPressEvent Key_Enter s) = [area_selected (_sel s)]
  /\ snd (keyPressEvent Key_Return s) = [area_selected (_sel s)]
  /\ snd (session [Press LeftButton (mkPoint 100 100);
                   Move (mkPoint 105 103); KeyPress Key_Enter] init)
     = [area_selected (QRect_xywh 100 100 6 4)]
  /\ snd (session [Press LeftButton (mkPoint 100 100);
                   Move (mkPoint 105 103);
                   Release LeftButton (mkPoint 105 103)] init)
     = [cancelled].
Proof.
  intros Hs Hdone Hnull.
  assert (Hn : sel_normalized s).
  { rewrite <- Hs. apply session_sel_normalized. reflexivity. }
  unfold keyPressEvent, _finish. rewrite Hnull, Hdone; simpl.
  rewrite Hn. repeat split; reflexivity.
Qed.

Lemma overlay_enter_confirms_witness :
  let s := fst (session [Press LeftButton (mkPoint 100 100);
                         Move (mkPoint 105 103)] init) in
  width (_sel s) <= 10
  /\ snd (keyPressEvent Key_Enter s) = [area_selected (_sel s)].
Proof.
  split; [vm_compute; discriminate|].
  apply (overlay_enter_confirms
           [Press LeftButton (mkPoint 100 100); Move (mkPoint 105 103)]);
    reflexivity.
Defined.

End OverlayFacts.

(* ================================================================== *)
(** * The audio probe prefers a source that is not a monitor *)
(* ================================================================== *)

Module AudioFacts.

Import Audio.

Lemma splitlines_nonempty (s : string) :
  s <> EmptyString -> Py.splitlines s <> [].
Proof.
  induction s as [|c s IH]; intros Hs; [congruence|]; simpl.
  destruct (Py.is_linebreak c).
  - destruct ((Py.code c =? 13)%N && Py.starts_with_lf s) eqn:Hcr.
    + apply IH. apply andb_true_iff in Hcr as [_ Hlf].
      destruct s; simpl in Hlf; congruence.
    + discriminate.
  - destruct (Py.splitlines s); discriminate.
Qed.

Lemma answered_lines (r : completed) :
  answered r = true -> Py.splitlines (Py.strip (stdout r)) <> [].
Proof.
  unfold answered; intros H. apply andb_true_iff in H as [_ H].
  apply splitlines_nonempty.
  destruct (Py.strip (stdout r)); simpl in H; congruence.
Qed.

Lemma first_non_monitor_found (pre : list string) (l : string)
    (post : list string) (name : string) :
  Forall (fun m => is_monitor m = true) pre ->
  is_monitor l = false ->
  second_field l = Some name ->
  first_non_monitor (pre ++ l :: post) = Some name.
Proof.
  intros Hpre Hl Hname.
  induction Hpre as [|m pre Hm _ IH]; simpl.
  - rewrite Hl, Hname; reflexivity.
  - rewrite Hm; simpl; exact IH.
Qed.

Lemma first_non_monitor_none (lines : list string) :
  Forall (fun m => is_monitor m = true) lines ->
  first_non_monitor lines = None.
Proof.
  induction 1 as [|m ms Hm _ IH]; simpl; [reflexivity|].
  rewrite Hm; simpl; exact IH.
Qed.

(** Both [pactl] branches agree on a listing that was answered. *)
Lemma detect_from_listing (e : probes) (r : completed) :
  answered r = true ->
  listing e r ->
  let lines := Py.splitlines (Py.strip (stdout r)) in
  detect_audio_source e =
  match first_non_monitor lines with
  | Some name => ("pulse", name)
  | None =>
      match lines with
      | l0 :: _ =>
          match second_field l0 with
          | Some name => ("pulse", name)
          | None => pulse_default
          end
      | [] => detect_audio_source e
      end
  end.
Proof.
  intros Hr Hl lines.
  pose proof (answered_lines r Hr) as Hne. fold lines in Hne.
  assert (Hpulse : pactl_pulse e = Some r ->
            try_pulseaudio e =
            match first_non_monitor lines with
            | Some name => Some ("pulse", name)
            | None =>
                match lines with
                | l0 :: _ =>
                    match second_field l0 with
                    | Some name => Some ("pulse", name)
                    | None => Some pulse_default
                    end
                | [] => None
                end
            end).
  { intros H; unfold try_pulseaudio; rewrite H, Hr; reflexivity. }
  unfold detect_audio_source.
  destruct Hl as [[Hup H1] | [Hdown H2]].
  - unfold pipewire_up in Hup. unfold try_pipewire.
    destruct (pw_cli e) as [p|]; [|discriminate].
    rewrite Hup, H1, Hr. fold lines.
    destruct (first_non_monitor lines); [reflexivity|].
    destruct lines as [|l0 rest]; [congruence|].
    destruct (second_field l0); reflexivity.
  - assert (Hnone : try_pipewire e = None).
    { unfold try_pipewire, pipewire_up in *.
      destruct (pw_cli e) as [p|]; [|reflexivity].
      destruct (answered p); [|reflexivity].
      destruct Hdown as [Hd|Hd]; [discriminate|rewrite Hd; reflexivity]. }
    rewrite Hnone, (Hpulse H2); simpl.
    destruct (first_non_monitor lines); [reflexivity|].
    destruct lines as [|l0 rest]; [congruence|].
    destruct (second_field l0); reflexivity.
Qed.

Lemma prefix_char (a b : ascii) (s1 s2 : string) :
  String.prefix (String a s1) (String b s2)
  = Ascii.eqb a b && String.prefix s1 s2.
Proof.
  simpl. destruct (ascii_dec a b) as [->|Hne].
  - rewrite Ascii.eqb_refl. reflexivity.
  - apply Ascii.eqb_neq in Hne. rewrite Hne. reflexivity.
Qed.

Lemma prefix_nil (s : string) : String.prefix EmptyString s = true.
Proof. destruct s; reflexivity. Qed.

Ltac every_character c :=
  destruct c as [[] [] [] [] [] [] [] []]; vm_compute; reflexivity.

(** A lower-case letter equals [c.lower()] exactly when [c] is that
    letter in one of its two cases. *)
Lemma lower_is_m c : Ascii.eqb "m" (Py.lower_char c) = either "m" "M" c.
Proof. every_character c. Qed.

Lemma lower_is_o c : Ascii.eqb "o" (Py.lower_char c) = either "o" "O" c.
Proof. every_character c. Qed.

Lemma lower_is_n c : Ascii.eqb "n" (Py.lower_char c) = either "n" "N" c.
Proof. every_character c. Qed.

Lemma lower_is_i c : Ascii.eqb "i" (Py.lower_char c) = either "i" "I" c.
Proof. every_character c. Qed.

Lemma lower_is_t c : Ascii.eqb "t" (Py.lower_char c) = either "t" "T" c.
Proof. every_character c. Qed.

Lemma lower_is_r c : Ascii.eqb "r" (Py.lower_char c) = either "r" "R" c.
Proof. every_character c. Qed.

Lemma monitor_prefix (s : string) :
  String.prefix "monitor" (Py.lower s) = monitor_here s.
Proof.
  destruct s as [|c1 [|c2 [|c3 [|c4 [|c5 [|c6 [|c7 s]]]]]]];
    cbn [Py.lower monitor_here];
    rewrite ?prefix_char; try rewrite prefix_nil;
    try (cbn [String.prefix]; rewrite ?andb_false_r; reflexivity).
  rewrite lower_is_m, !lower_is_o, lower_is_n, lower_is_i, lower_is_t,
    lower_is_r.
  rewrite andb_true_r, !andb_assoc. reflexivity.
Qed.

(** The code's test, [ "monitor" in line.lower() ], is the
    specification's. *)
Lemma is_monitor_spec (l : string) : is_monitor l = mentions_monitor l.
Proof.
  unfold is_monitor. induction l as [|c l IH].
  - reflexivity.
  - change (Py.contains "monitor" (Py.lower (String c l)))
      with (String.prefix "monitor" (Py.lower (String c l))
            || Py.contains "monitor" (Py.lower l)).
    rewrite monitor_prefix, IH. reflexivity.
Qed.

Lemma all_monitors (ls : list string) :
  Forall (fun m => mentions_monitor m = true) ls ->
  Forall (fun m => is_monitor m = true) ls.
Proof.
  apply Forall_impl. intros m Hm. rewrite is_monitor_spec. exact Hm.
Qed.

(** C8: when the [pactl] listing is not empty, [detect_audio_source]
    returns the pulse driver with the identifier (second field) of the
    first line that does not contain "monitor" in any letter case; when
    every line is a monitor it returns the identifier of the first line;
    for the listing "alsa_output.monitor", "alsa_input.usb" it returns
    ("pulse", "alsa_input.usb"), and so it does when the monitors before
    the input are spelled "MONITOR" and "Monitor". *)
Theorem detect_audio_source_prefers_input (e : probes) (r : completed) :
  answered r = true ->
  listing e r ->
  let lines := Py.splitlines (Py.strip (stdout r)) in
  (forall pre l post name,
      lines = pre ++ l :: post ->
      Forall (fun m => mentions_monitor m = true) pre ->
      mentions_monitor l = false ->
      second_field l = Some name ->
      detect_audio_source e = ("pulse", name))
  /\ (forall l0 rest name,
      lines = l0 :: rest ->
      Forall (fun m => mentions_monitor m = true) lines ->
      second_field l0 = Some name ->
      detect_audio_source e = ("pulse", name))
  /\ detect_audio_source usb_host = ("pulse", "alsa_input.usb")
  /\ detect_audio_source mixed_case_host = ("pulse", "alsa_input.usb").
Proof.
  intros Hr Hl lines.
  pose proof (detect_from_listing e r Hr Hl) as Hd; simpl in Hd.
  fold lines in Hd. repeat split.
  - intros pre l post name Hlines Hpre Hmon Hname.
    rewrite <- is_monitor_spec in Hmon. apply all_monitors in Hpre.
    rewrite Hd, Hlines.
    rewrite (first_non_monitor_found pre l post name Hpre Hmon Hname).
    reflexivity.
  - intros l0 rest name Hlines Hall Hname.
    apply all_monitors in Hall.
    rewrite Hd, (first_non_monitor_none lines Hall), Hlines, Hname.
    reflexivity.
Qed.

Lemma detect_audio_source_prefers_input_witness :
  answered mixed_case_listing = true
  /\ listing mixed_case_host mixed_case_listing
  /\ List.length (Py.splitlines (Py.strip (stdout mixed_case_listing)))
     = 3%nat
  /\ detect_audio_source mixed_case_host = ("pulse", "alsa_input.usb").
Proof.
  split; [reflexivity|].
  split; [right; split; [left|]; reflexivity|].
  split; [reflexivity|].
  refine (proj1 (detect_audio_source_prefers_input mixed_case_host
                   mixed_case_listing eq_refl
                   (or_intror (conj (or_introl eq_refl) eq_refl)))
            [_; _] _ [] "alsa_input.usb" eq_refl _ eq_refl eq_refl).
  repeat constructor.
Defined.

End AudioFacts.

(* ================================================================== *)
(** * The native selection tool *)
(* ================================================================== *)

Module NativeFacts.

Import Overlay Native QtFacts.

(** A rectangle that [slop] reported and [_select_area_native] accepted
    passes through the thread and [_on_native_done] unchanged. *)
Lemma accepted_rect_is_selected (a b w h : Z) :
  4 < w -> 4 < h ->
  _on_native_done
    (if QRect_bool (QRect_xywh a b w h) then QRect_xywh a b w h
     else QRect_null)
  = [area_selected (QRect_xywh a b w h)].
Proof.
  intros Hw Hh.
  destruct (positive_is_valid (QRect_xywh a b w h)) as [Hv Hn].
  { rewrite width_xywh; lia. }
  { rewrite height_xywh; lia. }
  rewrite Hv. unfold _on_native_done.
  rewrite Hn, width_xywh, height_xywh.
  destruct (Z.ltb_spec w 4); [lia|].
  destruct (Z.ltb_spec h 4); [lia|]. reflexivity.
Qed.

(** What the thread and [_on_native_done] make of the rectangle that
    [QRect(a, b, w, h)] builds from numbers of [slop] with w, h > 4. *)
Lemma ints_rect_outcome (a b w h : Z) (rect : QRect) :
  QRect_ints a b w h = Some rect -> 4 < w -> 4 < h ->
  (a + w - 1 <= INT_MAX -> b + h - 1 <= INT_MAX ->
   _on_native_done (if QRect_bool rect then rect else QRect_null)
   = [area_selected (QRect_xywh a b w h)])
  /\ (INT_MAX < a + w - 1 \/ INT_MAX < b + h - 1 ->
      _on_native_done (if QRect_bool rect then rect else QRect_null)
      = [cancelled]).
Proof.
  intros Hr Hw Hh. split.
  - intros Hx Hy.
    destruct (QRect_ints_some _ _ _ _ _ Hr) as [(Ha & Hb & Hw' & Hh') _].
    apply is_int_bounds in Ha, Hb, Hw', Hh'. unfold INT_MAX in *.
    rewrite QRect_ints_fits in Hr; try (apply is_int_bounds; lia).
    injection Hr as <-. apply accepted_rect_is_selected; assumption.
  - intros Hover.
    rewrite (QRect_ints_wrapped a b w h rect Hr) by (assumption || lia).
    reflexivity.
Qed.

(** C9, amended: when [slop] is installed and was run, a return code
    other than 0 ends the selection with [cancelled] (no rectangle is
    reported).  A return code 0 with an output of exactly four integers
    x, y, w, h such that w > 4 and h > 4 ends it with [area_selected] of
    the rectangle (x, y, w, h) when the four numbers and the far edges
    x + w - 1 and y + h - 1 fit a C [int]; with [cancelled] when the
    numbers fit but a far edge does not; and when one of the numbers does
    not fit, [slop]'s answer is dropped and the outcome is that of the
    same host without [slop]. *)
Theorem native_slop_outcome (e : host) (r : completed) :
  slop_installed e = true ->
  slop_run e = Some r ->
  (returncode r <> 0 -> start e = inl [cancelled])
  /\ (forall a b c d x0 y0 w h,
        returncode r = 0 ->
        Py.split (Py.strip (stdout r)) = [a; b; c; d] ->
        Py.int a = Some x0 -> Py.int b = Some y0 ->
        Py.int c = Some w -> Py.int d = Some h ->
        4 < w -> 4 < h ->
        (is_int x0 && is_int y0 && is_int w && is_int h = true ->
         (x0 + w - 1 <= INT_MAX -> y0 + h - 1 <= INT_MAX ->
          start e = inl [area_selected (QRect_xywh x0 y0 w h)])
         /\ (INT_MAX < x0 + w - 1 \/ INT_MAX < y0 + h - 1 ->
             start e = inl [cancelled]))
        /\ (is_int x0 && is_int y0 && is_int w && is_int h = false ->
            start e
            = inl (_run_native
                     (mkHost false (slop_run e) (scrot_installed e)
                             (scrot_run e) (tmp_exists e) (image_size e))))).
Proof.
  intros Hslop Hrun.
  unfold start, _run_native, _SlopThread_run, _select_area_native.
  rewrite Hslop, Hrun; simpl. split.
  - intros Hrc. apply Z.eqb_neq in Hrc. rewrite Hrc. reflexivity.
  - intros a b c d x0 y0 w h Hrc Hparts Ha Hb Hc Hd Hw Hh.
    rewrite Hrc, Hparts, Ha, Hb, Hc, Hd; simpl.
    destruct (Z.ltb_spec 4 w); [|lia].
    destruct (Z.ltb_spec 4 h); [|lia]. simpl.
    split.
    + intros Hfit.
      destruct (QRect_ints x0 y0 w h) as [rect|] eqn:Hr;
        [|unfold QRect_ints in Hr; rewrite Hfit in Hr; discriminate].
      destruct (ints_rect_outcome x0 y0 w h rect Hr Hw Hh) as [Hok Hbad].
      split.
      * intros Hx Hy. rewrite (Hok Hx Hy). reflexivity.
      * intros Hover. rewrite (Hbad Hover). reflexivity.
    + intros Hout. rewrite (QRect_ints_none _ _ _ _ Hout). reflexivity.
Qed.

Lemma native_slop_outcome_witness :
  start (mkHost true (Some (mkCompleted 1 EmptyString))
                false None false None)
    = inl [cancelled]
  /\ start (mkHost true (Some (mkCompleted 0 "100 100 200 150"))
                   false None false None)
    = inl [area_selected (QRect_xywh 100 100 200 150)].
Proof.
  split.
  - apply (proj1 (native_slop_outcome
                    (mkHost true (Some (mkCompleted 1 EmptyString))
                            false None false None)
                    (mkCompleted 1 EmptyString) eq_refl eq_refl)).
    discriminate.
  - apply (proj1 (proj1 (proj2 (native_slop_outcome
                    (mkHost true (Some (mkCompleted 0 "100 100 200 150"))
                            false None false None)
                    (mkCompleted 0 "100 100 200 150") eq_refl eq_refl)
             "100" "100" "200" "150" 100 100 200 150
             eq_refl eq_refl eq_refl eq_refl eq_refl eq_refl
             eq_refl eq_refl) eq_refl));
      unfold INT_MAX; lia.
Defined.

(** C9 as stated fails: [slop] ends with return code 0 and prints four
    integers with width and height above 4, and yet the selection is
    cancelled: the right edge 2147483647 + 10 - 1 does not fit a C [int]
    in the first case, and in the second the width 4294967296 makes
    [QRect] raise, with no [scrot] to fall back on. *)
Lemma native_slop_overflow_counterexample :
  (Py.split (Py.strip "2147483647 0 10 10") = ["2147483647"; "0"; "10"; "10"]
   /\ Py.int "2147483647" = Some 2147483647 /\ Py.int "0" = Some 0
   /\ Py.int "10" = Some 10
   /\ start (mkHost true (Some (mkCompleted 0 "2147483647 0 10 10"))
                    false None false None)
      = inl [cancelled])
  /\ (Py.split (Py.strip "0 0 4294967296 10") = ["0"; "0"; "4294967296"; "10"]
      /\ Py.int "4294967296" = Some 4294967296
      /\ start (mkHost true (Some (mkCompleted 0 "0 0 4294967296 10"))
                       false None false None)
         = inl [cancelled]).
Proof. vm_compute. repeat split. Qed.

End NativeFacts.

(* ================================================================== *)
(** * The recorder: command line *)
(* ================================================================== *)

Module CommandFacts.

Import Recorder QtFacts.

Lemma clear_bit0_even_floor (n : Z) : clear_bit0 n = 2 * (n / 2).
Proof.
  unfold clear_bit0. rewrite <- Z.ldiff_land.
  change 1 with (Z.ones 1) at 1.
  rewrite Z.ldiff_ones_r by lia.
  rewrite Z.shiftr_div_pow2, Z.shiftl_mul_pow2 by lia.
  change (2 ^ 1) with 2. lia.
Qed.

Lemma clear_bit0_even (n : Z) : Z.even (clear_bit0 n) = true.
Proof. rewrite clear_bit0_even_floor, Z.even_mul; reflexivity. Qed.

(** The geometry is the area's when the area is a valid rectangle, the
    screen's otherwise. *)
Lemma geometry_cases (a : option QRect) (scr : QRect) :
  (exists r, a = Some r /\ QRect_bool r && negb (isNull r) = true
     /\ geometry a scr =
        (x r, y r, clear_bit0 (width r), clear_bit0 (height r)))
  \/ ((a = None \/ exists r, a = Some r
                     /\ QRect_bool r && negb (isNull r) = false)
      /\ geometry a scr =
         (0, 0, clear_bit0 (width scr), clear_bit0 (height scr))).
Proof.
  unfold geometry. destruct a as [r|].
  - destruct (QRect_bool r && negb (isNull r)) eqn:H.
    + left; exists r; auto.
    + right; split; [right; exists r; auto|reflexivity].
  - right; split; [left|]; reflexivity.
Qed.

Lemma command_shape (c : Cfg) (e : host) (gx gy w h : Z) :
  geometry (area c) (screen e) = (gx, gy, w, h) ->
  command c e =
  grab_args c e gx gy w h
  ++ (audio_args c e ++ webcam_args c e ++ filter_args c e w h)
  ++ video_codec (fst (get (QUALITY (get (quality c) 2)) (18, "medium")))
                 (snd (get (QUALITY (get (quality c) 2)) (18, "medium")))
  ++ (match audio_idx c with Some _ => audio_codec | None => [] end)
  ++ [final_path c].
Proof.
  intros Hg. unfold command. rewrite Hg.
  unfold codec_args.
  destruct (get (QUALITY (get (quality c) 2)) (18, "medium")) as [crf preset].
  unfold video_codec, audio_codec; simpl fst; simpl snd.
  rewrite <- !app_assoc. reflexivity.
Qed.

(** [run] hands [Popen] the command exactly when the geometry passes the
    size check. *)
Lemma popen_call_command (c : Cfg) (e : host) (sp : popen_result)
    (cmd : list string) :
  In (PopenCall cmd) (log (run_start e sp (init c))) ->
  too_small c e = false /\ cmd = command c e.
Proof.
  unfold run_start; simpl.
  destruct (too_small c e).
  - simpl; intros [H|[]]; discriminate.
  - intros H; split; [reflexivity|].
    destruct sp; simpl in H;
      destruct (get (audio c) false); simpl in H;
      repeat match type of H with
             | _ \/ _ => destruct H as [H|H]
             | False => contradiction
             | PopenCall _ = PopenCall _ => injection H as <-; reflexivity
             | _ = _ => discriminate
             end.
Qed.

Lemma run_start_calls_popen (c : Cfg) (e : host) (sp : popen_result) :
  too_small c e = false ->
  In (PopenCall (command c e)) (log (run_start e sp (init c))).
Proof.
  intros H. unfold run_start; simpl. rewrite H.
  destruct sp; simpl; destruct (get (audio c) false); simpl; auto.
Qed.



(** C6, amended: the command handed to [Popen] carries "-s" followed by
    the decimal numerals of [w] and [h] joined by "x", where [w] and [h]
    are even; they are the area's width and height rounded down to even
    when an area of positive width and height is configured, and the
    screen's rounded down to even when the area is absent or has a width
    or a height below 1 (the null rectangle, but also a rectangle that is
    not null); a 1920 x 1080 screen without area gives "1920x1080", an
    area of 801 x 601 gives "800x600". *)
Theorem capture_resolution_even (c : Cfg) (e : host) (sp : popen_result)
    (cmd : list string) :
  In (PopenCall cmd) (log (run_start e sp (init c))) ->
  exists w h,
    nth_error cmd 6 = Some "-s"
    /\ nth_error cmd 7 = Some (Py.str w +++ "x" +++ Py.str h)
    /\ Z.even w = true /\ Z.even h = true
    /\ (forall r, area c = Some r -> 0 < width r -> 0 < height r ->
          w = 2 * (width r / 2) /\ h = 2 * (height r / 2))
    /\ (area c = None
        \/ (exists r, area c = Some r /\ (width r <= 0 \/ height r <= 0)) ->
          w = 2 * (width (screen e) / 2)
          /\ h = 2 * (height (screen e) / 2))
    /\ (area c = None ->
        width (screen e) = 1920 -> height (screen e) = 1080 ->
        nth_error cmd 7 = Some "1920x1080")
    /\ (forall r, area c = Some r -> width r = 801 -> height r = 601 ->
        nth_error cmd 7 = Some "800x600").
Proof.
  intros Hin. apply popen_call_command in Hin as [_ ->].
  destruct (geometry (area c) (screen e)) as [[[gx gy] w] h] eqn:Hg.
  exists w, h.
  rewrite (command_shape c e gx gy w h Hg).
  split; [reflexivity|]. split; [reflexivity|].
  destruct (geometry_cases (area c) (screen e))
    as [(r & Ha & Hok & Hgeo) | [Hno Hgeo]];
    rewrite Hg in Hgeo; injection Hgeo as -> -> -> ->.
  - rewrite !clear_bit0_even. split; [reflexivity|]. split; [reflexivity|].
    apply andb_true_iff in Hok as [Hv _].
    unfold QRect_bool, isValid in Hv. apply andb_true_iff in Hv as [Hx Hy].
    apply Z.leb_le in Hx, Hy.
    split; [|split; [|split]].
    + intros r' Hr' _ _. rewrite Ha in Hr'; injection Hr' as <-.
      rewrite !clear_bit0_even_floor; split; reflexivity.
    + intros [Hnone | (r' & Hr' & Hflat)]; [congruence|].
      rewrite Ha in Hr'; injection Hr' as <-.
      unfold width, height in Hflat. lia.
    + congruence.
    + intros r' Hr' Hw Hh. rewrite Ha in Hr'; injection Hr' as <-.
      cbn [grab_args nth_error]. rewrite Hw, Hh. reflexivity.
  - rewrite !clear_bit0_even. split; [reflexivity|]. split; [reflexivity|].
    split; [|split; [|split]].
    + intros r' Hr' Hw Hh.
      destruct Hno as [Hnone | (r & Hr & Hbad)]; [congruence|].
      rewrite Hr in Hr'; injection Hr' as <-.
      destruct (positive_is_valid r Hw Hh) as [Hv Hn].
      rewrite Hv, Hn in Hbad; discriminate.
    + intros _. rewrite !clear_bit0_even_floor; split; reflexivity.
    + intros _ Hw Hh. simpl. rewrite Hw, Hh. reflexivity.
    + intros r' Hr' Hw Hh.
      destruct Hno as [Hnone | (r & Hr & Hbad)]; [congruence|].
      rewrite Hr in Hr'; injection Hr' as <-.
      destruct (positive_is_valid r ltac:(lia) ltac:(lia)) as [Hv Hn].
      rewrite Hv, Hn in Hbad; discriminate.
Qed.

Lemma capture_resolution_even_witness :
  (In (PopenCall (command plain_cfg plain_host))
      (log (run_start plain_host Started (init plain_cfg)))
   /\ nth_error (command plain_cfg plain_host) 7 = Some "1920x1080")
  /\ (In (PopenCall (command region_cfg plain_host))
         (log (run_start plain_host Started (init region_cfg)))
      /\ nth_error (command region_cfg plain_host) 7 = Some "800x600").
Proof.
  assert (H : In (PopenCall (command plain_cfg plain_host))
                 (log (run_start plain_host Started (init plain_cfg)))).
  { left; reflexivity. }
  assert (H' : In (PopenCall (command region_cfg plain_host))
                  (log (run_start plain_host Started (init region_cfg)))).
  { left; reflexivity. }
  split; (split; [assumption|]).
  - destruct (capture_resolution_even plain_cfg plain_host Started _ H)
      as (w & h & _ & _ & _ & _ & _ & _ & Hex & _).
    apply Hex; reflexivity.
  - destruct (capture_resolution_even region_cfg plain_host Started _ H')
      as (w & h & _ & _ & _ & _ & _ & _ & _ & Hex).
    apply (Hex (QRect_xywh 40 60 801 601)); reflexivity.
Defined.

(** C6 as stated fails: the area [QRect(5, 5, 0, 10)] is not the null
    rectangle, and yet the command does not carry its size rounded down
    to even (which would be "0x10", and too small to record): it carries
    the size of the 1920 x 1080 screen and records all of it. *)
Lemma capture_resolution_flat_area_counterexample :
  area flat_cfg = Some (QRect_xywh 5 5 0 10)
  /\ isNull (QRect_xywh 5 5 0 10) = false
  /\ In (PopenCall (command flat_cfg plain_host))
        (log (run_start plain_host Started (init flat_cfg)))
  /\ nth_error (command flat_cfg plain_host) 7 = Some "1920x1080"
  /\ nth_error (command flat_cfg plain_host) 9 = Some ":0+0,0".
Proof.
  split; [reflexivity|]. split; [reflexivity|].
  split; [left; reflexivity|]. split; reflexivity.
Qed.



End CommandFacts.

(* ================================================================== *)
(** * Facts about strings *)
(* ================================================================== *)

Module StringFacts.

Lemma length_append (s1 s2 : string) :
  String.length (s1 +++ s2) = (String.length s1 + String.length s2)%nat.
Proof. induction s1 as [|c s1 IH]; simpl; [reflexivity|]. rewrite IH; auto. Qed.

Lemma length_substring (n m : nat) (s : string) :
  (String.length (String.substring n m s) <= m)%nat.
Proof.
  revert n m. induction s as [|c s IH]; intros n m.
  - destruct n, m; simpl; lia.
  - destruct n; simpl.
    + destruct m; simpl; [lia|]. specialize (IH 0%nat m). lia.
    + apply IH.
Qed.

Lemma substring_prefix (s1 s2 : string) :
  String.substring 0 (String.length s1) (s1 +++ s2) = s1.
Proof.
  induction s1 as [|c s1 IH]; simpl.
  - destruct s2; reflexivity.
  - rewrite IH. reflexivity.
Qed.

Lemma substring_whole (s : string) (m : nat) :
  (String.length s <= m)%nat -> String.substring 0 m s = s.
Proof.
  revert m. induction s as [|c s IH]; intros m H.
  - destruct m; reflexivity.
  - destruct m; simpl in *; [lia|]. rewrite IH by lia. reflexivity.
Qed.

Lemma substring_suffix (s1 s2 : string) (m : nat) :
  (String.length s2 <= m)%nat ->
  String.substring (String.length s1) m (s1 +++ s2) = s2.
Proof.
  intros H. induction s1 as [|c s1 IH]; simpl.
  - apply substring_whole; exact H.
  - exact IH.
Qed.

Lemma append_assoc (s1 s2 s3 : string) :
  (s1 +++ s2) +++ s3 = s1 +++ (s2 +++ s3).
Proof. induction s1 as [|c s1 IH]; simpl; [reflexivity|]. rewrite IH; auto. Qed.




End StringFacts.

(* ================================================================== *)
(** * The recorder: process life cycle *)
(* ================================================================== *)

Module ProcessFacts.

Import Recorder StringFacts.

Lemma count_app (f : action -> bool) (l l' : list action) :
  count f (l ++ l') = (count f l + count f l')%nat.
Proof. unfold count. rewrite filter_app, length_app. reflexivity. Qed.

Lemma exec_app (decode : string -> string) (evs evs' : list event)
    (t : RecorderThread) :
  exec decode (evs ++ evs') t = exec decode evs' (exec decode evs t).
Proof. unfold exec. apply fold_left_app. Qed.

(** ** [stop] emits nothing *)

Lemma stop_log (o : stop_obs) (t : RecorderThread) :
  exists l, log (stop o t) = log t ++ l
            /\ forall a, In a l -> a = StdinWrite ("q" +++ NL) \/ a = Terminate.
Proof.
  unfold stop. destruct (_proc t) as [p|].
  - destruct (exit_status p).
    + exists []; simpl; rewrite app_nil_r; split; [reflexivity|].
      intros a [].
    + destruct (exited_in_time o); simpl; eexists; (split; [reflexivity|]);
        destruct (write_ok o); simpl; intuition.
  - exists []; simpl; rewrite app_nil_r; split; [reflexivity|]. intros a [].
Qed.

Lemma count_terminal_quiet (l : list action) :
  (forall a, In a l -> a = StdinWrite ("q" +++ NL) \/ a = Terminate) ->
  count is_terminal l = 0%nat.
Proof.
  induction l as [|a l IH]; intros H; [reflexivity|].
  unfold count in *; simpl.
  destruct (H a (or_introl eq_refl)) as [-> | ->]; simpl;
    apply IH; intros b Hb; apply H; right; exact Hb.
Qed.

Lemma stop_terminal_count (o : stop_obs) (t : RecorderThread) :
  terminal_count (stop o t) = terminal_count t.
Proof.
  destruct (stop_log o t) as (l & Hl & Hq).
  unfold terminal_count. rewrite Hl, count_app, (count_terminal_quiet l Hq).
  lia.
Qed.

Lemma stop_position (o : stop_obs) (t : RecorderThread) :
  at_ (stop o t) = at_ t.
Proof.
  unfold stop. destruct (_proc t) as [p|]; [|reflexivity].
  destruct (exit_status p); [reflexivity|].
  destruct (exited_in_time o); reflexivity.
Qed.

(** ** One terminal signal per session *)

Lemma step_settled (decode : string -> string) (t : RecorderThread)
    (ev : event) :
  settled t -> settled (step decode t ev).
Proof.
  unfold settled; intros H. destruct ev as [e sp|rc|o|o]; simpl.
  - unfold run_start. destruct (at_ t) eqn:Hat; try (rewrite Hat; exact H).
    destruct (too_small (cfg t) e).
    + unfold terminal_count in *; simpl. rewrite count_app, H. reflexivity.
    + destruct sp; unfold terminal_count in *; simpl;
        rewrite !count_app, H;
        destruct (get (audio (cfg t)) false); reflexivity.
  - unfold child_exit. destruct (_proc t) as [p|]; [|exact H].
    destruct (exit_status p); exact H.
  - unfold run_finish. destruct (at_ t) eqn:Hat; try (rewrite Hat; exact H).
    destruct (_proc t) as [p|]; [|rewrite Hat; exact H].
    destruct (exit_status p); [|rewrite Hat; exact H].
    unfold terminal_count in *; simpl. rewrite count_app, H.
    destruct (_stop t || final_exists o); reflexivity.
  - rewrite stop_position, stop_terminal_count. exact H.
Qed.

Lemma exec_settled (decode : string -> string) (evs : list event) :
  forall t, settled t -> settled (exec decode evs t).
Proof.
  induction evs as [|ev evs IH]; intros t H; [exact H|].
  apply IH, step_settled, H.
Qed.

(** ** While the child runs, the worker stays blocked *)

Lemma step_while_child_runs (decode : string -> string) (t : RecorderThread)
    (final : string) (ev : event) :
  at_ t = Waiting final -> child_running t -> ends_child ev = false ->
  at_ (step decode t ev) = Waiting final
  /\ child_running (step decode t ev)
  /\ terminal_count (step decode t ev) = terminal_count t.
Proof.
  intros Hat (p & Hp & Hrun) Hev. destruct ev as [e sp|rc|o|o]; simpl.
  - unfold run_start. rewrite Hat. repeat split; auto. exists p; auto.
  - discriminate.
  - unfold run_finish. rewrite Hat, Hp, Hrun.
    repeat split; auto. exists p; auto.
  - rewrite stop_position, stop_terminal_count. repeat split; auto.
    simpl in Hev. unfold stop. rewrite Hp, Hrun.
    destruct (exited_in_time o); [discriminate|]. exists p; auto.
Qed.

Lemma exec_while_child_runs (decode : string -> string) (evs : list event) :
  forall (t : RecorderThread) (final : string),
    at_ t = Waiting final -> child_running t ->
    forallb (fun ev => negb (ends_child ev)) evs = true ->
    at_ (exec decode evs t) = Waiting final
    /\ child_running (exec decode evs t)
    /\ terminal_count (exec decode evs t) = terminal_count t.
Proof.
  induction evs as [|ev evs IH]; intros t final Hat Hrun Hevs; simpl.
  - auto.
  - simpl in Hevs. apply andb_true_iff in Hevs as [Hev Hevs].
    apply negb_true_iff in Hev.
    destruct (step_while_child_runs decode t final ev Hat Hrun Hev)
      as (Hat' & Hrun' & Hcount).
    destruct (IH (step decode t ev) final Hat' Hrun' Hevs)
      as (Hat2 & Hrun2 & Hcount2).
    unfold exec in *; simpl. rewrite Hcount2, Hcount. auto.
Qed.

(** A [stop] whose wait expires while the child runs calls [terminate]
    once and leaves the child running. *)
Lemma stop_timeout_effect (o : stop_obs) (t : RecorderThread) :
  child_running t -> exited_in_time o = None ->
  child_running (stop o t)
  /\ _stop (stop o t) = true
  /\ log (stop o t)
     = log t ++ (if write_ok o then [StdinWrite ("q" +++ NL)] else [])
             ++ [Terminate].
Proof.
  intros (p & Hp & Hrun) Ho. unfold stop. rewrite Hp, Hrun, Ho; simpl.
  repeat split. exists p; auto.
Qed.

(** A [stop] that follows a [stop] after which the child does not run
    changes nothing. *)
Lemma stop_after_stop (o1 o2 : stop_obs) (t : RecorderThread) :
  ~ child_running t \/ exited_in_time o1 <> None ->
  stop o2 (stop o1 t) = stop o1 t.
Proof.
  intros H. unfold child_running in H. unfold stop.
  destruct (_proc t) as [p|] eqn:Hp; simpl; [|reflexivity].
  destruct (exit_status p) eqn:He; simpl.
  - rewrite ?Hp; simpl; rewrite ?He; reflexivity.
  - destruct (exited_in_time o1) eqn:Ho; simpl; [reflexivity|].
    exfalso. destruct H as [H|H]; [|congruence].
    apply H. exists p; auto.
Qed.

(** Without a running child, [stop] has no effect on the outside. *)
Lemma stop_without_child (o : stop_obs) (t : RecorderThread) :
  ~ child_running t -> log (stop o t) = log t.
Proof.
  intros H. unfold child_running in H. unfold stop.
  destruct (_proc t) as [p|] eqn:Hp; [|reflexivity].
  destruct (exit_status p) eqn:He; [reflexivity|].
  exfalso. apply H. exists p; auto.
Qed.

(** ** The claims *)

(** C2, amended: in every session, however often [stop] is called, at
    most one terminal signal ([sig_done] or [sig_error]) is emitted, and
    exactly one once [run] has returned; two [stop] calls in a row emit
    nothing themselves.  A [stop] that follows a [stop] which saw the
    child end (or found no running child) changes nothing; a [stop] that
    follows a [stop] whose wait expired finds the child still running and
    acts again: it writes the quit command and, when its wait expires
    too, calls [terminate] once more. *)
Theorem stop_twice_one_terminal (decode : string -> string) (c : Cfg)
    (evs : list event) :
  let t := exec decode evs (init c) in
  (terminal_count t <= 1)%nat
  /\ (at_ t = Returned <-> terminal_count t = 1%nat)
  /\ (forall o1 o2,
        terminal_count (stop o2 (stop o1 t)) = terminal_count t)
  /\ (forall o, ~ child_running t -> log (stop o t) = log t)
  /\ (forall o1 o2,
        ~ child_running t \/ exited_in_time o1 <> None ->
        stop o2 (stop o1 t) = stop o1 t)
  /\ (forall o1 o2,
        child_running t -> exited_in_time o1 = None ->
        exited_in_time o2 = None ->
        log (stop o2 (stop o1 t))
        = log (stop o1 t)
          ++ (if write_ok o2 then [StdinWrite ("q" +++ NL)] else [])
          ++ [Terminate]).
Proof.
  intros t.
  assert (Hs : settled t) by (apply exec_settled; reflexivity).
  unfold settled in Hs.
  split; [destruct (at_ t); lia|].
  split; [destruct (at_ t); split; intros H;
          try discriminate; try reflexivity; lia|].
  split; [intros o1 o2; rewrite !stop_terminal_count; reflexivity|].
  split; [intros o H; apply stop_without_child; exact H|].
  split.
  - intros o1 o2 H. apply stop_after_stop; exact H.
  - intros o1 o2 Hrun Ho1 Ho2.
    destruct (stop_timeout_effect o1 t Hrun Ho1) as (Hrun1 & _ & _).
    destruct (stop_timeout_effect o2 (stop o1 t) Hrun1 Ho2) as (_ & _ & Hl).
    exact Hl.
Qed.

Lemma stop_twice_one_terminal_witness :
  let t := exec (fun b => b) [RunStart plain_host Started] (init plain_cfg) in
  child_running t
  /\ terminate_count (stop timed_out (stop timed_out t)) = 2%nat
  /\ stop timed_out (stop (mkStopObs true (Some 255)) t)
     = stop (mkStopObs true (Some 255)) t.
Proof.
  intros t.
  assert (Hrun : child_running t) by (eexists; split; reflexivity).
  destruct (stop_twice_one_terminal (fun b => b) plain_cfg
              [RunStart plain_host Started])
    as (_ & _ & _ & _ & Hnoop & Hagain).
  split; [exact Hrun|]. split.
  - unfold terminate_count. subst t.
    rewrite (Hagain timed_out timed_out Hrun eq_refl eq_refl). reflexivity.
  - apply Hnoop. right. discriminate.
Defined.

(** C2 as stated fails: after a [stop] whose wait expired the session is
    stopping (flag set, worker still waiting), and a second [stop] is not
    a no-op: the thread's record of effects changes, with a second
    [terminate] call. *)
Lemma stop_while_stopping_counterexample :
  _stop stopping = true
  /\ (exists final, at_ stopping = Waiting final)
  /\ stop timed_out stopping <> stopping
  /\ terminate_count stopping = 1%nat
  /\ terminate_count (stop timed_out stopping) = 2%nat.
Proof.
  split; [reflexivity|]. split; [eexists; reflexivity|].
  split; [|split; reflexivity].
  intros H. apply (f_equal terminate_count) in H. vm_compute in H.
  discriminate.
Qed.




(** C4, amended: when the child does not end within the bounded wait of
    [stop], [stop] calls [terminate] once, sets the stop flag and emits
    nothing; the worker then reaches its terminal state, [sig_done] with
    the final path, as soon as the child ends; and as long as the child
    does not end, no terminal signal is emitted, whatever else happens:
    the program itself sets no bound on that delay. *)
Theorem stop_timeout_terminates (decode : string -> string)
    (t : RecorderThread) (final : string) (o : stop_obs) :
  at_ t = Waiting final -> child_running t -> exited_in_time o = None ->
  let t1 := stop o t in
  terminate_count t1 = S (terminate_count t)
  /\ _stop t1 = true
  /\ at_ t1 = Waiting final
  /\ terminal_count t1 = terminal_count t
  /\ (forall rc ob,
        at_ (exec decode [ChildExit rc; RunFinish ob] t1) = Returned
        /\ log (exec decode [ChildExit rc; RunFinish ob] t1)
           = log t1 ++ [Emit (sig_done final)])
  /\ (forall evs,
        forallb (fun ev => negb (ends_child ev)) evs = true ->
        at_ (exec decode evs t1) = Waiting final
        /\ terminal_count (exec decode evs t1) = terminal_count t).
Proof.
  intros Hat Hrun Ho t1.
  destruct (stop_timeout_effect o t Hrun Ho) as (Hrun1 & Hflag & Hlog).
  fold t1 in Hrun1, Hflag, Hlog.
  assert (Hat1 : at_ t1 = Waiting final)
    by (unfold t1; rewrite stop_position; exact Hat).
  assert (Hc1 : terminal_count t1 = terminal_count t)
    by apply stop_terminal_count.
  split.
  { unfold terminate_count. rewrite Hlog, !count_app.
    destruct (write_ok o); unfold count; simpl; lia. }
  split; [exact Hflag|]. split; [exact Hat1|]. split; [exact Hc1|].
  split.
  - intros rc ob. destruct Hrun1 as (p & Hp & Hnone).
    unfold exec; simpl. unfold child_exit. rewrite Hp, Hnone.
    unfold run_finish; simpl. rewrite Hat1, Hflag; simpl. auto.
  - intros evs Hevs.
    destruct (exec_while_child_runs decode evs t1 final Hat1 Hrun1 Hevs)
      as (H1 & _ & H2).
    rewrite H2, Hc1. auto.
Qed.

Lemma stop_timeout_terminates_witness :
  let t := run_start plain_host Started (init plain_cfg) in
  child_running t
  /\ terminate_count (stop timed_out t) = 1%nat
  /\ at_ (exec (fun b => b) [ChildExit 255; RunFinish (mkExitObs None false)]
              (stop timed_out t)) = Returned.
Proof.
  intros t.
  assert (Hrun : child_running t) by (eexists; split; reflexivity).
  destruct (stop_timeout_terminates (fun b => b) t (final_path plain_cfg)
              timed_out eq_refl Hrun eq_refl)
    as (Hterm & _ & _ & _ & Hexit & _).
  split; [exact Hrun|]. split; [exact Hterm|].
  exact (proj1 (Hexit 255 (mkExitObs None false))).
Defined.

(** C4 as stated fails: after a [stop] whose wait expired, [terminate]
    has been called once, yet as long as the child does not end no
    terminal signal is emitted, however many further steps are taken. *)
Lemma stop_timeout_unbounded_counterexample :
  terminate_count stopping = 1%nat
  /\ (forall evs,
        forallb (fun ev => negb (ends_child ev)) evs = true ->
        terminal_count (exec (fun b => b) evs stopping) = 0%nat).
Proof.
  split; [reflexivity|].
  intros evs Hevs.
  destruct (exec_while_child_runs (fun b => b) evs stopping
              (final_path plain_cfg) eq_refl
              (ex_intro _ _ (conj eq_refl eq_refl)) Hevs) as (_ & _ & H).
  rewrite H. reflexivity.
Qed.

End ProcessFacts.

(* ================================================================== *)
(** * The overlay: one result per session *)
(* ================================================================== *)

Module OverlaySession.

Import Overlay QtFacts OverlayFacts.

Lemma finish_done (ok : bool) (s : _AreaOverlay) :
  _done (fst (_finish ok s)) = true.
Proof. unfold _finish. destruct (_done s) eqn:H, ok; simpl; auto. Qed.

Lemma finish_out (ok : bool) (s : _AreaOverlay) :
  snd (_finish ok s) =
  if _done s then []
  else if ok then [area_selected (normalized (_sel s))] else [cancelled].
Proof. unfold _finish. destruct (_done s), ok; reflexivity. Qed.

(** A finished overlay stays finished and silent. *)
Lemma handle_after_done (e : event) (s : _AreaOverlay) :
  _done s = true ->
  snd (handle e s) = [] /\ _done (fst (handle e s)) = true.
Proof.
  intros Hd. destruct e as [b pos|pos|b pos|k]; simpl.
  - unfold mousePressEvent. destruct (is_left b); simpl; auto.
  - unfold mouseMoveEvent. destruct (_drag s); simpl; auto.
  - unfold mouseReleaseEvent. destruct (is_left b && _drag s); simpl; auto.
    match goal with |- context [if ?c then _ else _] => destruct c end;
      rewrite finish_out, finish_done; simpl; rewrite Hd; auto.
  - destruct k; simpl; auto;
      try (destruct (negb (isNull (_sel s))); simpl; auto);
      rewrite finish_out, finish_done, Hd; auto.
Qed.

(** An unfinished overlay either stays unfinished and silent, or emits
    one signal and finishes. *)
Lemma handle_before_done (e : event) (s : _AreaOverlay) :
  _done s = false ->
  (snd (handle e s) = [] /\ _done (fst (handle e s)) = false)
  \/ (List.length (snd (handle e s)) = 1%nat
      /\ _done (fst (handle e s)) = true).
Proof.
  intros Hd. destruct e as [b pos|pos|b pos|k]; simpl.
  - unfold mousePressEvent. destruct (is_left b); simpl; auto.
  - unfold mouseMoveEvent. destruct (_drag s); simpl; auto.
  - unfold mouseReleaseEvent. destruct (is_left b && _drag s); simpl; auto.
    right.
    match goal with |- context [if ?c then _ else _] => destruct c end;
      rewrite finish_out, finish_done; simpl; rewrite Hd; auto.
  - destruct k; simpl; auto;
      try (destruct (negb (isNull (_sel s))); simpl; auto);
      right; rewrite finish_out, finish_done, Hd; auto.
Qed.

Lemma session_after_done (es : list event) :
  forall s, _done s = true ->
    snd (session es s) = [] /\ _done (fst (session es s)) = true.
Proof.
  induction es as [|e es IH]; intros s Hd; simpl; auto.
  destruct (handle_after_done e s Hd) as [Ho Hd1].
  destruct (handle e s) as [s1 o1]; simpl in *.
  destruct (IH s1 Hd1) as [Ho2 Hd2].
  destruct (session es s1) as [s2 o2]; simpl in *; subst; auto.
Qed.

Lemma session_before_done (es : list event) :
  forall s, _done s = false ->
    (snd (session es s) = [] /\ _done (fst (session es s)) = false)
    \/ (List.length (snd (session es s)) = 1%nat
        /\ _done (fst (session es s)) = true).
Proof.
  induction es as [|e es IH]; intros s Hd; simpl; auto.
  destruct (handle_before_done e s Hd) as [[Ho Hd1] | [Ho Hd1]];
    destruct (handle e s) as [s1 o1]; simpl in *.
  - destruct (IH s1 Hd1) as [[Ho2 Hd2] | [Ho2 Hd2]];
      destruct (session es s1) as [s2 o2]; simpl in *; subst; auto.
  - destruct (session_after_done es s1 Hd1) as [Ho2 Hd2].
    destruct (session es s1) as [s2 o2]; simpl in *; subst.
    right. rewrite app_nil_r. auto.
Qed.

(** X1: whatever events reach a fresh overlay, it emits at most one
    signal; it has emitted one exactly when it is finished, and once it
    is finished no later event makes it emit again. *)
Theorem overlay_one_result (es es' : list event) :
  let r := session es init in
  (List.length (snd r) <= 1)%nat
  /\ (_done (fst r) = true <-> List.length (snd r) = 1%nat)
  /\ (_done (fst r) = true -> snd (session es' (fst r)) = []).
Proof.
  intros r. subst r.
  destruct (session_before_done es init eq_refl) as [[Ho Hd] | [Ho Hd]].
  - rewrite Ho, Hd; simpl. repeat split; try lia; discriminate.
  - rewrite Ho, Hd. repeat split; try lia.
    intros _. apply (session_after_done es' _ Hd).
Qed.

Lemma overlay_one_result_witness :
  let es := drag (mkPoint 10 10) [] (mkPoint 200 200) in
  _done (fst (session es init)) = true
  /\ snd (session [KeyPress Key_Escape; KeyPress Key_Enter]
                  (fst (session es init))) = [].
Proof.
  intros es. split; [reflexivity|].
  exact (proj2 (proj2 (overlay_one_result es
                         [KeyPress Key_Escape; KeyPress Key_Enter]))
               eq_refl).
Defined.

Lemma normalized_extent (r : QRect) :
  0 <= width (normalized r) /\ 0 <= height (normalized r).
Proof.
  destruct r as [a1 b1 a2 b2]; unfold normalized, width, height; simpl.
  destruct (Z.ltb_spec a2 (a1 - 1)); destruct (Z.ltb_spec b2 (b1 - 1));
    simpl; lia.
Qed.

Lemma wide_not_null (r : QRect) : 10 < width r -> isNull r = false.
Proof.
  unfold isNull, width; intros H.
  apply andb_false_iff; left; apply Z.eqb_neq; lia.
Qed.

Lemma handle_emits_sound (e : event) (s : _AreaOverlay) (r : QRect) :
  sel_normalized s ->
  In (area_selected r) (snd (handle e s)) ->
  isNull r = false /\ normalized r = r.
Proof.
  unfold sel_normalized; intros Hn Hin.
  destruct e as [b pos|pos|b pos|k]; simpl in Hin.
  - unfold mousePressEvent in Hin. destruct (is_left b); destruct Hin.
  - unfold mouseMoveEvent in Hin. destruct (_drag s); destruct Hin.
  - unfold mouseReleaseEvent in Hin.
    destruct (is_left b && _drag s); [|destruct Hin].
    destruct ((10 <? width (normalized (QRect_pts (_origin s) pos)))
              && (10 <? height (normalized (QRect_pts (_origin s) pos))))
      eqn:Hbig; rewrite finish_out in Hin; simpl in Hin;
      destruct (_done s); simpl in Hin;
      repeat match type of Hin with
             | _ \/ _ => destruct Hin as [Hin|Hin]
             | False => contradiction
             | cancelled = _ => discriminate
             end.
    injection Hin as <-. rewrite !normalized_idempotent. split; [|reflexivity].
    apply andb_true_iff in Hbig as [Hw _]. apply Z.ltb_lt in Hw.
    apply wide_not_null; exact Hw.
  - destruct k; simpl in Hin; try destruct Hin.
    + rewrite finish_out in Hin. destruct (_done s); simpl in Hin;
        intuition discriminate.
    + destruct (isNull (_sel s)) eqn:Hnull; simpl in Hin; [destruct Hin|].
      rewrite finish_out in Hin. destruct (_done s); simpl in Hin;
        [destruct Hin|]. destruct Hin as [Hin|[]]. injection Hin as <-.
      rewrite Hn. auto.
    + destruct (isNull (_sel s)) eqn:Hnull; simpl in Hin; [destruct Hin|].
      rewrite finish_out in Hin. destruct (_done s); simpl in Hin;
        [destruct Hin|]. destruct Hin as [Hin|[]]. injection Hin as <-.
      rewrite Hn. auto.
Qed.

Lemma session_emits_sound (es : list event) (r : QRect) :
  forall s, sel_normalized s ->
    In (area_selected r) (snd (session es s)) ->
    isNull r = false /\ normalized r = r.
Proof.
  induction es as [|e es IH]; intros s Hn Hin; simpl in Hin; [destruct Hin|].
  pose proof (handle_emits_sound e s r Hn) as He.
  pose proof (handle_sel_normalized e s Hn) as Hn1.
  destruct (handle e s) as [s1 o1]; simpl in *.
  specialize (IH s1 Hn1).
  destruct (session es s1) as [s2 o2]; simpl in *.
  apply in_app_or in Hin as [Hin|Hin]; auto.
Qed.

(** X2: every rectangle a session of the overlay reports is normalized,
    is not the null rectangle, and has no negative extent. *)
Theorem overlay_reports_real_rectangle (es : list event) (r : QRect) :
  In (area_selected r) (snd (session es init)) ->
  isNull r = false /\ normalized r = r /\ 0 <= width r /\ 0 <= height r.
Proof.
  intros Hin.
  destruct (session_emits_sound es r init eq_refl Hin) as [Hnull Hnorm].
  split; [exact Hnull|]. split; [exact Hnorm|].
  rewrite <- Hnorm. apply normalized_extent.
Qed.

Lemma overlay_reports_real_rectangle_witness :
  In (area_selected (QRect_xywh 40 10 61 91))
     (snd (session (drag (mkPoint 100 100) [] (mkPoint 40 10)) init))
  /\ normalized (QRect_xywh 40 10 61 91) = QRect_xywh 40 10 61 91.
Proof.
  assert (H : In (area_selected (QRect_xywh 40 10 61 91))
                (snd (session (drag (mkPoint 100 100) [] (mkPoint 40 10))
                              init))) by (left; reflexivity).
  split; [exact H|].
  exact (proj1 (proj2 (overlay_reports_real_rectangle _ _ H))).
Defined.

End OverlaySession.

(* ================================================================== *)
(** * Facts about the Python built-ins *)
(* ================================================================== *)

Module PyFacts.

Import Text.

Lemma parse_digit_step (c : ascii) (s : string) (acc k : Z) (b : bool) :
  Py.digit_val c = Some k ->
  Py.parse_digits (String c s) acc b = Py.parse_digits s (10 * acc + k) true.
Proof. intros H. cbn [Py.parse_digits]. rewrite H. reflexivity. Qed.

Lemma parse_printed_digits (d : Decimal.uint) :
  forall (acc : Z) (b : bool),
    Py.parse_digits (NilEmpty.string_of_uint d) acc b =
    match d with
    | Decimal.Nil => if b then Some acc else None
    | _ => Some (digits_value d acc)
    end.
Proof.
  induction d; intros acc b;
    cbn [NilEmpty.string_of_uint digits_value]; try reflexivity;
    erewrite parse_digit_step by reflexivity;
    rewrite IHd, ?Z.add_0_r; destruct d; reflexivity.
Qed.

Lemma digits_value_acc (d : Decimal.uint) :
  forall acc : positive,
    Z.pos (Pos.of_uint_acc d acc) = digits_value d (Z.pos acc).
Proof.
  induction d; intros acc; cbn [Pos.of_uint_acc digits_value];
    try reflexivity; rewrite IHd; f_equal; lia.
Qed.

Lemma digits_value_of_uint (d : Decimal.uint) :
  digits_value d 0 = Z.of_uint d.
Proof.
  unfold Z.of_uint.
  induction d; cbn [Pos.of_uint digits_value]; try reflexivity;
    try exact IHd; rewrite N2Z.inj_pos, digits_value_acc; reflexivity.
Qed.

Lemma printed_digits_no_space (d : Decimal.uint) :
  no_space (NilEmpty.string_of_uint d) = true.
Proof. induction d; simpl; auto. Qed.

Lemma printed_digits_lack (c : ascii) (d : Decimal.uint) :
  Py.digit_val c = None -> lacks c (NilEmpty.string_of_uint d) = true.
Proof.
  intros Hc. induction d; simpl; auto; rewrite IHd, andb_true_r;
    destruct (Ascii.eqb_spec c "0"), (Ascii.eqb_spec c "1"),
             (Ascii.eqb_spec c "2"), (Ascii.eqb_spec c "3"),
             (Ascii.eqb_spec c "4"), (Ascii.eqb_spec c "5"),
             (Ascii.eqb_spec c "6"), (Ascii.eqb_spec c "7"),
             (Ascii.eqb_spec c "8"), (Ascii.eqb_spec c "9");
    subst; try discriminate; reflexivity.
Qed.

Lemma printed_uint_nonempty (p : positive) :
  NilEmpty.string_of_uint (Pos.to_uint p) <> EmptyString.
Proof.
  pose proof (DecimalPos.Unsigned.to_uint_nonnil p) as H.
  destruct (Pos.to_uint p); simpl; congruence.
Qed.

Lemma lstrip_word (s : string) : is_word s = true -> Py.lstrip s = s.
Proof.
  unfold is_word. destruct s as [|c s]; simpl; [discriminate|].
  destruct (Py.isspace c); simpl; [discriminate|reflexivity].
Qed.

Lemma rstrip_no_space (s : string) : no_space s = true -> Py.rstrip s = s.
Proof.
  induction s as [|c s IH]; simpl; [reflexivity|].
  intros H. apply andb_true_iff in H as [Hc Hs].
  apply negb_true_iff in Hc. rewrite Hc, (IH Hs). reflexivity.
Qed.

Lemma strip_word (s : string) : is_word s = true -> Py.strip s = s.
Proof.
  intros H. unfold Py.strip. rewrite (lstrip_word s H).
  apply rstrip_no_space. unfold is_word in H.
  apply andb_true_iff in H as [_ H]. exact H.
Qed.

(** The printed form of an integer: an optional minus sign and digits. *)
Lemma str_shape (n : Z) :
  (exists d, d <> Decimal.Nil /\ Py.str n = NilEmpty.string_of_uint d
             /\ 0 <= n /\ digits_value d 0 = n)
  \/ (exists d, d <> Decimal.Nil
                /\ Py.str n = String "-" (NilEmpty.string_of_uint d)
                /\ n < 0 /\ digits_value d 0 = - n).
Proof.
  unfold Py.str. destruct n as [|p|p]; simpl.
  - left. exists (Decimal.D0 Decimal.Nil). repeat split; try lia. discriminate.
  - left. exists (Pos.to_uint p).
    pose proof (DecimalPos.Unsigned.to_uint_nonnil p) as Hnn.
    split; [exact Hnn|]. split.
    + unfold NilZero.string_of_uint. destruct (Pos.to_uint p); congruence.
    + split; [lia|]. rewrite digits_value_of_uint. unfold Z.of_uint.
      rewrite DecimalPos.Unsigned.of_to. reflexivity.
  - right. exists (Pos.to_uint p).
    pose proof (DecimalPos.Unsigned.to_uint_nonnil p) as Hnn.
    split; [exact Hnn|]. split.
    + unfold NilZero.string_of_uint. destruct (Pos.to_uint p); congruence.
    + split; [lia|]. rewrite digits_value_of_uint. unfold Z.of_uint.
      rewrite DecimalPos.Unsigned.of_to. reflexivity.
Qed.

Lemma str_is_word (n : Z) : is_word (Py.str n) = true.
Proof.
  unfold is_word.
  destruct (str_shape n) as [(d & Hd & -> & _) | (d & Hd & -> & _)].
  - rewrite printed_digits_no_space, andb_true_r.
    destruct d; simpl; congruence.
  - simpl. apply printed_digits_no_space.
Qed.

Lemma parse_unsigned (d : Decimal.uint) (A B : string -> option Z) :
  d <> Decimal.Nil ->
  match NilEmpty.string_of_uint d with
  | String c r =>
      if (Py.code c =? 45)%N then A r
      else if (Py.code c =? 43)%N then B r
      else Py.parse_digits (String c r) 0 false
  | EmptyString => None
  end = Some (digits_value d 0).
Proof.
  intros Hd.
  destruct d; try congruence; cbn [NilEmpty.string_of_uint];
    repeat match goal with
           | |- context [(Py.code ?c =? ?k)%N] =>
               replace (Py.code c =? k)%N with false by reflexivity
           end;
    match goal with
    | |- _ = Some (digits_value ?dd 0) =>
        exact (parse_printed_digits dd 0 false)
    end.
Qed.

(** [int(str(n)) == n] *)
Lemma int_str (n : Z) : Py.int (Py.str n) = Some n.
Proof.
  unfold Py.int. rewrite (strip_word _ (str_is_word n)).
  destruct (str_shape n) as [(d & Hd & -> & Hn & Hv) | (d & Hd & -> & Hn & Hv)].
  - rewrite (parse_unsigned d
               (fun r => option_map Z.opp (Py.parse_digits r 0 false))
               (fun r => Py.parse_digits r 0 false) Hd), Hv.
    reflexivity.
  - replace (Py.code "-" =? 45)%N with true by reflexivity.
    rewrite parse_printed_digits.
    destruct d; try congruence; cbn [option_map]; rewrite Hv; f_equal; lia.
Qed.





End PyFacts.

(* ================================================================== *)
(** * The native selection tools: what they can report *)
(* ================================================================== *)

Module NativeTools.

Import Overlay Native QtFacts NativeFacts Text PyFacts.

Lemma select_scrot_some (e : host) (rect : QRect) :
  select_scrot e = Some rect ->
  exists w h,
    QRect_ints 0 0 w h = Some rect /\ 4 < w /\ 4 < h
    /\ scrot_installed e = true /\ scrot_run e = Some 0
    /\ tmp_exists e = true /\ image_size e = Some (w, h).
Proof.
  unfold select_scrot.
  destruct (scrot_installed e); [|discriminate].
  destruct (scrot_run e) as [rc|]; [|discriminate].
  destruct (Z.eqb_spec rc 0); [subst|discriminate]; simpl.
  destruct (tmp_exists e); [|discriminate].
  destruct (image_size e) as [[w h]|]; [|discriminate].
  destruct (Z.ltb_spec 4 w); [|discriminate].
  destruct (Z.ltb_spec 4 h); [|discriminate]. simpl.
  intros Heq. exists w, h. repeat split; auto.
Qed.

Lemma select_native_some (e : host) (rect : QRect) :
  _select_area_native e = Some rect ->
  exists a b w h, QRect_ints a b w h = Some rect /\ 4 < w /\ 4 < h.
Proof.
  assert (Hs : select_scrot e = Some rect ->
               exists a b w h,
                 QRect_ints a b w h = Some rect /\ 4 < w /\ 4 < h).
  { intros H. destruct (select_scrot_some e rect H) as (w & h & ? & ? & ? & _).
    exists 0, 0, w, h; auto. }
  unfold _select_area_native.
  destruct (slop_installed e); [|exact Hs].
  destruct (slop_run e) as [r|]; [|exact Hs].
  destruct (returncode r =? 0); [|discriminate].
  destruct (Py.split (Py.strip (stdout r))) as [|a [|b [|c [|d [|? ?]]]]];
    try discriminate.
  destruct (Py.int a) as [x0|]; [|exact Hs].
  destruct (Py.int b) as [y0|]; [|exact Hs].
  destruct (Py.int c) as [w|]; [|exact Hs].
  destruct (Py.int d) as [h|]; [|exact Hs].
  destruct (Z.ltb_spec 4 w); [|discriminate].
  destruct (Z.ltb_spec 4 h); [|discriminate]. simpl.
  destruct (QRect_ints x0 y0 w h) as [rect'|] eqn:Hr; [|exact Hs].
  intros Heq; injection Heq as <-. exists x0, y0, w, h; auto.
Qed.

Lemma on_native_done_one (rect : QRect) :
  List.length (_on_native_done rect) = 1%nat.
Proof.
  unfold _on_native_done.
  destruct (isNull rect || (width rect <? 4) || (height rect <? 4));
    reflexivity.
Qed.

(** A rectangle that the native path reports is the rectangle that
    [_select_area_native] returned, built without overflow from extents
    above 4. *)
Lemma run_native_selected (e : host) (r : QRect) :
  In (area_selected r) (_run_native e) ->
  _select_area_native e = Some r
  /\ exists a b w h,
       r = QRect_xywh a b w h /\ 4 < w /\ 4 < h
       /\ QRect_ints a b w h = Some r.
Proof.
  unfold _run_native, _SlopThread_run.
  destruct (_select_area_native e) as [rect|] eqn:Hsel;
    [|intros [H|[]]; discriminate].
  destruct (select_native_some e rect Hsel) as (a & b & w & h & Hr & Hw & Hh).
  destruct (QRect_bool rect) eqn:Hv; [|intros [H|[]]; discriminate].
  assert (Hrect : rect = QRect_xywh a b w h).
  { apply (QRect_ints_valid a b w h rect Hr); [lia|lia|exact Hv]. }
  pose proof (accepted_rect_is_selected a b w h Hw Hh) as Hacc.
  rewrite <- Hrect, Hv in Hacc. rewrite Hacc.
  intros [H|[]]. injection H as <-. split; [reflexivity|].
  exists a, b, w, h. auto.
Qed.

(** X3: whatever the tools answer, the native path emits exactly one
    signal, and a rectangle it reports is more than 4 pixels wide and
    more than 4 pixels high. *)
Theorem native_never_tiny (e : host) :
  List.length (_run_native e) = 1%nat
  /\ (forall r, In (area_selected r) (_run_native e) ->
        4 < width r /\ 4 < height r).
Proof.
  split.
  - unfold _run_native. apply on_native_done_one.
  - intros r Hin.
    destruct (run_native_selected e r Hin)
      as (_ & a & b & w & h & -> & Hw & Hh & _).
    rewrite width_xywh, height_xywh. auto.
Qed.

Lemma native_never_tiny_witness :
  In (area_selected (QRect_xywh 0 0 640 480))
     (_run_native (mkHost false None true (Some 0) true (Some (640, 480))))
  /\ 4 < width (QRect_xywh 0 0 640 480).
Proof.
  assert (H : In (area_selected (QRect_xywh 0 0 640 480))
                (_run_native (mkHost false None true (Some 0) true
                                     (Some (640, 480)))))
    by (left; reflexivity).
  split; [exact H|].
  exact (proj1 (proj2 (native_never_tiny _) _ H)).
Defined.

(** X4: when [slop] is missing or its call raises, a reported rectangle
    comes from [scrot]: it sits at the origin and has the size of the
    saved image, whatever part of the screen was selected. *)
Theorem scrot_rectangle_at_origin (e : host) (r : QRect) :
  slop_installed e = false \/ slop_run e = None ->
  In (area_selected r) (_run_native e) ->
  exists w h,
    image_size e = Some (w, h) /\ scrot_run e = Some 0
    /\ r = QRect_xywh 0 0 w h /\ x r = 0 /\ y r = 0.
Proof.
  intros Hslop Hin.
  assert (Hsel : _select_area_native e = select_scrot e).
  { unfold _select_area_native.
    destruct Hslop as [-> | H]; [reflexivity|].
    rewrite H. destruct (slop_installed e); reflexivity. }
  destruct (run_native_selected e r Hin) as (Hr & a & b & w' & h' & Hv).
  rewrite Hsel in Hr.
  destruct (select_scrot_some e r Hr)
    as (w & h & Hints & Hw & Hh & _ & Hrun & _ & Himg).
  assert (Hrect : r = QRect_xywh 0 0 w h).
  { destruct Hv as (Hxy & Hw' & Hh' & Hints').
    destruct (QRect_ints_some _ _ _ _ _ Hints) as [_ H0].
    destruct (QRect_ints_reads_back _ _ _ _ _ Hints) as (_ & _ & Hwi & Hhi).
    destruct (QRect_ints_reads_back _ _ _ _ _ Hints')
      as (Hx & Hy & Hwi' & Hhi').
    assert (a = 0) by (rewrite <- Hx, H0; reflexivity).
    assert (b = 0) by (rewrite <- Hy, H0; reflexivity).
    subst a b. rewrite Hxy. congruence. }
  exists w, h. rewrite Hrect. repeat split; auto.
Qed.

Lemma scrot_rectangle_at_origin_witness :
  exists w h,
    QRect_xywh 0 0 640 480 = QRect_xywh 0 0 w h
    /\ image_size (mkHost false None true (Some 0) true (Some (640, 480)))
       = Some (w, h).
Proof.
  destruct (scrot_rectangle_at_origin
              (mkHost false None true (Some 0) true (Some (640, 480)))
              (QRect_xywh 0 0 640 480) (or_introl eq_refl)
              (or_introl eq_refl)) as (w & h & Himg & _ & Hr & _).
  exists w, h. split; [exact Hr|exact Himg].
Defined.






End NativeTools.

(* ================================================================== *)
(** * The audio probe: order of the fallbacks *)
(* ================================================================== *)

Module AudioOrder.

Import Audio AudioFacts.

Lemma pulse_branch_driver (lines : list string) (o : option source) :
  (match first_non_monitor lines with
   | Some name => Some ("pulse", name)
   | None =>
       match lines with
       | l0 :: _ =>
           match second_field l0 with
           | Some name => Some ("pulse", name)
           | None => Some pulse_default
           end
       | [] => None
       end
   end) = o ->
  forall s, o = Some s -> fst s = "pulse".
Proof.
  intros <- s.
  destruct (first_non_monitor lines); [intros H; injection H as <-; auto|].
  destruct lines as [|l0 rest]; [discriminate|].
  destruct (second_field l0); intros H; injection H as <-; reflexivity.
Qed.

Lemma try_pipewire_driver (e : probes) (s : source) :
  try_pipewire e = Some s -> fst s = "pulse".
Proof.
  unfold try_pipewire.
  destruct (pw_cli e) as [r|]; [|discriminate].
  destruct (answered r); [|discriminate].
  destruct (pactl_pipewire e) as [r2|]; [|discriminate].
  destruct (answered r2).
  - intros H. exact (pulse_branch_driver _ _ eq_refl s H).
  - intros H; injection H as <-; reflexivity.
Qed.

Lemma try_pulseaudio_driver (e : probes) (s : source) :
  try_pulseaudio e = Some s -> fst s = "pulse".
Proof.
  unfold try_pulseaudio.
  destruct (pactl_pulse e) as [r|]; [|discriminate].
  destruct (answered r); [|discriminate].
  intros H. exact (pulse_branch_driver _ _ eq_refl s H).
Qed.

Lemma try_pulseaudio_answered (e : probes) (r : completed) :
  pactl_pulse e = Some r -> answered r = true ->
  exists s, try_pulseaudio e = Some s.
Proof.
  intros Hp Ha. unfold try_pulseaudio. rewrite Hp, Ha.
  pose proof (answered_lines r Ha) as Hne.
  destruct (first_non_monitor _); [eauto|].
  destruct (Py.splitlines (Py.strip (stdout r))) as [|l0 rest];
    [congruence|].
  destruct (second_field l0); eauto.
Qed.

Lemma try_pipewire_answered (e : probes) (r2 : completed) :
  pipewire_up e = true -> pactl_pipewire e = Some r2 ->
  exists s, try_pipewire e = Some s
            /\ (answered r2 = false -> s = pulse_default).
Proof.
  unfold pipewire_up, try_pipewire. intros Hup Hp.
  destruct (pw_cli e) as [r|]; [|discriminate].
  rewrite Hup, Hp. destruct (answered r2) eqn:Ha.
  - pose proof (answered_lines r2 Ha) as Hne.
    destruct (first_non_monitor _);
      [eexists; split; [reflexivity|discriminate]|].
    destruct (Py.splitlines (Py.strip (stdout r2))) as [|l0 rest];
      [congruence|].
    destruct (second_field l0);
      eexists; (split; [reflexivity|discriminate]).
  - eexists; split; [reflexivity|auto].
Qed.

(** X7: the probe always answers, with the driver "pulse" or with the
    pair ("alsa", "hw:0,0"); and it answers ALSA only as the last resort:
    the PipeWire branch gave nothing, the second [pactl] call raised or
    listed nothing, [pulseaudio --check] raised or failed, and
    [arecord -l] succeeded and printed a card. *)
Theorem alsa_is_last_resort (e : probes) :
  (fst (detect_audio_source e) = "pulse"
   \/ detect_audio_source e = ("alsa", "hw:0,0"))
  /\ (fst (detect_audio_source e) = "alsa" ->
      (pipewire_up e = false \/ pactl_pipewire e = None)
      /\ (forall r, pactl_pulse e = Some r -> answered r = false)
      /\ pulseaudio_check e <> Some 0
      /\ exists r, arecord e = Some r /\ returncode r = 0
                   /\ Py.contains "card" (stdout r) = true).
Proof.
  unfold detect_audio_source, or_else.
  destruct (try_pipewire e) as [s|] eqn:H1.
  { pose proof (try_pipewire_driver e s H1) as Hd.
    split; [left; exact Hd|]. rewrite Hd; discriminate. }
  destruct (try_pulseaudio e) as [s|] eqn:H2.
  { pose proof (try_pulseaudio_driver e s H2) as Hd.
    split; [left; exact Hd|]. rewrite Hd; discriminate. }
  destruct (try_check e) as [s|] eqn:H3.
  { unfold try_check in H3.
    destruct (pulseaudio_check e) as [rc|]; [|discriminate].
    destruct (rc =? 0); [|discriminate]. injection H3 as <-.
    split; [left; reflexivity|discriminate]. }
  destruct (try_alsa e) as [s|] eqn:H4.
  - unfold try_alsa in H4.
    destruct (arecord e) as [r|] eqn:Har; [|discriminate].
    destruct ((returncode r =? 0) && Py.contains "card" (stdout r)) eqn:Hok;
      [|discriminate].
    injection H4 as <-. split; [right; reflexivity|]. intros _.
    apply andb_true_iff in Hok as [Hrc Hcard]. apply Z.eqb_eq in Hrc.
    split; [|split; [|split]].
    + destruct (pipewire_up e) eqn:Hup; [|left; reflexivity]. right.
      destruct (pactl_pipewire e) as [r2|] eqn:Hp; [|reflexivity].
      destruct (try_pipewire_answered e r2 Hup Hp) as (s & Hs & _).
      congruence.
    + intros r2 Hp. destruct (answered r2) eqn:Ha; [|reflexivity].
      destruct (try_pulseaudio_answered e r2 Hp Ha) as (s & Hs). congruence.
    + unfold try_check in H3. intros Hc. rewrite Hc in H3. discriminate.
    + exists r. auto.
  - split; [left; reflexivity|discriminate].
Qed.

Lemma alsa_is_last_resort_witness :
  let e := mkProbes None None (Some (mkCompleted 1 EmptyString)) (Some 1)
             (Some (mkCompleted 0 "card 0: PCH [HDA Intel PCH]")) in
  detect_audio_source e = ("alsa", "hw:0,0")
  /\ pulseaudio_check e <> Some 0.
Proof.
  intros e. split; [reflexivity|].
  exact (proj1 (proj2 (proj2 (proj2 (alsa_is_last_resort e) eq_refl)))).
Defined.

(** X8: when PipeWire answers and the [pactl] call made in its branch
    returns, the result is decided there: the driver is "pulse", the
    source is "default" if that [pactl] call failed or listed nothing,
    and the later probes ([pactl] again, [pulseaudio --check],
    [arecord -l]) have no influence. *)
Theorem pipewire_branch_decides (e e' : probes) (r2 : completed) :
  pipewire_up e = true ->
  pactl_pipewire e = Some r2 ->
  fst (detect_audio_source e) = "pulse"
  /\ (answered r2 = false -> detect_audio_source e = ("pulse", "default"))
  /\ (pw_cli e' = pw_cli e -> pactl_pipewire e' = pactl_pipewire e ->
      detect_audio_source e' = detect_audio_source e).
Proof.
  intros Hup Hp.
  destruct (try_pipewire_answered e r2 Hup Hp) as (s & Hs & Hdef).
  unfold detect_audio_source, or_else. rewrite Hs.
  split; [exact (try_pipewire_driver e s Hs)|].
  split; [intros Ha; rewrite (Hdef Ha); reflexivity|].
  intros Hpw Hpa.
  assert (Hs' : try_pipewire e' = Some s).
  { rewrite <- Hs. unfold try_pipewire. rewrite Hpw, Hpa. reflexivity. }
  rewrite Hs'. reflexivity.
Qed.

Lemma pipewire_branch_decides_witness :
  let e := mkProbes (Some (mkCompleted 0 "id 31, type Node"))
             (Some (mkCompleted 1 EmptyString))
             (Some usb_listing) (Some 0) None in
  pipewire_up e = true
  /\ detect_audio_source e = ("pulse", "default").
Proof.
  intros e. split; [reflexivity|].
  exact (proj1 (proj2 (pipewire_branch_decides e e
                         (mkCompleted 1 EmptyString) eq_refl eq_refl))
               eq_refl).
Defined.

End AudioOrder.

(* ================================================================== *)
(** * The recorder: more about the command and the session *)
(* ================================================================== *)

Module RecorderSession.

Import Recorder Session QtFacts CommandFacts ProcessFacts StringFacts.

Lemma clear_bit0_at_least_2 (n : Z) : 2 <= n -> 2 <= clear_bit0 n.
Proof.
  intros H. rewrite clear_bit0_even_floor.
  pose proof (Z.div_le_mono 2 n 2 ltac:(lia) H) as Hd.
  change (2 / 2) with 1 in Hd. lia.
Qed.

(** X9: an area at least 2 pixels wide and 2 pixels high is never
    rejected, wherever it lies (it is not clipped to the screen): the
    command is handed to [Popen] and grabs at the area's own top-left
    corner on the display [DISPLAY], or ":0" when that variable is not
    set; without area the grab starts at +0,0. *)
Theorem area_grab_offset (c : Cfg) (e : host) (sp : popen_result) :
  (forall r, area c = Some r -> 2 <= width r -> 2 <= height r ->
     too_small c e = false
     /\ nth_error (command c e) 8 = Some "-i"
     /\ nth_error (command c e) 9 = Some (grab_input e (x r) (y r))
     /\ In (PopenCall (command c e)) (log (run_start e sp (init c))))
  /\ (area c = None ->
      nth_error (command c e) 9 = Some (grab_input e 0 0)).
Proof.
  split.
  - intros r Ha Hw Hh.
    destruct (positive_is_valid r ltac:(lia) ltac:(lia)) as [Hv Hn].
    assert (Hg : geometry (area c) (screen e)
                 = (x r, y r, clear_bit0 (width r), clear_bit0 (height r))).
    { unfold geometry. rewrite Ha, Hv, Hn. reflexivity. }
    assert (Hts : too_small c e = false).
    { unfold too_small. rewrite Hg.
      pose proof (clear_bit0_at_least_2 _ Hw).
      pose proof (clear_bit0_at_least_2 _ Hh).
      apply orb_false_iff; split; apply Z.ltb_ge; lia. }
    split; [exact Hts|].
    rewrite (command_shape c e _ _ _ _ Hg).
    split; [reflexivity|]. split; [reflexivity|].
    rewrite <- (command_shape c e _ _ _ _ Hg).
    apply run_start_calls_popen; exact Hts.
  - intros Ha.
    assert (Hg : geometry (area c) (screen e)
                 = (0, 0, clear_bit0 (width (screen e)),
                    clear_bit0 (height (screen e)))).
    { unfold geometry. rewrite Ha. reflexivity. }
    rewrite (command_shape c e _ _ _ _ Hg). reflexivity.
Qed.

Lemma area_grab_offset_witness :
  let c := mkCfg (Some (QRect_xywh 3000 (-40) 7 2)) None None None None
                 None None None in
  too_small c plain_host = false
  /\ nth_error (command c plain_host) 9 = Some ":0+3000,-40".
Proof.
  intros c.
  destruct (proj1 (area_grab_offset c plain_host Started)
              (QRect_xywh 3000 (-40) 7 2) eq_refl)
    as (Hts & _ & Hi & _).
  - vm_compute; discriminate.
  - vm_compute; discriminate.
  - split; [exact Hts|exact Hi].
Defined.

(** X10: a webcam overlay requested while /dev/video0 does not exist is
    dropped without a word: [run] does exactly what it does with the
    webcam option off. *)
Theorem webcam_without_device (c : Cfg) (e : host) (sp : popen_result) :
  video0 e = false ->
  command c e = command (without_webcam c) e
  /\ log (run_start e sp (init c))
     = log (run_start e sp (init (without_webcam c))).
Proof.
  intros Hv.
  assert (Hidx : webcam_idx c e = None).
  { unfold webcam_idx. rewrite Hv, andb_false_r. reflexivity. }
  assert (Hidx' : webcam_idx (without_webcam c) e = None) by reflexivity.
  assert (Hcmd : command c e = command (without_webcam c) e).
  { unfold command. cbn [without_webcam area].
    destruct (geometry (area c) (screen e)) as [[[gx gy] w] h].
    unfold webcam_args, filter_args. rewrite Hidx, Hidx'. reflexivity. }
  split; [exact Hcmd|].
  unfold run_start; simpl. rewrite <- Hcmd.
  change (too_small (without_webcam c) e) with (too_small c e).
  change (final_path (without_webcam c)) with (final_path c).
  destruct (too_small c e); [reflexivity|].
  destruct sp; reflexivity.
Qed.

Lemma webcam_without_device_witness :
  let c := mkCfg None None None None (Some true) None None None in
  video0 plain_host = false
  /\ command c plain_host = command (without_webcam c) plain_host.
Proof.
  intros c. split; [reflexivity|].
  exact (proj1 (webcam_without_device c plain_host Started eq_refl)).
Defined.

(** X11: the webcam is addressed by its position among the inputs: with
    a webcam the command is the screen grab, then the audio input if
    audio is on, then the webcam input, and the filter graph starts with
    "[k:v]" where k is the number of inputs before the webcam (1 without
    audio, 2 with audio); the audio stream is mapped as "1:a". *)
Theorem webcam_input_index (c : Cfg) (e : host) (k : Z) :
  webcam_idx c e = Some k ->
  exists gx gy w h fc maps tail,
    command c e
    = grab_args c e gx gy w h ++ audio_args c e ++ webcam_input
      ++ ["-filter_complex"; fc; "-map"; "[out]"] ++ maps ++ tail
    /\ k = 1 + Z.of_nat (List.length (audio_args c e)) / 4
    /\ String.prefix ("[" +++ Py.str k +++ ":v]") fc = true
    /\ (get (audio c) false = true -> k = 2 /\ maps = ["-map"; "1:a"])
    /\ (get (audio c) false = false -> k = 1 /\ maps = []).
Proof.
  intros Hk.
  destruct (geometry (area c) (screen e)) as [[[gx gy] w] h] eqn:Hg.
  unfold command. rewrite Hg.
  unfold webcam_args, filter_args. rewrite Hk.
  unfold webcam_idx in Hk.
  destruct (get (webcam c) false && video0 e); [|discriminate].
  unfold audio_idx in *. unfold audio_args.
  destruct (get (audio c) false) eqn:Ha.
  - injection Hk as <-.
    destruct (Audio.detect_audio_source (audio_probes e)) as [driver src].
    eexists gx, gy, w, h, _, ["-map"; "1:a"], _.
    split; [rewrite <- !app_assoc; reflexivity|].
    split; [destruct (String.eqb driver "pulse"); reflexivity|].
    split; [reflexivity|]. split; [auto|discriminate].
  - injection Hk as <-.
    eexists gx, gy, w, h, _, [], _.
    split; [rewrite <- !app_assoc; reflexivity|].
    split; [reflexivity|]. split; [reflexivity|].
    split; [discriminate|auto].
Qed.

Lemma webcam_input_index_witness :
  let c := mkCfg None None None (Some true) (Some true) None None None in
  let e := mkHost full_hd None silent true in
  webcam_idx c e = Some 2
  /\ exists fc tail,
      String.prefix ("[" +++ Py.str 2 +++ ":v]") fc = true
      /\ skipn 18 (command c e)
         = ["-filter_complex"; fc; "-map"; "[out]"; "-map"; "1:a"] ++ tail.
Proof.
  intros c e. split; [reflexivity|].
  destruct (webcam_input_index c e 2 eq_refl)
    as (gx & gy & w & h & fc & maps & tail & Hcmd & _ & Hfc & Hon & _).
  destruct (Hon eq_refl) as [_ Hmaps].
  exists fc, tail. split; [exact Hfc|].
  rewrite Hcmd, Hmaps. reflexivity.
Defined.

(** X12: the failure message is bounded: after the line that gives the
    exit code it carries at most 600 characters of diagnostics, however
    much the child wrote and whatever the decoding yields. *)
Theorem failure_message_bounded (decode : string -> string) (rc : Z)
    (o : exit_obs) :
  (String.length (stderr_tail decode o) <= 600)%nat
  /\ (String.length (failure_message decode rc o)
      <= String.length (Py.str rc) + 626)%nat.
Proof.
  assert (H : (String.length (stderr_tail decode o) <= 600)%nat).
  { unfold stderr_tail, Py.last_chars. apply length_substring. }
  split; [exact H|].
  unfold failure_message. rewrite !length_append. simpl. lia.
Qed.

End RecorderSession.

(* ================================================================== *)
(** * The recorder: what a session can and cannot do *)
(* ================================================================== *)

Module RecorderTraces.

Import Recorder Session ProcessFacts.

Lemma step_log_extends (decode : string -> string) (t : RecorderThread)
    (ev : event) :
  exists l, log (step decode t ev) = log t ++ l.
Proof.
  destruct ev as [e sp|rc|o|o]; simpl.
  - unfold run_start. destruct (at_ t);
      try (exists []; rewrite app_nil_r; reflexivity).
    destruct (too_small (cfg t) e); [eexists; reflexivity|].
    destruct sp; eexists; reflexivity.
  - unfold child_exit. destruct (_proc t) as [p|];
      [destruct (exit_status p)|]; exists []; rewrite app_nil_r; reflexivity.
  - unfold run_finish.
    destruct (at_ t); try (exists []; rewrite app_nil_r; reflexivity).
    destruct (_proc t) as [p|];
      [|exists []; rewrite app_nil_r; reflexivity].
    destruct (exit_status p);
      [eexists; reflexivity|exists []; rewrite app_nil_r; reflexivity].
  - destruct (stop_log o t) as (l & Hl & _). exists l; exact Hl.
Qed.

Lemma step_cfg (decode : string -> string) (t : RecorderThread) (ev : event) :
  cfg (step decode t ev) = cfg t.
Proof.
  destruct ev as [e sp|rc|o|o]; simpl.
  - unfold run_start. destruct (at_ t); try reflexivity.
    destruct (too_small (cfg t) e); [reflexivity|]. destruct sp; reflexivity.
  - unfold child_exit. destruct (_proc t) as [p|]; [|reflexivity].
    destruct (exit_status p); reflexivity.
  - unfold run_finish. destruct (at_ t); try reflexivity.
    destruct (_proc t) as [p|]; [|reflexivity].
    destruct (exit_status p); reflexivity.
  - unfold stop. destruct (_proc t) as [p|]; [|reflexivity].
    destruct (exit_status p); [reflexivity|].
    destruct (exited_in_time o); reflexivity.
Qed.

Lemma spawned_extends (t t' : RecorderThread) (l : list action) :
  log t' = log t ++ l -> spawned t -> spawned t'.
Proof.
  intros Hl [[cmd Hc] Hs]. unfold spawned. rewrite Hl. split.
  - exists cmd. apply in_or_app; auto.
  - apply in_or_app; auto.
Qed.

Lemma step_new_done (decode : string -> string) (t : RecorderThread)
    (ev : event) (path : string) :
  In (Emit (sig_done path)) (log (step decode t ev)) ->
  In (Emit (sig_done path)) (log t) \/ at_ t = Waiting path.
Proof.
  destruct ev as [e sp|rc|o|o]; simpl.
  - unfold run_start. destruct (at_ t); auto.
    destruct (too_small (cfg t) e); [|destruct sp]; simpl; intros Hin;
      apply in_app_or in Hin as [Hin|Hin]; auto;
      destruct (get (audio (cfg t)) false); simpl in Hin;
      intuition discriminate.
  - unfold child_exit. destruct (_proc t) as [p|]; auto.
    destruct (exit_status p); auto.
  - unfold run_finish. destruct (at_ t) eqn:Hat; auto.
    destruct (_proc t) as [p|]; auto.
    destruct (exit_status p); auto. simpl. intros Hin.
    apply in_app_or in Hin as [Hin|[Hin|[]]]; auto.
    destruct (_stop t || final_exists o); [|discriminate].
    injection Hin as <-. auto.
  - destruct (stop_log o t) as (l & Hl & Hq). rewrite Hl. intros Hin.
    apply in_app_or in Hin as [Hin|Hin]; auto.
    destruct (Hq _ Hin); discriminate.
Qed.

Lemma step_new_waiting (decode : string -> string) (t : RecorderThread)
    (ev : event) (f : string) :
  at_ (step decode t ev) = Waiting f ->
  at_ t = Waiting f
  \/ (f = final_path (cfg t) /\ spawned (step decode t ev)).
Proof.
  destruct ev as [e sp|rc|o|o]; simpl.
  - unfold run_start. destruct (at_ t) eqn:Hat;
      try (intros Hf; left; congruence).
    destruct (too_small (cfg t) e); [intros Hf; discriminate|].
    destruct sp; simpl; try (intros Hf; discriminate).
    intros Hf. injection Hf as <-. right. split; [reflexivity|].
    unfold spawned; simpl. split.
    + exists (command (cfg t) e).
      apply in_or_app; right; apply in_or_app; right; left; reflexivity.
    + apply in_or_app; right; apply in_or_app; right; right; left;
        reflexivity.
  - unfold child_exit. destruct (_proc t) as [p|]; auto.
    destruct (exit_status p); auto.
  - unfold run_finish. destruct (at_ t) eqn:Hat;
      try (intros Hf; left; congruence).
    destruct (_proc t) as [p|]; [|intros Hf; left; congruence].
    destruct (exit_status p); [|intros Hf; left; congruence].
    intros Hf; discriminate.
  - rewrite stop_position. auto.
Qed.

Lemma step_sound (decode : string -> string) (c : Cfg) (t : RecorderThread)
    (ev : event) :
  sound c t -> sound c (step decode t ev).
Proof.
  intros (Hc & Hw & Hd).
  destruct (step_log_extends decode t ev) as [l Hl].
  split; [rewrite step_cfg; exact Hc|]. split.
  - intros f Hf.
    destruct (step_new_waiting decode t ev f Hf) as [Hold | [Hnew Hsp]].
    + destruct (Hw f Hold) as [Hfp Hsp]. split; [exact Hfp|].
      eapply spawned_extends; [exact Hl|exact Hsp].
    + rewrite Hc in Hnew. auto.
  - intros path Hin.
    destruct (step_new_done decode t ev path Hin) as [Hold | Hwait].
    + destruct (Hd path Hold) as [Hfp Hsp]. split; [exact Hfp|].
      eapply spawned_extends; [exact Hl|exact Hsp].
    + destruct (Hw path Hwait) as [Hfp Hsp]. split; [exact Hfp|].
      eapply spawned_extends; [exact Hl|exact Hsp].
Qed.

Lemma exec_sound (decode : string -> string) (c : Cfg) (evs : list event) :
  forall t, sound c t -> sound c (exec decode evs t).
Proof.
  induction evs as [|ev evs IH]; intros t H; [exact H|].
  apply IH, step_sound, H.
Qed.

(** X13: success is never reported out of thin air: in every session,
    a [sig_done] carries the final path of the configuration (the output
    path with the extension of the quality index), and it is emitted only
    after [Popen] was called and "RECORDING" was announced. *)
Theorem done_needs_spawn (decode : string -> string) (c : Cfg)
    (evs : list event) (path : string) :
  In (Emit (sig_done path)) (log (exec decode evs (init c))) ->
  path = final_path c
  /\ (exists cmd, In (PopenCall cmd) (log (exec decode evs (init c))))
  /\ In (Emit (sig_status "RECORDING")) (log (exec decode evs (init c))).
Proof.
  intros Hin.
  assert (Hs : sound c (init c)).
  { split; [reflexivity|]. split; [discriminate|]. intros p []. }
  destruct (exec_sound decode c evs (init c) Hs) as (_ & _ & Hd).
  destruct (Hd path Hin) as [Hp [Hc Hst]]. auto.
Qed.

Lemma done_needs_spawn_witness :
  let evs := [RunStart plain_host Started; ChildExit 0;
              RunFinish (mkExitObs None true)] in
  In (Emit (sig_done (final_path plain_cfg)))
     (log (exec (fun b => b) evs (init plain_cfg)))
  /\ exists cmd,
       In (PopenCall cmd) (log (exec (fun b => b) evs (init plain_cfg))).
Proof.
  intros evs.
  assert (H : In (Emit (sig_done (final_path plain_cfg)))
                (log (exec (fun b => b) evs (init plain_cfg))))
    by (right; right; left; reflexivity).
  split; [exact H|].
  exact (proj1 (proj2 (done_needs_spawn (fun b => b) plain_cfg evs _ H))).
Defined.

End RecorderTraces.

(* ================================================================== *)
(** * The recorder: the stop flag *)
(* ================================================================== *)

Module RecorderStops.

Import Recorder Session ProcessFacts RecorderTraces.

Lemma stop_sets_flag (o : stop_obs) (t : RecorderThread) :
  _stop (stop o t) = true.
Proof.
  unfold stop. destruct (_proc t) as [p|]; [|reflexivity].
  destruct (exit_status p); [reflexivity|].
  destruct (exited_in_time o); reflexivity.
Qed.

Lemma stop_no_new_error (o : stop_obs) (t : RecorderThread) :
  no_new_error t (stop o t).
Proof.
  intros msg Hin. destruct (stop_log o t) as (l & Hl & Hq).
  rewrite Hl in Hin. apply in_app_or in Hin as [Hin|Hin]; auto.
  destruct (Hq _ Hin); discriminate.
Qed.

(** With the flag set and the worker waiting, a step keeps both, or lets
    the worker return with [sig_done]; it adds no [sig_error]. *)
Lemma step_flagged (decode : string -> string) (t : RecorderThread)
    (final : string) (ev : event) :
  _stop t = true -> at_ t = Waiting final ->
  _stop (step decode t ev) = true
  /\ no_new_error t (step decode t ev)
  /\ (at_ (step decode t ev) = Waiting final
      \/ (at_ (step decode t ev) = Returned
          /\ In (Emit (sig_done final)) (log (step decode t ev)))).
Proof.
  intros Hflag Hat. destruct ev as [e sp|rc|o|o]; simpl.
  - unfold run_start. rewrite Hat. split; [exact Hflag|].
    split; [intros msg H; exact H|left; exact Hat].
  - unfold child_exit. destruct (_proc t) as [p|];
      [destruct (exit_status p)|]; simpl;
      (split; [exact Hflag|]); (split; [intros msg H; exact H|left; exact Hat]).
  - unfold run_finish. rewrite Hat.
    destruct (_proc t) as [p|];
      [|split; [exact Hflag|];
        split; [intros msg H; exact H|left; exact Hat]].
    destruct (exit_status p);
      [|split; [exact Hflag|];
        split; [intros msg H; exact H|left; exact Hat]].
    simpl. rewrite Hflag. simpl. split; [reflexivity|]. split.
    + intros msg Hin. apply in_app_or in Hin as [Hin|[Hin|[]]];
        [exact Hin|discriminate].
    + right. split; [reflexivity|]. apply in_or_app; right; left; reflexivity.
  - split; [apply stop_sets_flag|]. split; [apply stop_no_new_error|].
    left. rewrite stop_position. exact Hat.
Qed.

(** Once the worker has returned, nothing is emitted any more. *)
Lemma step_returned (decode : string -> string) (t : RecorderThread)
    (ev : event) :
  at_ t = Returned ->
  at_ (step decode t ev) = Returned
  /\ no_new_error t (step decode t ev)
  /\ (forall a, In a (log t) -> In a (log (step decode t ev))).
Proof.
  intros Hat.
  destruct (step_log_extends decode t ev) as [l Hl].
  assert (Hkeep : forall a, In a (log t) -> In a (log (step decode t ev))).
  { intros a Ha. rewrite Hl. apply in_or_app; auto. }
  destruct ev as [e sp|rc|o|o]; simpl in *.
  - unfold run_start in *. rewrite Hat in *.
    split; [exact Hat|]. split; [intros msg H; exact H|exact Hkeep].
  - unfold child_exit in *. destruct (_proc t) as [p|];
      [destruct (exit_status p)|]; simpl in *;
      (split; [exact Hat|]); (split; [intros msg H; exact H|exact Hkeep]).
  - unfold run_finish in *. rewrite Hat in *.
    split; [exact Hat|]. split; [intros msg H; exact H|exact Hkeep].
  - split; [rewrite stop_position; exact Hat|].
    split; [apply stop_no_new_error|exact Hkeep].
Qed.

Lemma exec_returned (decode : string -> string) (evs : list event) :
  forall t, at_ t = Returned ->
    at_ (exec decode evs t) = Returned
    /\ no_new_error t (exec decode evs t)
    /\ (forall a, In a (log t) -> In a (log (exec decode evs t))).
Proof.
  induction evs as [|ev evs IH]; intros t Hat.
  - split; [exact Hat|]. split; [intros msg H; exact H|auto].
  - destruct (step_returned decode t ev Hat) as (Hat1 & Hne1 & Hk1).
    destruct (IH _ Hat1) as (Hat2 & Hne2 & Hk2).
    split; [exact Hat2|]. split; [|intros a Ha; apply Hk2, Hk1, Ha].
    intros msg Hin. apply Hne1, Hne2, Hin.
Qed.

Lemma exec_flagged (decode : string -> string) (evs : list event) :
  forall (t : RecorderThread) (final : string),
    _stop t = true -> at_ t = Waiting final ->
    no_new_error t (exec decode evs t)
    /\ (at_ (exec decode evs t) = Waiting final
        \/ (at_ (exec decode evs t) = Returned
            /\ In (Emit (sig_done final)) (log (exec decode evs t)))).
Proof.
  induction evs as [|ev evs IH]; intros t final Hflag Hat.
  - split; [intros msg H; exact H|left; exact Hat].
  - destruct (step_flagged decode t final ev Hflag Hat)
      as (Hflag1 & Hne1 & [Hat1 | [Hat1 Hdone]]).
    + destruct (IH _ final Hflag1 Hat1) as (Hne2 & Hres).
      split; [|exact Hres]. intros msg Hin. apply Hne1, Hne2, Hin.
    + destruct (exec_returned decode evs _ Hat1) as (Hat2 & Hne2 & Hk2).
      split; [intros msg Hin; apply Hne1, Hne2, Hin|].
      right. split; [exact Hat2|]. apply Hk2, Hdone.
Qed.

(** X14: a stop request hides a failure: once [stop] has been called
    while the worker waits for the encoder, no [sig_error] is emitted any
    more, whatever the return code and whether or not the output file
    exists; when the worker returns, it has emitted [sig_done] with the
    final path. *)
Theorem stop_hides_failure (decode : string -> string) (t : RecorderThread)
    (final : string) (o : stop_obs) (evs : list event) :
  at_ t = Waiting final ->
  (forall msg,
      In (Emit (sig_error msg)) (log (exec decode (Stop o :: evs) t)) ->
      In (Emit (sig_error msg)) (log t))
  /\ (at_ (exec decode (Stop o :: evs) t) = Returned ->
      In (Emit (sig_done final)) (log (exec decode (Stop o :: evs) t))).
Proof.
  intros Hat.
  assert (Hat1 : at_ (stop o t) = Waiting final)
    by (rewrite stop_position; exact Hat).
  destruct (exec_flagged decode evs (stop o t) final
              (stop_sets_flag o t) Hat1) as (Hne & Hres).
  split.
  - intros msg Hin. apply (stop_no_new_error o t), Hne, Hin.
  - intros Hret. destruct Hres as [Hw | [_ Hd]]; [|exact Hd].
    change (exec decode (Stop o :: evs) t)
      with (exec decode evs (stop o t)) in Hret. congruence.
Qed.

Lemma stop_hides_failure_witness :
  let t := run_start plain_host Started (init plain_cfg) in
  let evs := [ChildExit 1; RunFinish (mkExitObs (Some "x11grab: error") false)] in
  at_ (exec (fun b => b) (Stop timed_out :: evs) t) = Returned
  /\ In (Emit (sig_done (final_path plain_cfg)))
        (log (exec (fun b => b) (Stop timed_out :: evs) t)).
Proof.
  intros t evs. split; [reflexivity|].
  exact (proj2 (stop_hides_failure (fun b => b) t (final_path plain_cfg)
                  timed_out evs eq_refl) eq_refl).
Defined.

(** X15: a stop request that arrives before [run] has spawned the
    encoder stops nothing: [run] does exactly what it does without it
    (the encoder is spawned and is sent neither a quit command nor a
    termination request); only the flag stays set, so that when the
    encoder ends by itself the session reports [sig_done], whatever the
    return code and even without output file. *)
Theorem early_stop_is_lost (decode : string -> string) (c : Cfg) (e : host)
    (sp : popen_result) (o : stop_obs) :
  let t := exec decode [Stop o; RunStart e sp] (init c) in
  log t = log (exec decode [RunStart e sp] (init c))
  /\ _proc t = _proc (exec decode [RunStart e sp] (init c))
  /\ _stop t = true
  /\ (too_small c e = false -> sp = Started ->
      child_running t
      /\ forall rc ob,
           log (exec decode [ChildExit rc; RunFinish ob] t)
           = log t ++ [Emit (sig_done (final_path c))]).
Proof.
  unfold exec; simpl. unfold run_start; simpl.
  destruct (too_small c e).
  - repeat split; discriminate.
  - destruct sp; simpl; repeat split; try discriminate.
    eexists; split; reflexivity.
Qed.

Lemma early_stop_is_lost_witness :
  let t := exec (fun b => b) [Stop timed_out; RunStart plain_host Started]
             (init plain_cfg) in
  too_small plain_cfg plain_host = false
  /\ write_count t = 0%nat /\ terminate_count t = 0%nat
  /\ log (exec (fun b => b)
            [ChildExit 1; RunFinish (mkExitObs None false)] t)
     = log t ++ [Emit (sig_done (final_path plain_cfg))].
Proof.
  intros t. split; [reflexivity|]. split; [reflexivity|].
  split; [reflexivity|].
  exact (proj2 (proj2 (proj2 (proj2
           (early_stop_is_lost (fun b => b) plain_cfg plain_host Started
              timed_out))) eq_refl eq_refl) 1 (mkExitObs None false)).
Defined.

(** Steps of a thread whose worker has started and whose child does not
    run: the child is never written to or signalled. *)
Lemma step_after_child (decode : string -> string) (t : RecorderThread)
    (ev : event) :
  at_ t <> NotStarted -> ~ child_running t ->
  at_ (step decode t ev) <> NotStarted
  /\ ~ child_running (step decode t ev)
  /\ write_count (step decode t ev) = write_count t
  /\ terminate_count (step decode t ev) = terminate_count t.
Proof.
  intros Hat Hrun. destruct ev as [e sp|rc|o|o]; simpl.
  - unfold run_start. destruct (at_ t) eqn:Hat'; try congruence;
      rewrite ?Hat'; repeat split; auto; discriminate.
  - unfold child_exit. destruct (_proc t) as [p|] eqn:Hp; [|auto].
    destruct (exit_status p) eqn:He; [auto|].
    exfalso; apply Hrun; exists p; auto.
  - unfold run_finish. destruct (at_ t) eqn:Hat'; try congruence;
      rewrite ?Hat'; try (repeat split; auto; discriminate).
    destruct (_proc t) as [p|] eqn:Hp;
      [|rewrite Hat'; repeat split; auto; discriminate].
    destruct (exit_status p) eqn:He;
      [|exfalso; apply Hrun; exists p; auto].
    unfold write_count, terminate_count, child_running; simpl.
    rewrite !count_app. split; [discriminate|]. split.
    + intros (p' & Hp' & He'). rewrite ?Hp in Hp'. injection Hp' as <-.
      congruence.
    + destruct (_stop t || final_exists o); unfold count; simpl; lia.
  - rewrite stop_position. split; [exact Hat|].
    unfold write_count, terminate_count.
    rewrite (stop_without_child o t Hrun).
    split; [|auto].
    unfold child_running, stop in *.
    destruct (_proc t) as [p|] eqn:Hp.
    + destruct (exit_status p) eqn:He.
      * simpl. intros (p' & Hp' & He'). injection Hp' as <-. congruence.
      * exfalso. apply Hrun. exists p; auto.
    + simpl. intros (p' & Hp' & _). discriminate.
Qed.

(** X16: once the encoder has ended, [stop] leaves it alone: from a
    state in which the worker has started and no child runs, no sequence
    of steps writes a quit command or calls [terminate]. *)
Theorem no_signal_after_exit (decode : string -> string)
    (t : RecorderThread) (evs : list event) :
  at_ t <> NotStarted -> ~ child_running t ->
  write_count (exec decode evs t) = write_count t
  /\ terminate_count (exec decode evs t) = terminate_count t.
Proof.
  revert t. induction evs as [|ev evs IH]; intros t Hat Hrun; [auto|].
  destruct (step_after_child decode t ev Hat Hrun) as (Hat1 & Hrun1 & Hw & Ht).
  destruct (IH _ Hat1 Hrun1) as [Hw2 Ht2].
  change (exec decode (ev :: evs) t) with (exec decode evs (step decode t ev)).
  rewrite Hw2, Ht2. auto.
Qed.

Lemma no_signal_after_exit_witness :
  let t := exec (fun b => b) [RunStart plain_host Started; ChildExit 0]
             (init plain_cfg) in
  ~ child_running t
  /\ terminate_count
       (exec (fun b => b) [Stop timed_out; Stop timed_out] t) = 0%nat.
Proof.
  intros t.
  assert (Hrun : ~ child_running t).
  { intros (p & Hp & He). injection Hp as <-. discriminate. }
  split; [exact Hrun|].
  rewrite (proj2 (no_signal_after_exit (fun b => b) t
                    [Stop timed_out; Stop timed_out]
                    ltac:(discriminate) Hrun)).
  reflexivity.
Defined.

End RecorderStops.

(* ================================================================== *)
(** * The overlay's decorations *)
(* ================================================================== *)

Module PaintFacts.

Import Paint.

(** X17: the size badge never covers the selection: it ends above the
    selection's first row, and then it starts below the 44 rows of the
    instruction bar, or it starts below the selection's last row; and it
    never starts left of column 4 or left of the selection. *)
Theorem badge_clear_of_selection (sel : QRect) (tw th : Z) :
  let '(bx, by_, bw, bh) := badge sel tw th in
  4 <= bx /\ x sel <= bx
  /\ ((by_ + bh <= top sel /\ bar_height <= by_) \/ bottom sel < by_).
Proof.
  unfold badge, badge_y, bar_height, top, bottom, x, y, height.
  split; [lia|]. split; [lia|].
  destruct (Z.ltb_spec (y1 sel - th - 10) 50); [right|left]; lia.
Qed.

Lemma between_quot (a b : Z) : a <= b -> a <= Z.quot (a + b) 2 <= b.
Proof.
  intros H.
  pose proof (Z.quot_rem' (a + b) 2) as Hq.
  destruct (Z_le_gt_dec 0 (a + b)) as [Hs|Hs].
  - pose proof (Z.rem_bound_pos (a + b) 2 Hs ltac:(lia)). lia.
  - pose proof (Z.rem_bound_pos_neg (a + b) 2 ltac:(lia) ltac:(lia)). lia.
Qed.

(** X18: handles are drawn only on a selection that is not null and
    more than 4 pixels wide and high; a smaller selection gets none.
    Then there are eight of them, each an 8 x 8 square whose centre
    point lies on the border of the selection: four on the corners, four
    in the middle of the sides. *)
Theorem handles_on_border (sel : QRect) :
  (isNull sel = true \/ width sel <= 4 \/ height sel <= 4 ->
   handles sel = [])
  /\ (isNull sel = false -> 4 < width sel -> 4 < height sel ->
      List.length (handles sel) = 8%nat
      /\ forall b, In b (handles sel) ->
           exists pt,
             b = (px pt - 4, py pt - 4, 8, 8)
             /\ left sel <= px pt <= right sel
             /\ top sel <= py pt <= bottom sel
             /\ (px pt = left sel \/ px pt = right sel
                 \/ py pt = top sel \/ py pt = bottom sel)).
Proof.
  unfold handles, decorated. split.
  - intros [Hn|[Hw|Hh]].
    + rewrite Hn. reflexivity.
    + destruct (Z.ltb_spec 4 (width sel)); [lia|].
      rewrite andb_false_r. reflexivity.
    + destruct (Z.ltb_spec 4 (height sel)); [lia|].
      rewrite andb_false_r. reflexivity.
  - intros Hn Hw Hh. rewrite Hn.
    destruct (Z.ltb_spec 4 (width sel)); [|lia].
    destruct (Z.ltb_spec 4 (height sel)); [|lia].
    cbn [negb andb]. split; [reflexivity|].
    assert (Hx : x1 sel <= x2 sel) by (unfold width in Hw; lia).
    assert (Hy : y1 sel <= y2 sel) by (unfold height in Hh; lia).
    pose proof (between_quot _ _ Hx) as Hcx.
    pose proof (between_quot _ _ Hy) as Hcy.
    intros b Hb. apply in_map_iff in Hb as (pt & <- & Hpt).
    exists pt. split; [reflexivity|].
    unfold corners, center, left, right, top, bottom in *; simpl in Hpt.
    repeat match type of Hpt with
           | _ \/ _ => destruct Hpt as [Hpt|Hpt]
           | False => contradiction
           end; subst pt; simpl; lia.
Qed.

Lemma handles_on_border_witness :
  handles (QRect_xywh 100 40 3 3) = []
  /\ handles (QRect_xywh 100 40 4 90) = []
  /\ In (195, 36, 8, 8) (handles (QRect_xywh 100 40 200 150))
  /\ exists pt, (195, 36, 8, 8) = (px pt - 4, py pt - 4, 8, 8).
Proof.
  split; [|split].
  - apply (proj1 (handles_on_border (QRect_xywh 100 40 3 3))).
    right; left. unfold width; simpl; lia.
  - apply (proj1 (handles_on_border (QRect_xywh 100 40 4 90))).
    right; left. unfold width; simpl; lia.
  - assert (H : In (195, 36, 8, 8) (handles (QRect_xywh 100 40 200 150)))
      by (do 4 right; left; reflexivity).
    split; [exact H|].
    destruct (proj2 (proj2 (handles_on_border (QRect_xywh 100 40 200 150))
                           eq_refl ltac:(unfold width; simpl; lia)
                           ltac:(unfold height; simpl; lia))
                _ H) as (pt & Hpt & _).
    exists pt. exact Hpt.
Defined.

End PaintFacts.

(* ================================================================== *)
(** * The recording timer *)
(* ================================================================== *)

Module TimerFacts.

Import Timer Text PyFacts StringFacts.

Lemma str_nonneg (n : Z) :
  0 <= n ->
  exists d, d <> Decimal.Nil /\ Py.str n = NilEmpty.string_of_uint d
            /\ digits_value d 0 = n.
Proof.
  intros Hn.
  destruct (str_shape n) as [(d & Hd & Hs & _ & Hv) | (d & _ & _ & Hneg & _)].
  - exists d; auto.
  - lia.
Qed.

(** Reading back a number printed with [{n:02d}]. *)
Lemma int_fmt_02d (n : Z) : 0 <= n -> Py.int (fmt_02d n) = Some n.
Proof.
  intros Hn. unfold fmt_02d.
  destruct (String.length (Py.str n) <? 2)%nat; [|apply int_str].
  destruct (str_nonneg n Hn) as (d & Hd & Hs & Hv).
  unfold Py.int. rewrite strip_word.
  - change ("0" +++ Py.str n) with (String "0" (Py.str n)). cbv beta iota.
    replace (Py.code "0" =? 45)%N with false by reflexivity.
    replace (Py.code "0" =? 43)%N with false by reflexivity.
    rewrite (parse_digit_step "0" (Py.str n) 0 0 false eq_refl).
    rewrite Hs, parse_printed_digits. change (10 * 0 + 0) with 0.
    destruct d; try congruence; rewrite Hv; reflexivity.
  - pose proof (str_is_word n) as Hw. unfold is_word in *. simpl.
    apply andb_true_iff in Hw as [_ Hw]. exact Hw.
Qed.

Lemma fmt_02d_two (k : nat) :
  (k < 60)%nat -> String.length (fmt_02d (Z.of_nat k)) = 2%nat.
Proof.
  intros Hk.
  do 60 (destruct k as [|k]; [reflexivity|]). lia.
Qed.

Lemma fmt_02d_at_least_two (n : Z) : (2 <= String.length (fmt_02d n))%nat.
Proof.
  unfold fmt_02d.
  destruct (Nat.ltb_spec (String.length (Py.str n)) 2); [|assumption].
  pose proof (str_is_word n) as Hw. unfold is_word in Hw.
  destruct (Py.str n); simpl in *; [discriminate|lia].
Qed.

(** X19: the timer label reads "MM:SS": after a tick the label is the
    minutes, a colon and the seconds, where the seconds take exactly two
    characters and are below 60, the minutes take at least two, and
    reading both numbers back gives the elapsed seconds. *)
Theorem tick_label_reads_back (rec_seconds : Z) :
  0 <= rec_seconds ->
  exists mm ss m s,
    _tick rec_seconds = (rec_seconds + 1, mm +++ ":" +++ ss)
    /\ Py.int mm = Some m /\ Py.int ss = Some s
    /\ 60 * m + s = rec_seconds + 1 /\ 0 <= s < 60
    /\ String.length ss = 2%nat /\ (2 <= String.length mm)%nat.
Proof.
  intros H.
  pose proof (Z.mod_pos_bound (rec_seconds + 1) 60 ltac:(lia)) as Hs.
  pose proof (Z.div_mod (rec_seconds + 1) 60 ltac:(lia)) as Hdm.
  assert (Hm : 0 <= (rec_seconds + 1) / 60) by (apply Z.div_pos; lia).
  exists (fmt_02d ((rec_seconds + 1) / 60)),
         (fmt_02d ((rec_seconds + 1) mod 60)),
         ((rec_seconds + 1) / 60), ((rec_seconds + 1) mod 60).
  split; [reflexivity|].
  split; [apply int_fmt_02d; exact Hm|].
  split; [apply int_fmt_02d; lia|].
  split; [lia|]. split; [lia|].
  split; [|apply fmt_02d_at_least_two].
  rewrite <- (Z2Nat.id ((rec_seconds + 1) mod 60)) by lia.
  apply fmt_02d_two. lia.
Qed.

Lemma tick_label_reads_back_witness :
  exists mm ss,
    _tick 3724 = (3725, mm +++ ":" +++ ss)
    /\ Py.int mm = Some 62 /\ Py.int ss = Some 5.
Proof.
  destruct (tick_label_reads_back 3724 ltac:(lia))
    as (mm & ss & m & s & Ht & Hm & Hs & Hsum & Hlt & _).
  exists mm, ss. split; [exact Ht|].
  assert (m = 62 /\ s = 5) as [-> ->] by lia. auto.
Defined.

End TimerFacts.

(* ================================================================== *)
(** * Facts about paths *)
(* ================================================================== *)

Module PathFacts.

Import Text StringFacts.

Lemma lacks_app (c : ascii) (a b : string) :
  lacks c (a +++ b) = lacks c a && lacks c b.
Proof.
  induction a as [|d a IH]; simpl; [reflexivity|].
  rewrite IH, andb_assoc. reflexivity.
Qed.

Lemma rfind_from_lacks (c : ascii) (s : string) :
  forall i, lacks c s = true -> Py.rfind_from c s i = -1.
Proof.
  induction s as [|d s IH]; intros i H; simpl; [reflexivity|].
  simpl in H. apply andb_true_iff in H as [Hd Hs].
  rewrite (IH _ Hs). apply negb_true_iff in Hd. rewrite Hd. reflexivity.
Qed.

Lemma rfind_from_range (c : ascii) (s : string) :
  forall i, 0 <= i ->
    Py.rfind_from c s i = -1
    \/ i <= Py.rfind_from c s i < i + Z.of_nat (String.length s).
Proof.
  induction s as [|d s IH]; intros i Hi; [left; reflexivity|].
  cbn [Py.rfind_from String.length].
  destruct (IH (i + 1) ltac:(lia)) as [Hr|Hr].
  - rewrite Hr. replace (0 <=? -1) with false by reflexivity.
    destruct (Ascii.eqb c d); [right; lia|left; reflexivity].
  - destruct (Z.leb_spec 0 (Py.rfind_from c s (i + 1))); [right; lia|lia].
Qed.

Lemma rfind_from_app_lacks (c : ascii) (D T : string) :
  forall i, lacks c T = true ->
    Py.rfind_from c (D +++ T) i = Py.rfind_from c D i.
Proof.
  induction D as [|d D IH]; intros i H.
  - simpl. apply rfind_from_lacks; exact H.
  - cbn [String.append Py.rfind_from]. rewrite (IH _ H). reflexivity.
Qed.

Lemma rfind_from_last (c : ascii) (A B : string) :
  forall i, 0 <= i -> lacks c B = true ->
    Py.rfind_from c (A +++ String c B) i = i + Z.of_nat (String.length A).
Proof.
  induction A as [|a A IH]; intros i Hi H.
  - cbn [String.append Py.rfind_from String.length].
    rewrite (rfind_from_lacks c B _ H). replace (0 <=? -1) with false by reflexivity.
    rewrite Ascii.eqb_refl. simpl. lia.
  - cbn [String.append Py.rfind_from String.length].
    rewrite (IH (i + 1) ltac:(lia) H).
    destruct (Z.leb_spec 0 (i + 1 + Z.of_nat (String.length A))); lia.
Qed.

Lemma all_dots_get (s : string) :
  forall (i : nat) (c : ascii),
    Py.all_dots s = true -> String.get i s = Some c -> c = "."%char.
Proof.
  induction s as [|d s IH]; intros i c H Hg; [destruct i; discriminate|].
  simpl in H. apply andb_true_iff in H as [Hd Hs].
  destruct i; simpl in Hg.
  - injection Hg as <-. apply Ascii.eqb_eq in Hd. exact Hd.
  - exact (IH i c Hs Hg).
Qed.

(** The extension of a path whose last component is [name] followed by
    a dot and [e], where neither [name] nor [e] holds a dot or a slash
    and [name] is not empty: whatever the directory part [D] is. *)
Lemma splitext_stem (D name e : string) :
  name <> EmptyString ->
  lacks "/" name = true -> lacks "." name = true ->
  lacks "/" e = true -> lacks "." e = true ->
  Py.splitext (D +++ name +++ String "." e) = (D +++ name, String "." e).
Proof.
  intros Hne Hsn Hdn Hse Hde.
  set (p := D +++ name +++ String "." e).
  assert (Hp : p = (D +++ name) +++ String "." e)
    by (unfold p; rewrite append_assoc; reflexivity).
  assert (Hdot : Py.rfind "." p
                 = Z.of_nat (String.length (D +++ name))).
  { unfold Py.rfind. rewrite Hp, rfind_from_last by (auto; lia). lia. }
  assert (Hsep : Py.rfind "/" p = Py.rfind "/" D).
  { unfold Py.rfind, p. apply rfind_from_app_lacks.
    rewrite lacks_app. simpl. rewrite Hsn, Hse. reflexivity. }
  assert (Hrange : Py.rfind "/" D = -1
                   \/ 0 <= Py.rfind "/" D < Z.of_nat (String.length D)).
  { destruct (rfind_from_range "/" D 0 ltac:(lia)) as [H|H];
      [left; exact H|right; unfold Py.rfind; lia]. }
  assert (Hlen : String.length (D +++ name)
                 = (String.length D + String.length name)%nat)
    by apply length_append.
  assert (Hnl : (1 <= String.length name)%nat).
  { destruct name; [congruence|simpl; lia]. }
  unfold Py.splitext. fold p. rewrite Hdot, Hsep.
  assert (Hlt : (Py.rfind "/" D <? Z.of_nat (String.length (D +++ name)))
                = true).
  { apply Z.ltb_lt. rewrite Hlen. lia. }
  rewrite Hlt. cbn [andb].
  assert (Hnd : Py.all_dots
                  (Py.slice p (Py.rfind "/" D + 1)
                     (Z.of_nat (String.length (D +++ name)))) = false).
  { destruct (Py.all_dots _) eqn:Had; [exfalso|reflexivity].
    destruct name as [|n0 name']; [congruence|].
    unfold Py.slice in Had.
    set (a := Z.to_nat (Py.rfind "/" D + 1)) in *.
    set (m := Z.to_nat (Z.of_nat (String.length (D +++ String n0 name'))
                        - (Py.rfind "/" D + 1))) in *.
    assert (Ha : (a <= String.length D)%nat) by (unfold a; lia).
    assert (Hm : (String.length D - a < m)%nat)
      by (unfold m, a; rewrite Hlen; simpl; lia).
    pose proof (substring_correct1 p a m (String.length D - a) Hm) as Hg.
    replace (String.length D - a + a)%nat with (0 + String.length D)%nat
      in Hg by lia.
    unfold p in Hg at 2.
    rewrite <- (append_correct2 D (String n0 name' +++ String "." e) 0)
      in Hg.
    simpl in Hg.
    pose proof (all_dots_get _ _ _ Had Hg) as Hc. subst n0.
    simpl in Hdn. discriminate. }
  rewrite Hnd. cbn [negb]. unfold Py.slice.
  rewrite Z.sub_0_r, Nat2Z.id. change (Z.to_nat 0) with 0%nat.
  rewrite Hp at 1. rewrite substring_prefix.
  rewrite Hp, substring_suffix; [reflexivity|].
  rewrite length_append. lia.
Qed.

End PathFacts.

(* ================================================================== *)
(** * From the selection to the recorder *)
(* ================================================================== *)

Module WindowFacts.

Import Overlay Window Text StringFacts PathFacts QtFacts CommandFacts.

Lemma area_step_consistent (w : KomoCap) (ev : area_event) :
  area_consistent w -> area_consistent (area_step w ev).
Proof.
  intros H. destruct ev as [|[rect|]]; simpl.
  - left. split; reflexivity.
  - right. split; [reflexivity|]. exists rect; reflexivity.
  - unfold _on_rec_area_cancel. destruct (no_area w); [|exact H].
    left. split; reflexivity.
Qed.

Lemma area_steps_consistent (evs : list area_event) :
  forall w, area_consistent w -> area_consistent (fold_left area_step evs w).
Proof.
  induction evs as [|ev evs IH]; intros w H; [exact H|].
  simpl. apply IH, area_step_consistent, H.
Qed.

(** X20: mode and stored rectangle never disagree: after any sequence of
    clicks on "Full Screen" and answers of the area selector, the mode is
    "full" with no rectangle stored, or "area" with one; so the area
    handed to the recorder is always the stored rectangle, and a
    cancelled selection keeps an earlier valid rectangle. *)
Theorem area_follows_mode (dir fps : string) (qi : Z) (au cam : bool)
    (pos size : string) (evs : list area_event) (n : Z) (now : string) :
  let w := fold_left area_step evs (fresh dir fps qi au cam pos size) in
  area_consistent w
  /\ Recorder.area (recording_cfg w n now) = rec_area_rect w
  /\ (forall r, rec_area_rect w = Some r -> QRect_bool r = true ->
        area_step w (Selection cancelled) = w).
Proof.
  intros w.
  assert (H : area_consistent w).
  { apply area_steps_consistent. left; split; reflexivity. }
  split; [exact H|]. split.
  - unfold recording_cfg; simpl.
    destruct H as [[Hm Hr] | [Hm _]]; rewrite Hm; simpl; auto.
  - intros r Hr Hv. simpl. unfold _on_rec_area_cancel, no_area.
    rewrite Hr, Hv. reflexivity.
Qed.

Lemma area_follows_mode_witness :
  let w := fold_left area_step
             [Selection (area_selected (QRect_xywh 5 5 300 200));
              Selection cancelled]
             (fresh "/tmp" "30 FPS" 2 false false "top-left" "small") in
  rec_area_rect w = Some (QRect_xywh 5 5 300 200)
  /\ area_step w (Selection cancelled) = w.
Proof.
  intros w. split; [reflexivity|].
  exact (proj2 (proj2 (area_follows_mode "/tmp" "30 FPS" 2 false false
                         "top-left" "small"
                         [Selection (area_selected (QRect_xywh 5 5 300 200));
                          Selection cancelled] 30 EmptyString))
               (QRect_xywh 5 5 300 200) eq_refl eq_refl).
Defined.

Lemma accepted_area (c : Recorder.Cfg) (e : Recorder.host) (r : QRect) :
  Recorder.area c = Some r -> 2 <= width r -> 2 <= height r ->
  Recorder.geometry (Recorder.area c) (Recorder.screen e)
  = (x r, y r, 2 * (width r / 2), 2 * (height r / 2))
  /\ Recorder.too_small c e = false.
Proof.
  intros Ha Hw Hh.
  destruct (positive_is_valid r ltac:(lia) ltac:(lia)) as [Hv Hn].
  assert (Hg : Recorder.geometry (Recorder.area c) (Recorder.screen e)
               = (x r, y r, 2 * (width r / 2), 2 * (height r / 2))).
  { unfold Recorder.geometry. rewrite Ha, Hv, Hn.
    rewrite !clear_bit0_even_floor. reflexivity. }
  split; [exact Hg|].
  unfold Recorder.too_small. rewrite Hg.
  pose proof (Z.div_le_mono 2 (width r) 2 ltac:(lia) Hw) as H1.
  pose proof (Z.div_le_mono 2 (height r) 2 ltac:(lia) Hh) as H2.
  change (2 / 2) with 1 in H1, H2.
  apply orb_false_iff; split; apply Z.ltb_ge; lia.
Qed.

(** X21: a rectangle reported by the native selection tools and then
    recorded is always accepted: the recorder is created with that
    rectangle as its area, its [run] calls [Popen], and the command grabs
    at the rectangle's top-left corner with its width and height rounded
    down to even. *)
Theorem native_selection_is_recorded (en : Native.host) (r : QRect)
    (w w' : KomoCap) (now : string) (e : Recorder.host)
    (sp : Recorder.popen_result) :
  In (area_selected r) (Native._run_native en) ->
  busy w = false ->
  start_recording true now (on_selection (area_selected r) w) = Some w' ->
  exists c,
    recorder w' = Some (Recorder.init c)
    /\ Recorder.area c = Some r
    /\ In (Recorder.PopenCall (Recorder.command c e))
          (Recorder.log (Recorder.run_start e sp (Recorder.init c)))
    /\ nth_error (Recorder.command c e) 7
       = Some (Recorder.resolution (2 * (width r / 2)) (2 * (height r / 2)))
    /\ nth_error (Recorder.command c e) 9
       = Some (Session.grab_input e (x r) (y r)).
Proof.
  intros Hin Hbusy Hstart.
  destruct (NativeTools.run_native_selected en r Hin)
    as (_ & a & b & rw & rh & Hr & Hw & Hh & _).
  unfold start_recording in Hstart.
  cbn [on_selection] in Hstart. unfold _on_rec_area_done in Hstart.
  change (busy (with_area w (Some r) "area")) with (busy w) in Hstart.
  rewrite Hbusy in Hstart.
  change (rec_fps (with_area w (Some r) "area")) with (rec_fps w) in Hstart.
  destruct (first_int (rec_fps w)) as [n|]; [|discriminate].
  injection Hstart as <-.
  exists (recording_cfg (with_area w (Some r) "area") n now).
  split; [reflexivity|].
  assert (Ha : Recorder.area
                 (recording_cfg (with_area w (Some r) "area") n now)
               = Some r) by reflexivity.
  split; [exact Ha|].
  assert (Hw2 : 2 <= width r) by (subst r; rewrite width_xywh; lia).
  assert (Hh2 : 2 <= height r) by (subst r; rewrite height_xywh; lia).
  destruct (accepted_area _ e r Ha Hw2 Hh2) as [Hg Hts].
  split; [apply run_start_calls_popen; exact Hts|].
  rewrite (command_shape _ e _ _ _ _ Hg). split; reflexivity.
Qed.

Lemma native_selection_is_recorded_witness :
  let en := Native.mkHost true (Some (mkCompleted 0 "40 60 801 601"))
              false None false None in
  let w := fresh "/home/kali/KomoCap/Recordings" "30 FPS" 2 false false
             "bottom-right" "small (240x180)" in
  In (area_selected (QRect_xywh 40 60 801 601)) (Native._run_native en)
  /\ exists c,
       start_recording true "20260101_120000"
         (on_selection (area_selected (QRect_xywh 40 60 801 601)) w)
       = Some (with_recorder
                 (on_selection (area_selected (QRect_xywh 40 60 801 601)) w)
                 (Some (Recorder.init c)))
       /\ nth_error (Recorder.command c Recorder.plain_host) 7
          = Some "800x600".
Proof.
  intros en w.
  assert (Hin : In (area_selected (QRect_xywh 40 60 801 601))
                  (Native._run_native en)) by (left; reflexivity).
  split; [exact Hin|].
  destruct (native_selection_is_recorded en (QRect_xywh 40 60 801 601) w _
              "20260101_120000" Recorder.plain_host Recorder.Started
              Hin eq_refl eq_refl) as (c & Hrec & _ & _ & Hres & _).
  exists c. split.
  - simpl in Hrec. injection Hrec as <-. reflexivity.
  - exact Hres.
Defined.

(** X22: the recording lands in the recordings directory under the name
    "recording_<time stamp>" with the extension of the quality index,
    whatever the directory is called (dots in directory names are left
    alone), as long as the time stamp holds neither a dot nor a slash. *)
Theorem recording_path (w : KomoCap) (n : Z) (now : string) :
  lacks "." now = true -> lacks "/" now = true ->
  Recorder.final_path (recording_cfg w n now)
  = path_join (rec_dir w) ("recording_" +++ now)
    +++ Recorder.ext (rec_quality w).
Proof.
  intros Hd Hs.
  unfold Recorder.final_path, recording_cfg. cbn [Recorder.output Recorder.quality Recorder.get].
  f_equal.
  assert (Hname : forall D,
            Py.splitext (D +++ ("recording_" +++ now) +++ String "." "mp4")
            = (D +++ "recording_" +++ now, String "." "mp4")).
  { intros D. apply splitext_stem; try reflexivity.
    - discriminate.
    - rewrite lacks_app, Hs. reflexivity.
    - rewrite lacks_app, Hd. reflexivity. }
  assert (Hout : "recording_" +++ now +++ ".mp4"
                 = ("recording_" +++ now) +++ String "." "mp4")
    by (rewrite append_assoc; reflexivity).
  unfold path_join.
  change (String.prefix "/" ("recording_" +++ now +++ ".mp4")) with false.
  change (String.prefix "/" ("recording_" +++ now)) with false.
  cbv iota. rewrite Hout.
  destruct (Py.is_empty (rec_dir w) || ends_with "/" (rec_dir w)).
  - rewrite Hname. reflexivity.
  - rewrite <- (append_assoc (rec_dir w) "/").
    rewrite <- (append_assoc (rec_dir w) "/" ("recording_" +++ now)).
    rewrite Hname. reflexivity.
Qed.

Lemma recording_path_witness :
  Recorder.final_path
    (recording_cfg (fresh "/home/kali/my.videos" "30 FPS" 4 false false
                          "top-left" "small") 30 "20260101_120000")
  = "/home/kali/my.videos/recording_20260101_120000.mkv".
Proof.
  rewrite recording_path by reflexivity. reflexivity.
Defined.

End WindowFacts.

(* ================================================================== *)
(** * The screenshot worker *)
(* ================================================================== *)

Module ScreenshotFacts.

Import Screenshot Text PyFacts StringFacts QtFacts.

Lemma linebreak_is_space (c : ascii) :
  Py.is_linebreak c = true -> Py.isspace c = true.
Proof.
  unfold Py.is_linebreak, Py.isspace. generalize (Py.code c). intros n.
  repeat match goal with
         | |- context [(?a <=? ?b)%N] =>
             let E := fresh "E" in destruct (N.leb_spec a b) as [E|E]
         end; simpl; intros Hlb; try reflexivity; try discriminate; lia.
Qed.

Lemma no_space_app (a b : string) :
  no_space (a +++ b) = no_space a && no_space b.
Proof.
  induction a as [|c a IH]; simpl; [reflexivity|].
  rewrite IH, andb_assoc. reflexivity.
Qed.

Lemma word_no_space (w : string) : is_word w = true -> no_space w = true.
Proof. unfold is_word. intros H. apply andb_true_iff in H as [_ H]. exact H. Qed.

Lemma word_not_empty (w : string) : is_word w = true -> Py.is_empty w = false.
Proof.
  unfold is_word. intros H. apply andb_true_iff in H as [H _].
  apply negb_true_iff in H. exact H.
Qed.

Lemma not_linebreak (c : ascii) :
  Py.isspace c = false -> Py.is_linebreak c = false.
Proof.
  intros Hc. destruct (Py.is_linebreak c) eqn:E; [|reflexivity].
  apply linebreak_is_space in E. congruence.
Qed.

(** A line without white space, then a line feed. *)
Lemma splitlines_line (l rest : string) :
  no_space l = true ->
  Py.splitlines (l +++ String (ascii_of_nat 10) rest)
  = l :: Py.splitlines rest.
Proof.
  induction l as [|c l IH]; intros H.
  - reflexivity.
  - simpl in H. apply andb_true_iff in H as [Hc Hl].
    apply negb_true_iff in Hc.
    cbn [String.append Py.splitlines].
    rewrite (not_linebreak _ Hc), (IH Hl). reflexivity.
Qed.

Lemma splitlines_single (l : string) :
  is_word l = true -> Py.splitlines l = [l].
Proof.
  intros Hw. pose proof (word_no_space _ Hw) as Hl.
  pose proof (word_not_empty _ Hw) as Hne. clear Hw.
  revert Hne. induction l as [|c l IH]; intros Hne; [discriminate|].
  simpl in Hl. apply andb_true_iff in Hl as [Hc Hl].
  apply negb_true_iff in Hc.
  cbn [Py.splitlines]. rewrite (not_linebreak _ Hc).
  destruct l as [|d l']; [reflexivity|].
  rewrite (IH Hl eq_refl). reflexivity.
Qed.

Lemma rstrip_app (a b : string) :
  Py.is_empty (Py.rstrip b) = false ->
  Py.rstrip (a +++ b) = a +++ Py.rstrip b.
Proof.
  intros Hb. induction a as [|c a IH]; [reflexivity|].
  cbn [String.append Py.rstrip]. rewrite IH.
  assert (He : Py.is_empty (a +++ Py.rstrip b) = false).
  { destruct a; [exact Hb|reflexivity]. }
  rewrite He, andb_false_r. reflexivity.
Qed.

Lemma rstrip_trailing (s : string) (c : ascii) :
  Py.isspace c = true ->
  Py.rstrip (s +++ String c EmptyString) = Py.rstrip s.
Proof.
  intros Hc. induction s as [|a s IH].
  - simpl. rewrite Hc. reflexivity.
  - cbn [String.append Py.rstrip]. rewrite IH. reflexivity.
Qed.

Lemma join_lines_cons (l l2 : string) (r : list string) :
  join_lines (l :: l2 :: r)
  = l +++ String (ascii_of_nat 10) (join_lines (l2 :: r)).
Proof. reflexivity. Qed.

Lemma join_lines_not_empty (ls : list string) :
  ls <> [] -> all_words ls = true -> Py.is_empty (join_lines ls) = false.
Proof.
  destruct ls as [|l r]; [congruence|]. intros _ H.
  unfold all_words in H. simpl in H. apply andb_true_iff in H as [Hl _].
  pose proof (word_not_empty _ Hl) as Hne.
  destruct r as [|l2 r]; [exact Hne|].
  rewrite join_lines_cons. destruct l; [discriminate|reflexivity].
Qed.

Lemma rstrip_join_lines (ls : list string) :
  all_words ls = true -> Py.rstrip (join_lines ls) = join_lines ls.
Proof.
  induction ls as [|l r IH]; intros H; [reflexivity|].
  unfold all_words in H. simpl in H. apply andb_true_iff in H as [Hl Hr].
  destruct r as [|l2 r].
  - apply rstrip_no_space, word_no_space, Hl.
  - rewrite join_lines_cons.
    assert (Hne : Py.is_empty (join_lines (l2 :: r)) = false)
      by (apply join_lines_not_empty; [congruence|exact Hr]).
    specialize (IH Hr).
    assert (Hne' : Py.is_empty
                     (Py.rstrip (String (ascii_of_nat 10)
                                        (join_lines (l2 :: r)))) = false).
    { cbn [Py.rstrip]. rewrite IH, Hne, andb_false_r. reflexivity. }
    rewrite (rstrip_app _ _ Hne').
    cbn [Py.rstrip]. rewrite IH, Hne, andb_false_r. reflexivity.
Qed.

Lemma lstrip_join_lines (ls : list string) :
  all_words ls = true -> Py.lstrip (join_lines ls) = join_lines ls.
Proof.
  destruct ls as [|l r]; intros H; [reflexivity|].
  unfold all_words in H. simpl in H. apply andb_true_iff in H as [Hl _].
  pose proof (word_no_space _ Hl) as Hs.
  destruct l as [|c l]; [discriminate|].
  simpl in Hs. apply andb_true_iff in Hs as [Hc _].
  apply negb_true_iff in Hc.
  destruct r as [|l2 r].
  - cbn [join_lines Py.lstrip]. rewrite Hc. reflexivity.
  - rewrite join_lines_cons. cbn [String.append Py.lstrip].
    rewrite Hc. reflexivity.
Qed.

Lemma splitlines_join_lines (ls : list string) :
  all_words ls = true -> Py.splitlines (join_lines ls) = ls.
Proof.
  induction ls as [|l r IH]; intros H; [reflexivity|].
  unfold all_words in H. simpl in H. apply andb_true_iff in H as [Hl Hr].
  destruct r as [|l2 r].
  - apply splitlines_single, Hl.
  - rewrite join_lines_cons, (splitlines_line _ _ (word_no_space _ Hl)).
    rewrite (IH Hr). reflexivity.
Qed.

(** Lines of words, a line feed after the last one: stripped and split,
    the lines are back. *)
Lemma splitlines_strip_lines (ls : list string) :
  all_words ls = true ->
  Py.splitlines
    (Py.strip (join_lines ls +++ String (ascii_of_nat 10) EmptyString))
  = ls.
Proof.
  intros H. unfold Py.strip.
  destruct ls as [|l r] eqn:E.
  - reflexivity.
  - rewrite <- E in *.
    assert (Hl : Py.lstrip (join_lines ls
                            +++ String (ascii_of_nat 10) EmptyString)
                 = join_lines ls +++ String (ascii_of_nat 10) EmptyString).
    { pose proof (lstrip_join_lines ls H) as Hj.
      pose proof (join_lines_not_empty ls) as Hne.
      assert (Hn : ls <> []) by (rewrite E; congruence).
      specialize (Hne Hn H).
      destruct (join_lines ls) as [|c j]; [discriminate|].
      cbn [String.append Py.lstrip] in *.
      destruct (Py.isspace c) eqn:Hc; [|reflexivity].
      exfalso. clear - Hj.
      assert (Hlen : forall s, (String.length (Py.lstrip s)
                                <= String.length s)%nat).
      { induction s as [|a s IHs]; simpl; [lia|].
        destruct (Py.isspace a); simpl; lia. }
      specialize (Hlen j). rewrite Hj in Hlen. simpl in Hlen. lia. }
    rewrite Hl, rstrip_trailing by reflexivity.
    rewrite (rstrip_join_lines ls H).
    apply splitlines_join_lines, H.
Qed.

Lemma word_key_number (k : string) (n : Z) :
  is_word k = true -> is_word (k +++ Py.str n) = true.
Proof.
  intros Hk. unfold is_word. rewrite no_space_app.
  rewrite (word_no_space _ Hk), (word_no_space _ (str_is_word n)).
  destruct k; [discriminate|reflexivity].
Qed.

(** The lines of the text that [xdotool getwindowgeometry --shell]
    prints. *)
Lemma shell_geometry_lines (wid : string) (gx gy w h scr : Z) :
  no_space wid = true ->
  Py.splitlines (Py.strip (shell_geometry wid gx gy w h scr))
  = [ "WINDOW=" +++ wid; "X=" +++ Py.str gx; "Y=" +++ Py.str gy;
      "WIDTH=" +++ Py.str w; "HEIGHT=" +++ Py.str h;
      "SCREEN=" +++ Py.str scr ].
Proof.
  intros Hwid.
  set (ls := [ "WINDOW=" +++ wid; "X=" +++ Py.str gx; "Y=" +++ Py.str gy;
               "WIDTH=" +++ Py.str w; "HEIGHT=" +++ Py.str h;
               "SCREEN=" +++ Py.str scr ]).
  assert (Hshape : shell_geometry wid gx gy w h scr
                   = join_lines ls +++ String (ascii_of_nat 10) EmptyString).
  { unfold shell_geometry, Recorder.NL, ls. cbn [join_lines].
    repeat first [rewrite !append_assoc | progress cbn [String.append]].
    reflexivity. }
  rewrite Hshape. apply splitlines_strip_lines.
  unfold all_words, ls. cbn [forallb].
  rewrite !word_key_number by reflexivity.
  unfold is_word. rewrite no_space_app, Hwid. reflexivity.
Qed.

Lemma grab_full_without_pillow (h : host) :
  PIL_OK h = false -> Image_bound h = false -> _grab_full h = Raised no_tool.
Proof.
  intros HP HI. unfold _grab_full, scrot_succeeds. rewrite HP, HI.
  destruct (scrot_rc (scrot_full h)) as [rc|];
    rewrite ?andb_false_r; simpl; rewrite ?andb_false_r; reflexivity.
Qed.

Lemma grab_area_without_pillow (h : host) (a : QRect) :
  PIL_OK h = false -> Image_bound h = false ->
  _grab_area h a = Raised no_area_tool.
Proof.
  intros HP HI. unfold _grab_area, scrot_succeeds. rewrite HP, HI.
  destruct (scrot_rc (scrot_area h)) as [rc|];
    rewrite ?andb_false_r; simpl; rewrite ?andb_false_r; reflexivity.
Qed.

Lemma grab_window_without_pillow (h : host) :
  PIL_OK h = false -> Image_bound h = false ->
  _grab_window h = Raised no_tool.
Proof.
  intros HP HI. unfold _grab_window.
  destruct (xdotool_wid h), (xdotool_geo h) as [geo|];
    try (apply grab_full_without_pillow; assumption).
  destruct (window_rect geo) as [r|];
    [|apply grab_full_without_pillow; assumption].
  rewrite (grab_area_without_pillow h r HP HI).
  apply grab_full_without_pillow; assumption.
Qed.

Lemma window_rect_shell (wid : string) (gx gy w hh scr : Z) :
  no_space wid = true ->
  window_rect (shell_geometry wid gx gy w hh scr)
  = QRect_ints gx gy w hh.
Proof.
  intros Hwid. unfold window_rect, info_of.
  rewrite (shell_geometry_lines wid gx gy w hh scr Hwid).
  assert (Hk : forall k v, lacks "=" k = true ->
                           partition_eq (k +++ String "=" v) = (k, v)).
  { induction k as [|c k IH]; intros v Hl; [reflexivity|].
    cbn [lacks] in Hl. apply andb_true_iff in Hl as [Hc Hl].
    apply negb_true_iff in Hc. rewrite Ascii.eqb_sym in Hc.
    cbn [String.append partition_eq]. rewrite Hc, (IH v Hl). reflexivity. }
  cbn [fold_left].
  change ("WINDOW=" +++ wid) with ("WINDOW" +++ String "=" wid).
  change ("X=" +++ Py.str gx) with ("X" +++ String "=" (Py.str gx)).
  change ("Y=" +++ Py.str gy) with ("Y" +++ String "=" (Py.str gy)).
  change ("WIDTH=" +++ Py.str w) with ("WIDTH" +++ String "=" (Py.str w)).
  change ("HEIGHT=" +++ Py.str hh) with ("HEIGHT" +++ String "=" (Py.str hh)).
  change ("SCREEN=" +++ Py.str scr) with ("SCREEN" +++ String "=" (Py.str scr)).
  rewrite !Hk by reflexivity.
  rewrite !(strip_word (Py.str _)) by apply str_is_word.
  unfold info_int.
  change (Py.strip "X") with "X". change (Py.strip "Y") with "Y".
  change (Py.strip "WIDTH") with "WIDTH".
  change (Py.strip "HEIGHT") with "HEIGHT".
  change (Py.strip "SCREEN") with "SCREEN".
  change (Py.strip "WINDOW") with "WINDOW".
  cbn [info_get String.eqb Ascii.eqb Bool.eqb].
  rewrite !int_str. reflexivity.
Qed.

(** X23: [ScreenshotWorker.run] that ends without an exception has
    emitted exactly one signal: either one [sig_error], and then nothing
    was saved, or one [sig_done], and then the image was saved just before
    it, at the very path the signal carries, which is the "output" entry
    with its extension replaced by the one of the format. *)
Theorem screenshot_one_signal (c : Cfg) (h : host) (acts : list action) :
  run c h = Some acts ->
  exists out,
    output c = Some out /\
    ((exists msg, acts = [Emit_error msg]) \/
     (exists kw i,
        save_error h = None /\
        acts = [Save (save_path c out) (get (format c) "PNG") kw i;
                Emit_done (save_path c out)])).
Proof.
  unfold run. destruct (output c) as [out|]; [|discriminate].
  intros H. injection H as <-. exists out. split; [reflexivity|].
  destruct (grab c h) as [[img|]|msg];
    [|left; eexists; reflexivity|left; eexists; reflexivity].
  destruct (String.eqb (get (format c) "PNG") "JPEG").
  { destruct (convert_error h); [left; eexists; reflexivity|].
    destruct (save_error h); [left; eexists; reflexivity|].
    right. do 2 eexists. split; reflexivity. }
  destruct (String.eqb (get (format c) "PNG") "WEBP").
  { destruct (save_error h); [left; eexists; reflexivity|].
    right. do 2 eexists. split; reflexivity. }
  destruct (String.eqb (get (format c) "PNG") "PNG");
    (destruct (save_error h); [left; eexists; reflexivity|];
     right; do 2 eexists; split; reflexivity).
Qed.

Lemma screenshot_one_signal_witness :
  exists out,
    output (png_cfg "full" None) = Some out /\
    ((exists msg,
        [Save "/home/u/Pictures/shot.png" "PNG" [kw_optimize] ScrotFull;
         Emit_done "/home/u/Pictures/shot.png"] = [Emit_error msg]) \/
     (exists kw i,
        save_error (full_host true None) = None /\
        [Save "/home/u/Pictures/shot.png" "PNG" [kw_optimize] ScrotFull;
         Emit_done "/home/u/Pictures/shot.png"]
        = [Save (save_path (png_cfg "full" None) out)
                (get (format (png_cfg "full" None)) "PNG") kw i;
           Emit_done (save_path (png_cfg "full" None) out)])).
Proof.
  exact (screenshot_one_signal (png_cfg "full" None) (full_host true None)
           _ eq_refl).
Defined.

(** X24: Without Pillow (the import failed and left the name [Image]
    unbound) no screenshot is ever taken, whatever the mode and even
    where scrot is installed and works: the image that scrot wrote cannot
    be opened, and the run ends with one [sig_error] that asks to install
    scrot. *)
Theorem screenshot_needs_pillow (c : Cfg) (h : host) (acts : list action) :
  PIL_OK h = false ->
  Image_bound h = false ->
  run c h = Some acts ->
  acts = [Emit_error no_tool] \/ acts = [Emit_error no_area_tool].
Proof.
  intros HP HI. unfold run. destruct (output c) as [out|]; [|discriminate].
  intros H. injection H as <-.
  assert (Hg : grab c h = Raised no_tool \/ grab c h = Raised no_area_tool).
  { unfold grab.
    destruct (String.eqb (get (mode c) "full") "window").
    - left. apply grab_window_without_pillow; assumption.
    - destruct (area c) as [a|];
        [|left; apply grab_full_without_pillow; assumption].
      destruct (String.eqb (get (mode c) "full") "area" && QRect_bool a
                && negb (isNull a)).
      + right. apply grab_area_without_pillow; assumption.
      + left. apply grab_full_without_pillow; assumption. }
  destruct Hg as [-> | ->]; [left|right]; reflexivity.
Qed.

Lemma screenshot_needs_pillow_witness :
  scrot_installed (full_host false None) = true /\
  ([Emit_error no_tool] = [Emit_error no_tool] \/
   [Emit_error no_tool] = [Emit_error no_area_tool]).
Proof.
  split; [reflexivity|].
  exact (screenshot_needs_pillow (png_cfg "full" None) (full_host false None)
           _ eq_refl eq_refl eq_refl).
Defined.

(** X25: the geometry that [xdotool getwindowgeometry --shell] prints
    for a window at (gx, gy) of size w x h is read back as far as C
    [int]s reach.  When the four numbers fit a C [int], the rectangle
    built has that position and, read through [width()] and [height()],
    that size (it is the rectangle (gx, gy, w, h) itself when its far
    edges fit as well), and with a working scrot the window shot is the
    area shot "gx,gy,w,h".  When one of them does not fit, [QRect]
    raises and the window shot is the full-screen shot. *)
Theorem window_geometry_round_trip
        (h : host) (wid0 wid : string) (gx gy w hh scr : Z) :
  no_space wid = true ->
  xdotool_wid h = Some wid0 ->
  xdotool_geo h = Some (shell_geometry wid gx gy w hh scr) ->
  (is_int gx && is_int gy && is_int w && is_int hh = true ->
   (exists r,
      window_rect (shell_geometry wid gx gy w hh scr) = Some r
      /\ x r = gx /\ y r = gy /\ width_int r = w /\ height_int r = hh
      /\ (is_int (gx + w - 1) = true -> is_int (gy + hh - 1) = true ->
          r = QRect_xywh gx gy w hh))
   /\ (scrot_installed h = true ->
       scrot_succeeds h (scrot_area h) = true ->
       _grab_window h
       = Got (Some (ScrotArea (Py.str gx +++ "," +++ Py.str gy +++ ","
                               +++ Py.str w +++ "," +++ Py.str hh)))))
  /\ (is_int gx && is_int gy && is_int w && is_int hh = false ->
      window_rect (shell_geometry wid gx gy w hh scr) = None
      /\ _grab_window h = _grab_full h).
Proof.
  intros Hwid Hw Hg.
  pose proof (window_rect_shell wid gx gy w hh scr Hwid) as Hr.
  split.
  - intros Hfit.
    destruct (QRect_ints gx gy w hh) as [r|] eqn:Hints;
      [|unfold QRect_ints in Hints; rewrite Hfit in Hints; discriminate].
    destruct (QRect_ints_reads_back _ _ _ _ _ Hints) as (Hx & Hy & Hwi & Hhi).
    split.
    + exists r. repeat split; try assumption.
      intros Hex Hey.
      apply andb_true_iff in Hfit as [Hfit H4].
      apply andb_true_iff in Hfit as [Hfit H3].
      apply andb_true_iff in Hfit as [H1 H2].
      rewrite (QRect_ints_fits gx gy w hh H1 H2 H3 H4 Hex Hey) in Hints.
      congruence.
    + intros Hi Hs.
      unfold _grab_window. rewrite Hw, Hg, Hr.
      unfold _grab_area. rewrite Hi, Hs. cbn [andb].
      unfold area_spec. rewrite Hx, Hy, Hwi, Hhi. reflexivity.
  - intros Hout. rewrite (QRect_ints_none _ _ _ _ Hout) in Hr.
    split; [exact Hr|].
    unfold _grab_window. rewrite Hw, Hg, Hr. reflexivity.
Qed.

Lemma window_geometry_round_trip_witness :
  _grab_window
    (full_host true (Some (shell_geometry "62914564" (-8) 30 1296 728 0)))
  = Got (Some (ScrotArea "-8,30,1296,728"))
  /\ _grab_window
       (full_host true
          (Some (shell_geometry "62914564" 0 0 4294967296 728 0)))
     = Got (Some ScrotFull).
Proof.
  split.
  - exact (proj2 (proj1 (window_geometry_round_trip
                (full_host true
                   (Some (shell_geometry "62914564" (-8) 30 1296 728 0)))
                "62914564" "62914564" (-8) 30 1296 728 0
                eq_refl eq_refl eq_refl) eq_refl) eq_refl eq_refl).
  - exact (proj2 (proj2 (window_geometry_round_trip
                (full_host true
                   (Some (shell_geometry "62914564" 0 0 4294967296 728 0)))
                "62914564" "62914564" 0 0 4294967296 728 0
                eq_refl eq_refl eq_refl) eq_refl)).
Defined.

(** X26: The window shot degrades to the full-screen shot and fails
    only with it: when either call of xdotool raises it is the
    full-screen shot; whenever it raises, the full-screen shot raises
    the same error; and a geometry text that is blank gives the
    rectangle 1280 x 720 at the origin. *)
Theorem window_shot_degrades (h : host) :
  (xdotool_wid h = None \/ xdotool_geo h = None ->
   _grab_window h = _grab_full h) /\
  (forall msg, _grab_window h = Raised msg -> _grab_full h = Raised msg) /\
  (forall geo, Py.strip geo = EmptyString ->
               window_rect geo = Some (QRect_xywh 0 0 1280 720)).
Proof.
  split; [|split].
  - unfold _grab_window. intros [H|H]; rewrite H; [reflexivity|].
    destruct (xdotool_wid h); reflexivity.
  - intros msg. unfold _grab_window.
    destruct (xdotool_wid h); [|trivial].
    destruct (xdotool_geo h) as [geo|]; [|trivial].
    destruct (window_rect geo) as [r|]; [|trivial].
    destruct (_grab_area h r); [discriminate|trivial].
  - intros geo Hgeo. unfold window_rect, info_of. rewrite Hgeo. reflexivity.
Qed.

Lemma window_shot_degrades_witness :
  _grab_window (full_host true None) = _grab_full (full_host true None) /\
  _grab_full (full_host false None) = Raised no_tool /\
  window_rect (String (ascii_of_nat 10) EmptyString)
  = Some (QRect_xywh 0 0 1280 720).
Proof.
  pose proof (window_shot_degrades (full_host true None)) as [H1 [_ H3]].
  pose proof (window_shot_degrades (full_host false None)) as [_ [H2 _]].
  split; [exact (H1 (or_intror eq_refl))|].
  split; [exact (H2 no_tool eq_refl)|].
  exact (H3 (String (ascii_of_nat 10) EmptyString) eq_refl).
Defined.

End ScreenshotFacts.
